(** * The control link of the Tello client (package tello, file tello.go)

    A shallow embedding of the connection handshake, the response listener,
    the stick encoder and the one-shot commands, followed by the properties
    of the control-link specification that were checked against them.

    Conventions.
    - Go's fixed-width unsigned integers are [Z] with the wrap-around written
      out ([byte_of], [uint16_of], [uint64_of]); a [[]byte] is a [list Z].
    - [float64] is Rocq's primitive binary64 type, so every floating-point
      operation below is the IEEE-754 operation the Go program performs
      (no fused multiply-add).
    - The methods of [*Tello] are state transformers over a [World]: the
      [Tello] struct, the effects performed so far (socket writes, log lines,
      started goroutines, sleeps) and the buffer of the listener goroutine. *)

From Stdlib Require Import ZArith List Lia Bool String Ascii Floats DecimalString.
Import ListNotations.
Local Open Scope Z_scope.

(* ================================================================== *)
(** ** Machine integers and byte strings *)

Definition wrap (w x : Z) : Z := x mod 2 ^ w.
Definition byte_of (x : Z) : Z := wrap 8 x.
Definition uint16_of (x : Z) : Z := wrap 16 x.
Definition uint64_of (x : Z) : Z := wrap 64 x.

(** [x << k] on a [uint64]. *)
Definition shl64 (x k : Z) : Z := uint64_of (Z.shiftl x k).

(** The bytes of a Go string literal ([[]byte("...")]). *)
Definition bytesOf (s : string) : list Z :=
  map (fun a => Z.of_N (N_of_ascii a)) (list_ascii_of_string s).

(** [strconv.Itoa]. *)
Definition Itoa (i : Z) : string := NilZero.string_of_int (Z.to_int i).

(** [bytes.ContainsAny(b, chars)] for ASCII [chars]: some byte of [b] is one
    of the characters of [chars]. *)
Definition ContainsAny (b : list Z) (chars : string) : bool :=
  existsb (fun x => existsb (Z.eqb x) (bytesOf chars)) b.

(** [bytes.HasPrefix] and [bytes.Contains]: the second is what "the content
    contains the marker text" means; the listener does not call it. *)
Fixpoint HasPrefix (b p : list Z) : bool :=
  match p, b with
  | [], _ => true
  | _ :: _, [] => false
  | y :: p', x :: b' => (x =? y) && HasPrefix b' p'
  end.

Fixpoint Contains (b sub : list Z) : bool :=
  HasPrefix b sub ||
  match b with
  | [] => false
  | _ :: b' => Contains b' sub
  end.

(** Little-endian value of a byte string. *)
Fixpoint le_value (bs : list Z) : Z :=
  match bs with
  | [] => 0
  | b :: rest => b + 256 * le_value rest
  end.

(** The [width]-bit field of [x] that starts at bit [pos]. *)
Definition field (pos width x : Z) : Z := Z.land (Z.shiftr x pos) (Z.ones width).

(* ================================================================== *)
(** ** float64 *)

(** Integer part of the magnitude [m * 2^e]. *)
Definition truncMag (m : positive) (e : Z) : Z :=
  if 0 <=? e then Z.shiftl (Z.pos m) e else Z.shiftr (Z.pos m) (- e).

(** Go converts a float to an integer by discarding the fraction; when the
    result does not fit the target type the value is implementation-specific.
    [outOfRange] is what the platform yields in that case. *)
Class Platform := { outOfRange : float -> Z }.

Definition uint64_of_float `{Platform} (f : float) : Z :=
  match Prim2SF f with
  | S754_zero _ => 0
  | S754_finite s m e =>
      let t := truncMag m e in
      if s then (if t =? 0 then 0 else uint64_of (outOfRange f))
      else if t <? 2 ^ 64 then t else uint64_of (outOfRange f)
  | _ => uint64_of (outOfRange f)
  end.

(** The constant [0.1] of [sendStickUpdate], as the float64 nearest to it. *)
Definition throttleDeadband : float := 0x1.999999999999ap-4%float.

(** The exact rational value of a finite float, as numerator and the power of
    two dividing it: [m * 2^e] is [num / 2^den] with [den >= 0]. *)
Definition exactValue (f : float) : option (Z * Z) :=
  match Prim2SF f with
  | S754_zero _ => Some (0, 0)
  | S754_finite s m e =>
      let n := if 0 <=? e then Z.shiftl (Z.pos m) e else Z.pos m in
      Some (if s then - n else n, if 0 <=? e then 0 else - e)
  | _ => None
  end.

(** Round-half-up of [num / 2^den], the reading of "round" used to compare
    with the specification's formula. *)
Definition roundNearest (q : Z * Z) : Z :=
  let '(num, den) := q in (2 * num + 2 ^ den) / (2 * 2 ^ den).

(** The specification's mapping, [round(660 * value + 1024)], computed
    exactly on the rational value of [fv]. *)
Definition specAxisMap (fv : float) : option Z :=
  match exactValue fv with
  | Some (num, den) => Some (roundNearest (660 * num + 1024 * 2 ^ den, den))
  | None => None
  end.

(* ================================================================== *)
(** ** Constants of tello.go *)

Definition defaultTelloAddr : string := "192.168.10.1".
Definition defaultTelloControlPort : Z := 8889.
Definition defaultLocalControlPort : Z := 8800.
Definition defaultTelloVideoPort : Z := 6038.
Definition defaultLocalVideoPort : Z := 8801.

Definition keepAlivePeriodMs : Z := 50.

(* ================================================================== *)
(** ** Data model *)

(** The fields of [packet] that tello.go reads or writes. *)
Record packet := mkPacket {
  header : Z;
  toDrone : bool;
  packetType : Z;
  messageID : Z;
  sequence : Z;
  size13 : Z;
  payload : list Z
}.

(** [var pkt packet]. *)
Definition zeroPacket : packet := mkPacket 0 false 0 0 0 0 [].

(** Declarations of the package made outside tello.go: the frame marker, the
    packet types and message identifiers, and the decoder applied to a
    received buffer. *)
Class Protocol := {
  msgHdr : Z;
  ptSet : Z;
  ptData2 : Z;
  msgSetStick : Z;
  msgDoTakeoff : Z;
  msgDoLand : Z;
  msgFlightStatus : Z;
  msgLightStrength : Z;
  msgLogHeader : Z;
  msgWifiStrength : Z;
  bufferToPacket : list Z -> packet
}.

(** A Go [switch] over constants does not compile with a repeated case, so
    the four identifiers the listener switches on are pairwise different. *)
Definition switchCasesDistinct `{Protocol} : Prop :=
  NoDup [msgFlightStatus; msgLightStrength; msgLogHeader; msgWifiStrength].

(** Modelled from the spec: the type [FlightData] is declared outside
    tello.go; the telemetry snapshot holds wifi signal strength, wifi
    interference and light strength, each 0-255, which are the three fields
    tello.go assigns. *)
Record FlightData := mkFlightData {
  LightStrength : Z;
  WifiStrength : Z;
  WifiInterference : Z
}.

(** [StickMessage], by the fields [stickListener] copies. *)
Record StickMessage := mkStickMessage {
  Rx : float; Ry : float; Lx : float; Ly : float; Throttle : float
}.

Definition error := string.

Definition UDPAddr := string.
Record UDPConn := mkUDPConn { laddr : UDPAddr; raddr : UDPAddr }.

Record Tello := mkTello {
  ctrlConn : option UDPConn;
  videoConn : option UDPConn;
  ctrlStopChan : option (list bool);
  videoStopChan : option (list bool);
  ctrlConnecting : bool;
  ctrlConnected : bool;
  ctrlSeq : Z;
  ctrlRx : float;
  ctrlRy : float;
  ctrlLx : float;
  ctrlLy : float;
  ctrlThrottle : float;
  stickChan : option (list StickMessage);
  fd : FlightData;
  fdStreaming : bool
}.

(** [new(Tello)]: every field at its zero value. *)
Definition zeroTello : Tello :=
  mkTello None None None None false false 0 0 0 0 0 0 None (mkFlightData 0 0 0) false.

Definition set_ctrlConn (v : option UDPConn) (t : Tello) : Tello :=
  mkTello v (videoConn t) (ctrlStopChan t) (videoStopChan t) (ctrlConnecting t)
    (ctrlConnected t) (ctrlSeq t) (ctrlRx t) (ctrlRy t) (ctrlLx t) (ctrlLy t)
    (ctrlThrottle t) (stickChan t) (fd t) (fdStreaming t).

Definition set_ctrlStopChan (v : option (list bool)) (t : Tello) : Tello :=
  mkTello (ctrlConn t) (videoConn t) v (videoStopChan t) (ctrlConnecting t)
    (ctrlConnected t) (ctrlSeq t) (ctrlRx t) (ctrlRy t) (ctrlLx t) (ctrlLy t)
    (ctrlThrottle t) (stickChan t) (fd t) (fdStreaming t).

Definition set_ctrlConnecting (v : bool) (t : Tello) : Tello :=
  mkTello (ctrlConn t) (videoConn t) (ctrlStopChan t) (videoStopChan t) v
    (ctrlConnected t) (ctrlSeq t) (ctrlRx t) (ctrlRy t) (ctrlLx t) (ctrlLy t)
    (ctrlThrottle t) (stickChan t) (fd t) (fdStreaming t).

Definition set_ctrlConnected (v : bool) (t : Tello) : Tello :=
  mkTello (ctrlConn t) (videoConn t) (ctrlStopChan t) (videoStopChan t)
    (ctrlConnecting t) v (ctrlSeq t) (ctrlRx t) (ctrlRy t) (ctrlLx t) (ctrlLy t)
    (ctrlThrottle t) (stickChan t) (fd t) (fdStreaming t).

Definition set_ctrlSeq (v : Z) (t : Tello) : Tello :=
  mkTello (ctrlConn t) (videoConn t) (ctrlStopChan t) (videoStopChan t)
    (ctrlConnecting t) (ctrlConnected t) v (ctrlRx t) (ctrlRy t) (ctrlLx t)
    (ctrlLy t) (ctrlThrottle t) (stickChan t) (fd t) (fdStreaming t).

Definition set_ctrlRx (v : float) (t : Tello) : Tello :=
  mkTello (ctrlConn t) (videoConn t) (ctrlStopChan t) (videoStopChan t)
    (ctrlConnecting t) (ctrlConnected t) (ctrlSeq t) v (ctrlRy t) (ctrlLx t)
    (ctrlLy t) (ctrlThrottle t) (stickChan t) (fd t) (fdStreaming t).

Definition set_ctrlRy (v : float) (t : Tello) : Tello :=
  mkTello (ctrlConn t) (videoConn t) (ctrlStopChan t) (videoStopChan t)
    (ctrlConnecting t) (ctrlConnected t) (ctrlSeq t) (ctrlRx t) v (ctrlLx t)
    (ctrlLy t) (ctrlThrottle t) (stickChan t) (fd t) (fdStreaming t).

Definition set_ctrlLx (v : float) (t : Tello) : Tello :=
  mkTello (ctrlConn t) (videoConn t) (ctrlStopChan t) (videoStopChan t)
    (ctrlConnecting t) (ctrlConnected t) (ctrlSeq t) (ctrlRx t) (ctrlRy t) v
    (ctrlLy t) (ctrlThrottle t) (stickChan t) (fd t) (fdStreaming t).

Definition set_ctrlLy (v : float) (t : Tello) : Tello :=
  mkTello (ctrlConn t) (videoConn t) (ctrlStopChan t) (videoStopChan t)
    (ctrlConnecting t) (ctrlConnected t) (ctrlSeq t) (ctrlRx t) (ctrlRy t)
    (ctrlLx t) v (ctrlThrottle t) (stickChan t) (fd t) (fdStreaming t).

Definition set_ctrlThrottle (v : float) (t : Tello) : Tello :=
  mkTello (ctrlConn t) (videoConn t) (ctrlStopChan t) (videoStopChan t)
    (ctrlConnecting t) (ctrlConnected t) (ctrlSeq t) (ctrlRx t) (ctrlRy t)
    (ctrlLx t) (ctrlLy t) v (stickChan t) (fd t) (fdStreaming t).

Definition set_stickChan (v : option (list StickMessage)) (t : Tello) : Tello :=
  mkTello (ctrlConn t) (videoConn t) (ctrlStopChan t) (videoStopChan t)
    (ctrlConnecting t) (ctrlConnected t) (ctrlSeq t) (ctrlRx t) (ctrlRy t)
    (ctrlLx t) (ctrlLy t) (ctrlThrottle t) v (fd t) (fdStreaming t).

Definition set_fd (v : FlightData) (t : Tello) : Tello :=
  mkTello (ctrlConn t) (videoConn t) (ctrlStopChan t) (videoStopChan t)
    (ctrlConnecting t) (ctrlConnected t) (ctrlSeq t) (ctrlRx t) (ctrlRy t)
    (ctrlLx t) (ctrlLy t) (ctrlThrottle t) (stickChan t) v (fdStreaming t).

Definition set_fdStreaming (v : bool) (t : Tello) : Tello :=
  mkTello (ctrlConn t) (videoConn t) (ctrlStopChan t) (videoStopChan t)
    (ctrlConnecting t) (ctrlConnected t) (ctrlSeq t) (ctrlRx t) (ctrlRy t)
    (ctrlLx t) (ctrlLy t) (ctrlThrottle t) (stickChan t) (fd t) v.

Definition set_LightStrength (v : Z) (d : FlightData) : FlightData :=
  mkFlightData v (WifiStrength d) (WifiInterference d).
Definition set_WifiStrength (v : Z) (d : FlightData) : FlightData :=
  mkFlightData (LightStrength d) v (WifiInterference d).
Definition set_WifiInterference (v : Z) (d : FlightData) : FlightData :=
  mkFlightData (LightStrength d) (WifiStrength d) v.

(* ================================================================== *)
(** ** Effects *)

(** What is handed to [ctrlConn.Write]: raw bytes, or the buffer
    [packetToBuffer(p)] of a packet (the frame layout and its CRCs are
    computed outside tello.go, so the packet stands for its encoding). *)
Inductive Datagram :=
| Raw (bs : list Z)
| Framed (p : packet).

Inductive LogEntry :=
| LogConnAck (n : Z)
| LogUnexpectedResponse (buff : list Z)
| LogListenerStopped
| LogReadError (e : error)
| LogUnexpectedMessage (b0 : Z)
| LogLogHeader (size type : Z)
| LogParsedWifi (strength interference : Z)
| LogUnknownMessage (id size type : Z).

Inductive Goroutine :=
| GoControlResponseListener
| GoKeepAlive
| GoStickListener
| GoFlightDataStreamer (periodMs : Z).

Inductive Event :=
| EvResolve (network address : string)
| EvDial (network : string) (local remote : UDPAddr)
| EvWrite (c : UDPConn) (d : Datagram)
| EvClose (c : UDPConn)
| EvGo (g : Goroutine)
| EvSleep (ms : Z)
| EvLog (l : LogEntry).

(** The program state: the struct, the effects so far (oldest first) and the
    buffer of the running [controlResponseListener] goroutine ([None] while
    no listener runs). *)
Record World := mkWorld {
  tello : Tello;
  trace : list Event;
  listener : option (list Z)
}.

Definition freshWorld (t : Tello) : World := mkWorld t [] None.

Inductive Outcome (A : Type) :=
| Ret (a : A) (w : World)
| Panic (w : World)                 (* run-time panic *)
| Blocked (w : World)               (* a channel send that cannot proceed *)
| Fatal (msg : string) (w : World). (* log.Fatal: the process exits *)
Arguments Ret {A} a w.
Arguments Panic {A} w.
Arguments Blocked {A} w.
Arguments Fatal {A} msg w.

Definition M (A : Type) : Type := World -> Outcome A.

Definition ret {A} (a : A) : M A := fun w => Ret a w.

Definition bind {A B} (m : M A) (k : A -> M B) : M B :=
  fun w =>
    match m w with
    | Ret a w' => k a w'
    | Panic w' => Panic w'
    | Blocked w' => Blocked w'
    | Fatal msg w' => Fatal msg w'
    end.

Notation "x <- m ;; k" := (bind m (fun x => k))
  (at level 61, m at next level, right associativity).
Notation "m ;; k" := (bind m (fun _ => k))
  (at level 61, right associativity).

Definition getTello : M Tello := fun w => Ret (tello w) w.

Definition modify (f : Tello -> Tello) : M unit :=
  fun w => Ret tt (mkWorld (f (tello w)) (trace w) (listener w)).

Definition emit (e : Event) : M unit :=
  fun w => Ret tt (mkWorld (tello w) (trace w ++ [e]) (listener w)).

Definition setListener (b : option (list Z)) : M unit :=
  fun w => Ret tt (mkWorld (tello w) (trace w) b).

Definition panic {A} : M A := fun w => Panic w.
Definition block {A} : M A := fun w => Blocked w.
Definition logFatal {A} (msg : string) : M A := fun w => Fatal msg w.

Definition logPrint (l : LogEntry) : M unit := emit (EvLog l).
Definition sleep (ms : Z) : M unit := emit (EvSleep ms).
Definition go (g : Goroutine) : M unit := emit (EvGo g).

(** [b[i]] on a slice: a run-time panic when [i] is out of range. *)
Definition index (b : list Z) (i : nat) : M Z :=
  match nth_error b i with
  | Some x => ret x
  | None => panic
  end.

(** [tello.ctrlConn.Write(buff)]. *)
Definition connWrite (d : Datagram) : M unit :=
  t <- getTello ;;
  match ctrlConn t with
  | Some c => emit (EvWrite c d)
  | None => panic
  end.

(** The network as seen by [ControlConnect]. *)
Class Net := {
  ResolveUDPAddr : string -> string -> UDPAddr + error;
  DialUDP : string -> UDPAddr -> UDPAddr -> UDPConn + error
}.

(** One result of [tello.ctrlConn.Read(buff)]: a datagram, or an error. *)
Inductive ReadResult :=
| Received (d : list Z)
| ReadFailed (e : error).

(** [time.Now()], by the four readings [sendStickUpdate] takes. *)
Record Clock := mkClock { Hour : Z; Minute : Z; Second : Z; UnixNano : Z }.

(* ================================================================== *)
(** ** The stick encoder *)

Section Encoder.
Context `{Platform}.

Definition jsFloatToTello (fv : float) : Z :=
  uint64_of_float (660 * fv + 1024)%float.

(** The local [packedAxes] of [sendStickUpdate] once all five fields are in. *)
Definition packedAxes (t : Tello) : Z :=
  let p := jsFloatToTello (ctrlRx t) in
  let p := Z.lor p (shl64 (jsFloatToTello (ctrlRy t)) 11) in
  let p := Z.lor p (shl64 (jsFloatToTello (ctrlLy t)) 22) in
  let p := Z.lor p (shl64 (jsFloatToTello (ctrlLx t)) 33) in
  if (throttleDeadband <? ctrlThrottle t)%float
  then Z.lor p (shl64 0x7ff 44)
  else Z.lor p (shl64 (jsFloatToTello (ctrlThrottle t)) 44).

Definition stickPayload (t : Tello) (now : Clock) : list Z :=
  let p := packedAxes t in
  let ms := Z.quot (UnixNano now) 1000000 in
  [ byte_of p;
    byte_of (Z.shiftr p 8);
    byte_of (Z.shiftr p 16);
    byte_of (Z.shiftr p 24);
    byte_of (Z.shiftr p 32);
    byte_of (Z.shiftr p 40);
    byte_of (Hour now);
    byte_of (Minute now);
    byte_of (Second now);
    byte_of (Z.land ms 0xff);
    byte_of (Z.shiftr ms 8) ].
End Encoder.

(* ================================================================== *)
(** ** Commands sent to the drone *)

Section Commands.
Context `{Platform} `{Protocol}.

Definition stickPacket (t : Tello) (now : Clock) : packet :=
  mkPacket msgHdr true ptData2 msgSetStick 0 0 (stickPayload t now).

Definition sendStickUpdate (now : Clock) : M unit :=
  t <- getTello ;;
  connWrite (Framed (stickPacket t now)).

Definition TakeOff : M unit :=
  modify (fun t => set_ctrlSeq (uint16_of (ctrlSeq t + 1)) t) ;;
  t <- getTello ;;
  connWrite (Framed (mkPacket msgHdr true ptSet msgDoTakeoff (ctrlSeq t) 0 [])).

Definition Land : M unit :=
  modify (fun t => set_ctrlSeq (uint16_of (ctrlSeq t + 1)) t) ;;
  t <- getTello ;;
  connWrite (Framed (mkPacket msgHdr true ptSet msgDoLand (ctrlSeq t) 0 [0])).

(** One turn of the loop of [keepAlive]; [false] when the loop returns. *)
Definition keepAliveIter (now : Clock) : M bool :=
  t <- getTello ;;
  if ctrlConnected t
  then sendStickUpdate now ;; sleep keepAlivePeriodMs ;; ret true
  else ret false.
End Commands.

Definition Hover : M unit :=
  modify (set_ctrlLx 0%float) ;;
  modify (set_ctrlLy 0%float) ;;
  modify (set_ctrlRx 0%float) ;;
  modify (set_ctrlRy 0%float) ;;
  modify (set_ctrlThrottle 0%float).

(** One turn of the loop of [stickListener], for the message [sm] received
    from [stickChan]. *)
Definition stickListenerIter (sm : StickMessage) : M unit :=
  modify (set_ctrlLx (Lx sm)) ;;
  modify (set_ctrlLy (Ly sm)) ;;
  modify (set_ctrlRx (Rx sm)) ;;
  modify (set_ctrlRy (Ry sm)) ;;
  modify (set_ctrlThrottle (Throttle sm)).

(** The operations that put a packet on the control socket. *)
Inductive Op :=
| OpTakeOff
| OpLand
| OpStickUpdate (now : Clock).

Definition runOp `{Platform} `{Protocol} (o : Op) : M unit :=
  match o with
  | OpTakeOff => TakeOff
  | OpLand => Land
  | OpStickUpdate now => sendStickUpdate now
  end.

Fixpoint runOps `{Platform} `{Protocol} (os : list Op) : M unit :=
  match os with
  | [] => ret tt
  | o :: rest => runOp o ;; runOps rest
  end.

(** The sequence fields of the packets written, in transmission order. *)
Fixpoint sentSequences (tr : list Event) : list Z :=
  match tr with
  | [] => []
  | EvWrite _ (Framed p) :: rest => sequence p :: sentSequences rest
  | _ :: rest => sentSequences rest
  end.

Definition isCommand (o : Op) : bool :=
  match o with
  | OpStickUpdate _ => false
  | _ => true
  end.

(** Number of take-off and land requests among [os]. *)
Definition commandCount (os : list Op) : Z :=
  Z.of_nat (List.length (filter isCommand os)).

(** "Each packet carries a sequence number strictly greater than the
    previous one". *)
Fixpoint strictlyIncreasing (l : list Z) : bool :=
  match l with
  | x :: ((y :: _) as rest) => (x <? y) && strictlyIncreasing rest
  | _ => true
  end.

(* ================================================================== *)
(** ** The response listener *)

(** [b[i] = v] on a slice, for an index in range. *)
Fixpoint setIndex (i : nat) (v : Z) (b : list Z) : list Z :=
  match b, i with
  | [], _ => []
  | _ :: rest, O => v :: rest
  | x :: rest, S j => x :: setIndex j v rest
  end.

(** [Read] copies the datagram over the front of the buffer, cut to the
    buffer's length, and leaves the rest of the buffer as it was. *)
Definition readInto (buff d : list Z) : Z * list Z :=
  let d' := firstn (List.length buff) d in
  (Z.of_nat (List.length d'), d' ++ skipn (List.length d') buff).

Definition connAckChars : string := "conn_ack:".

Section Listener.
Context `{Protocol}.

(** The [switch pkt.messageID] of the listener. *)
Definition dispatch (pkt : packet) : M unit :=
  if messageID pkt =? msgFlightStatus then ret tt
  else if messageID pkt =? msgLightStrength then
    p0 <- index (payload pkt) 0 ;;
    modify (fun t => set_fd (set_LightStrength p0 (fd t)) t)
  else if messageID pkt =? msgLogHeader then
    logPrint (LogLogHeader (size13 pkt) (packetType pkt))
  else if messageID pkt =? msgWifiStrength then
    p0 <- index (payload pkt) 0 ;;
    modify (fun t => set_fd (set_WifiStrength p0 (fd t)) t) ;;
    p1 <- index (payload pkt) 1 ;;
    modify (fun t => set_fd (set_WifiInterference p1 (fd t)) t) ;;
    t <- getTello ;;
    logPrint (LogParsedWifi (WifiStrength (fd t)) (WifiInterference (fd t)))
  else
    logPrint (LogUnknownMessage (messageID pkt) (size13 pkt) (packetType pkt)).

(** The body of the loop of [controlResponseListener] after [Read] has
    returned [n] and [err] and left [buff]. *)
Definition listenerBody (n : Z) (err : option error) (buff : list Z) : M unit :=
  t <- getTello ;;
  if ctrlConnecting t && (n =? 11) then
    if ContainsAny buff connAckChars then
      logPrint (LogConnAck n) ;;
      modify (set_ctrlConnecting false) ;;
      modify (set_ctrlConnected true)
    else
      logPrint (LogUnexpectedResponse buff)
  else
    match ctrlStopChan t with
    | Some (_ :: rest) =>
        modify (set_ctrlStopChan (Some rest)) ;;
        logPrint LogListenerStopped ;;
        setListener None
    | _ =>
        match err with
        | Some e => logPrint (LogReadError e)
        | None =>
            if negb (nth 0 buff 0 =? msgHdr)
            then logPrint (LogUnexpectedMessage (nth 0 buff 0))
            else dispatch (bufferToPacket buff)
        end
    end.

(** One turn of the loop, for the next result of [Read]; nothing happens
    once the goroutine has returned.  The result is what the socket gives:
    which results can follow which events is for the caller to say (once the
    socket is closed, [Read] fails). *)
Definition listenerIter (r : ReadResult) : M unit :=
  fun w =>
    match listener w with
    | None => Ret tt w
    | Some buff0 =>
        match r with
        | Received d =>
            let '(n, buff) := readInto buff0 d in
            (setListener (Some buff) ;; listenerBody n None buff) w
        | ReadFailed e => listenerBody 0 (Some e) buff0 w
        end
    end.

(** The loop of [controlResponseListener], run over the results of its
    successive reads. *)
Fixpoint controlResponseListener (rs : list ReadResult) : M unit :=
  match rs with
  | [] => ret tt
  | r :: rest => listenerIter r ;; controlResponseListener rest
  end.

(** [go tello.controlResponseListener()]: [buff := make([]byte, 4096)]. *)
Definition startListener : M unit :=
  go GoControlResponseListener ;;
  setListener (Some (repeat 0 4096)).
End Listener.

(* ================================================================== *)
(** ** Connecting and disconnecting *)

Definition connectRequest (videoPort : Z) : list Z :=
  let msgBuff := bytesOf "conn_req:lh" in
  let msgBuff := setIndex 9 (byte_of (Z.land videoPort 0xff)) msgBuff in
  setIndex 10 (byte_of (Z.shiftr videoPort 8)) msgBuff.

Definition sendConnectRequest (videoPort : Z) : M unit :=
  modify (set_ctrlConnecting true) ;;
  connWrite (Raw (connectRequest videoPort)).

Definition errAlreadyConnected : error := "Tello already connected"%string.
Definition errConnectInProgress : error :=
  "Tello connection attempt already in progress"%string.
Definition errHandshakeTimeout : error :=
  "Timeout waiting for response to connection request from Tello"%string.
Definition errAlreadyStreaming : error :=
  "Already streaming data from this Tello"%string.

Section Connect.
Context `{Protocol} `{Net}.

(** What the listener goroutine reads while [ControlConnect] runs:
    [arrivals 0] between the connect request and the first poll,
    [arrivals (S t)] during the sleep that follows poll [t]. *)
Variable arrivals : nat -> list ReadResult.

(** The loop [for t := 0; t < 10; t++], with [polls] turns left. *)
Fixpoint awaitConnected (polls t : nat) : M unit :=
  match polls with
  | O => ret tt
  | S k =>
      tl <- getTello ;;
      if ctrlConnected tl then ret tt
      else
        sleep 333 ;;
        controlResponseListener (arrivals (S t)) ;;
        awaitConnected k (S t)
  end.

Definition ControlConnect (udpAddr : string) (droneUDPPort localUDPPort : Z)
  : M (option (list StickMessage) * option error) :=
  t <- getTello ;;
  if ctrlConnected t then ret (None, Some errAlreadyConnected)
  else if ctrlConnecting t then ret (None, Some errConnectInProgress)
  else
    let droneName := (udpAddr ++ ":" ++ Itoa droneUDPPort)%string in
    emit (EvResolve "udp" droneName) ;;
    match ResolveUDPAddr "udp" droneName with
    | inr e => ret (None, Some e)
    | inl droneAddr =>
        let localName := (":" ++ Itoa localUDPPort)%string in
        emit (EvResolve "udp" localName) ;;
        match ResolveUDPAddr "udp" localName with
        | inr e => ret (None, Some e)
        | inl localAddr =>
            emit (EvDial "udp" localAddr droneAddr) ;;
            match DialUDP "udp" localAddr droneAddr with
            | inr e => modify (set_ctrlConn None) ;; ret (None, Some e)
            | inl c =>
                modify (set_ctrlConn (Some c)) ;;
                modify (set_ctrlStopChan (Some [])) ;;
                startListener ;;
                sendConnectRequest defaultTelloVideoPort ;;
                controlResponseListener (arrivals 0%nat) ;;
                awaitConnected 10 0 ;;
                t' <- getTello ;;
                if negb (ctrlConnected t')
                then ret (None, Some errHandshakeTimeout)
                else
                  go GoKeepAlive ;;
                  modify (set_stickChan (Some [])) ;;
                  go GoStickListener ;;
                  ret (Some [], None)
            end
        end
    end.

Definition ControlConnectDefault : M (option (list StickMessage) * option error) :=
  ControlConnect defaultTelloAddr defaultTelloControlPort defaultLocalControlPort.
End Connect.

(** [ControlDisconnect]: the send blocks on a nil channel and on a full one
    (capacity 2). *)
Definition ControlDisconnect : M unit :=
  t <- getTello ;;
  match ctrlStopChan t with
  | None => block
  | Some q =>
      if (2 <=? List.length q)%nat then block
      else
        modify (set_ctrlStopChan (Some (q ++ [true]))) ;;
        match ctrlConn t with
        | None => panic
        | Some c =>
            emit (EvClose c) ;;
            modify (set_ctrlConnected false)
        end
  end.

(* ================================================================== *)
(** ** Flight data *)

Definition GetFlightData : M FlightData :=
  t <- getTello ;;
  ret (fd t).

Definition errNotImplemented : string :=
  "asAvailable FlightData stream not yet implemented".

Definition StreamFlightData (asAvailable : bool) (periodMs : Z)
  : M (option (list FlightData) * option error) :=
  t <- getTello ;;
  if fdStreaming t then ret (None, Some errAlreadyStreaming)
  else
    (if asAvailable then logFatal errNotImplemented
     else go (GoFlightDataStreamer periodMs)) ;;
    modify (set_fdStreaming true) ;;
    ret (Some [], None).

(* ================================================================== *)
(** ** Phases of the link, as the specification names them *)

Inductive Phase := Idle | Handshaking | Connected.

Definition phase (t : Tello) : Phase :=
  if ctrlConnected t then Connected
  else if ctrlConnecting t then Handshaking
  else Idle.


Definition isUnexpectedLog (e : Event) : bool :=
  match e with
  | EvLog (LogUnexpectedResponse _) => true
  | EvLog (LogUnexpectedMessage _) => true
  | _ => false
  end.

(** The two log lines of the handshake branch of the listener. *)
Definition isHandshakeLog (l : LogEntry) : bool :=
  match l with
  | LogConnAck _ => true
  | LogUnexpectedResponse _ => true
  | _ => false
  end.

(* ================================================================== *)
(** ** Observations on worlds and traces *)

(** The world an outcome ends in. *)
Definition finalWorld {A} (o : Outcome A) : World :=
  match o with
  | Ret _ w => w
  | Panic w => w
  | Blocked w => w
  | Fatal _ w => w
  end.

(** The datagrams written on the control socket, in order. *)
Fixpoint writesOf (tr : list Event) : list Datagram :=
  match tr with
  | [] => []
  | EvWrite _ d :: rest => d :: writesOf rest
  | _ :: rest => writesOf rest
  end.

(** The durations slept, in order. *)
Fixpoint sleepsOf (tr : list Event) : list Z :=
  match tr with
  | [] => []
  | EvSleep ms :: rest => ms :: sleepsOf rest
  | _ :: rest => sleepsOf rest
  end.

(** The sockets closed, in order. *)
Fixpoint closesOf (tr : list Event) : list UDPConn :=
  match tr with
  | [] => []
  | EvClose c :: rest => c :: closesOf rest
  | _ :: rest => closesOf rest
  end.

(** The sequence fields written by take-off and land requests among the
    operations [os], given the sequence field of every packet written. *)
Definition commandSequences (os : list Op) (seqs : list Z) : list Z :=
  map snd (filter (fun p => isCommand (fst p)) (combine os seqs)).

(** A read that cannot be taken for the acknowledgment: an error, or eleven
    bytes none of which is a character of the marker. *)
Definition quiet (r : ReadResult) : Prop :=
  match r with
  | ReadFailed _ => True
  | Received d => List.length d = 11%nat /\ ContainsAny d connAckChars = false
  end.

(** The link waits for the acknowledgment on connection [c]: the request is
    out, no stop signal is pending, and the listener's buffer holds none of
    the marker's characters. *)
Definition waiting (c : UDPConn) (w : World) : Prop :=
  ctrlConnecting (tello w) = true /\ ctrlConnected (tello w) = false /\
  ctrlStopChan (tello w) = Some [] /\ ctrlConn (tello w) = Some c /\
  exists buff, listener w = Some buff /\ List.length buff = 4096%nat /\
               ContainsAny buff connAckChars = false.

(** [w'] differs from [w] by log lines and [n] sleeps of 333 ms. *)
Definition idled (n : nat) (w w' : World) : Prop :=
  tello w' = tello w /\
  writesOf (trace w') = writesOf (trace w) /\
  closesOf (trace w') = closesOf (trace w) /\
  sleepsOf (trace w') = sleepsOf (trace w) ++ repeat 333 n.

(* ================================================================== *)
(** ** The documented range of the sticks *)

(** An axis value in the documented range [[-1.0, 1.0]]. *)
Definition inUnit (v : float) : bool := ((-1 <=? v) && (v <=? 1))%float.

(** The four axes in range. *)
Definition axesInRange (t : Tello) : bool :=
  inUnit (ctrlRx t) && inUnit (ctrlRy t) && inUnit (ctrlLx t) && inUnit (ctrlLy t).

(** The axis state of the data model: four axes and throttle in range. *)
Definition inRange (t : Tello) : bool :=
  axesInRange t && inUnit (ctrlThrottle t).

(** The value [sendStickUpdate] puts at bit 44. *)
Definition throttleBits `{Platform} (t : Tello) : Z :=
  if (throttleDeadband <? ctrlThrottle t)%float
  then 0x7ff else jsFloatToTello (ctrlThrottle t).

(** Two link states hold the same stick position. *)
Definition sameSticks (t1 t2 : Tello) : Prop :=
  ctrlRx t1 = ctrlRx t2 /\ ctrlRy t1 = ctrlRy t2 /\ ctrlLx t1 = ctrlLx t2 /\
  ctrlLy t1 = ctrlLy t2 /\ ctrlThrottle t1 = ctrlThrottle t2.

(** The [n] low bytes of [x], least significant first. *)
Fixpoint le_bytes (n : nat) (x : Z) : list Z :=
  match n with
  | O => []
  | S k => byte_of x :: le_bytes k (Z.shiftr x 8)
  end.

(* ================================================================== *)
(** ** Bounds on binary64 roundings *)

(** What is known of a record obtained from [m0] by shifting [n] bits out:
    the quotient, and whether anything non-zero was shifted out. *)
Definition shifted (m0 n : Z) (r : shr_record) : Prop :=
  0 <= shr_m r /\
  exists rho, m0 = shr_m r * 2 ^ n + rho /\ 0 <= rho < 2 ^ n /\
              (shr_r r || shr_s r = true -> 0 < rho) /\
              (shr_r r || shr_s r = false -> rho = 0).

(** [m * 2^e] lies between the integers [A] and [B]; [e <= 0] keeps the
    comparison in the integers. *)
Definition within (A B m e : Z) : Prop :=
  e <= 0 /\ A * 2 ^ (- e) <= m <= B * 2 ^ (- e).

(* ================================================================== *)
(** ** Instances and inputs used by the examples

    The properties below hold for every [Platform], [Protocol] and [Net];
    these instances only serve to run them on concrete inputs. *)

(** A platform whose out-of-range conversions yield [2^63]. *)
Definition examplePlatform : Platform := {| outOfRange := fun _ => 2 ^ 63 |}.

(** A frame layout with the marker in byte 0, the size in bytes 1-2, the type
    in byte 4, the identifier in bytes 5-6, the sequence in bytes 7-8 and the
    payload from byte 9. *)
Definition exampleDecode (b : list Z) : packet :=
  let size := (nth 1 b 0 + 256 * nth 2 b 0) / 8 in
  mkPacket (nth 0 b 0) false (Z.land (Z.shiftr (nth 4 b 0) 3) 7)
    (nth 5 b 0 + 256 * nth 6 b 0) (nth 7 b 0 + 256 * nth 8 b 0) size
    (firstn (Z.to_nat (size - 11)) (skipn 9 b)).

Definition exampleProtocol : Protocol :=
  {| msgHdr := 0xcc; ptSet := 5; ptData2 := 4;
     msgSetStick := 0x50; msgDoTakeoff := 0x54; msgDoLand := 0x55;
     msgFlightStatus := 0x56; msgLightStrength := 0x35;
     msgLogHeader := 0x1050; msgWifiStrength := 0x1a;
     bufferToPacket := exampleDecode |}.

(** A network on which every name resolves and every dial succeeds. *)
Definition exampleNet : Net :=
  {| ResolveUDPAddr := fun _ a => inl a;
     DialUDP := fun _ l r => inl (mkUDPConn l r) |}.

Definition exampleConn : UDPConn :=
  mkUDPConn ":8800"%string "192.168.10.1:8889"%string.

(** No datagram reaches the listener. *)
Definition silence : nat -> list ReadResult := fun _ => [].

(** A link that has sent its connect request and waits for the answer. *)
Definition handshakingWorld : World :=
  mkWorld
    (set_ctrlConnecting true
       (set_ctrlStopChan (Some []) (set_ctrlConn (Some exampleConn) zeroTello)))
    [] (Some (repeat 0 4096)).

(** A flight-status frame of 13 bytes in the layout of [exampleDecode]. *)
Definition statusFrame : list Z := [0xcc; 104; 0; 0; 32; 0x56; 0; 0; 0; 1; 2; 0; 0].

(** An established link. *)
Definition connectedWorld : World :=
  mkWorld
    (set_ctrlConnected true
       (set_ctrlStopChan (Some []) (set_ctrlConn (Some exampleConn) zeroTello)))
    [] (Some (repeat 0 4096)).

Definition exampleClock : Clock := mkClock 12 34 56 1540000000123456789.

(** Sticks: all centred; left stick pushed beyond the documented range; a
    typical in-range position with a small and with a large throttle. *)
Definition sticks (rx ry lx ly th : float) : Tello :=
  set_ctrlThrottle th
    (set_ctrlLy ly (set_ctrlLx lx (set_ctrlRy ry (set_ctrlRx rx zeroTello)))).

Definition centred : Tello := sticks 0 0 0 0 0.
Definition overdriven : Tello := sticks 0 0 2 0 0.
Definition cruising : Tello := sticks 0.5 (-0.25) 1 (-1) 0.0625.
Definition climbing : Tello := sticks 0.5 (-0.25) 1 (-1) 0.75.

(* ================================================================== *)
(** ** The loops of the other goroutines *)

(** The loop of [keepAlive], one turn per clock reading; [false] once the
    loop has returned. *)
Fixpoint keepAlive `{Platform} `{Protocol} (nows : list Clock) : M bool :=
  match nows with
  | [] => ret true
  | now :: rest =>
      running <- keepAliveIter now ;;
      if running then keepAlive rest else ret false
  end.

(** The loop of [stickListener], one turn per message taken from
    [stickChan]. *)
Fixpoint stickListener (sms : list StickMessage) : M unit :=
  match sms with
  | [] => ret tt
  | sm :: rest => stickListenerIter sm ;; stickListener rest
  end.




(* ================================================================== *)
(** ** The video channel *)

Definition set_videoConn (v : option UDPConn) (t : Tello) : Tello :=
  mkTello (ctrlConn t) v (ctrlStopChan t) (videoStopChan t) (ctrlConnecting t)
    (ctrlConnected t) (ctrlSeq t) (ctrlRx t) (ctrlRy t) (ctrlLx t) (ctrlLy t)
    (ctrlThrottle t) (stickChan t) (fd t) (fdStreaming t).

Definition set_videoStopChan (v : option (list bool)) (t : Tello) : Tello :=
  mkTello (ctrlConn t) (videoConn t) (ctrlStopChan t) v (ctrlConnecting t)
    (ctrlConnected t) (ctrlSeq t) (ctrlRx t) (ctrlRy t) (ctrlLx t) (ctrlLy t)
    (ctrlThrottle t) (stickChan t) (fd t) (fdStreaming t).

(** [net.ListenUDP], as seen by [VideoConnect]. *)
Class VideoNet := { ListenUDP : string -> UDPAddr -> UDPConn + error }.

(** [videoResponseListener] has an empty body: the goroutine started by
    [VideoConnect] returns at once and is not traced. *)
Definition videoResponseListener : M unit := ret tt.

Section Video.
Context `{Net} `{VideoNet}.

Definition VideoConnect (udpAddr : string) (droneUDPPort localUDPPort : Z)
  : M (option error) :=
  let droneName := (udpAddr ++ ":" ++ Itoa droneUDPPort)%string in
  emit (EvResolve "udp" droneName) ;;
  match ResolveUDPAddr "udp" droneName with
  | inr e => ret (Some e)
  | inl droneAddr =>
      match ListenUDP "udp" droneAddr with
      | inr e => modify (set_videoConn None) ;; ret (Some e)
      | inl c =>
          modify (set_videoConn (Some c)) ;;
          modify (set_videoStopChan (Some [])) ;;
          videoResponseListener ;;
          ret None
      end
  end.

Definition VideoConnectDefault : M (option error) :=
  VideoConnect defaultTelloAddr defaultTelloVideoPort defaultLocalVideoPort.
End Video.

(** [VideoDisconnect]: the send blocks on a nil channel and on a full one
    (capacity 2). *)
Definition VideoDisconnect : M unit :=
  t <- getTello ;;
  match videoStopChan t with
  | None => block
  | Some q =>
      if (2 <=? List.length q)%nat then block
      else
        modify (set_videoStopChan (Some (q ++ [true]))) ;;
        match videoConn t with
        | None => panic
        | Some c => emit (EvClose c)
        end
  end.

(* ================================================================== *)
(** ** Further observations *)

(** The goroutines started, in order. *)
Fixpoint goroutinesOf (tr : list Event) : list Goroutine :=
  match tr with
  | [] => []
  | EvGo g :: rest => g :: goroutinesOf rest
  | _ :: rest => goroutinesOf rest
  end.

(** The log lines printed, in order. *)
Fixpoint logsOf (tr : list Event) : list LogEntry :=
  match tr with
  | [] => []
  | EvLog l :: rest => l :: logsOf rest
  | _ :: rest => logsOf rest
  end.

Definition isPanic {A} (o : Outcome A) : bool :=
  match o with Panic _ => true | _ => false end.

(** Eleven bytes that the listener takes for the acknowledgment. *)
Definition acknowledging (d : list Z) : Prop :=
  List.length d = 11%nat /\ ContainsAny d connAckChars = true.

(** The stick position a message asks for. *)
Definition sticksOf (sm : StickMessage) (t : Tello) : Tello :=
  set_ctrlThrottle (Throttle sm)
    (set_ctrlRy (Ry sm) (set_ctrlRx (Rx sm)
       (set_ctrlLy (Ly sm) (set_ctrlLx (Lx sm) t)))).

(** What the listener leaves alone: everything but the phase flags, the stop
    channel and the telemetry. *)
Definition sameLink (t t' : Tello) : Prop :=
  ctrlConn t' = ctrlConn t /\ videoConn t' = videoConn t /\
  videoStopChan t' = videoStopChan t /\ ctrlSeq t' = ctrlSeq t /\
  sameSticks t' t /\ stickChan t' = stickChan t /\
  fdStreaming t' = fdStreaming t.

(** A stop signal waits in [ctrlStopChan]. *)
Definition stopPending (t : Tello) : bool :=
  match ctrlStopChan t with
  | Some (_ :: _) => true
  | _ => false
  end.

(** The read is taken by the handshake branch of the listener. *)
Definition handshakeRead (t : Tello) (r : ReadResult) : bool :=
  match r with
  | Received d => ctrlConnecting t && (List.length d =? 11)%nat
  | ReadFailed _ => false
  end.

(** A network on which listening succeeds. *)
Definition exampleVideoNet : VideoNet :=
  {| ListenUDP := fun _ a => inl (mkUDPConn a EmptyString) |}.

(** A network on which no name resolves. *)
Definition deadNet : Net :=
  {| ResolveUDPAddr := fun _ _ => inr "no such host"%string;
     DialUDP := fun _ l r => inl (mkUDPConn l r) |}.

(** The acknowledgment arrives during the sleep that follows poll 2. *)
Definition answerAfterThreePolls : nat -> list ReadResult :=
  fun k => if (k =? 3)%nat then [Received (bytesOf "conn_ack:" ++ [150; 23])] else [].

(* ================================================================== *)
(** ** A handshake that is not answered *)









(* ================================================================== *)
(** ** Relations and examples for the further properties *)

(** [w'] is [w] after the listener has worked on it: log lines were added,
    the link is the same, and the buffer kept its length if the goroutine
    still runs. *)
Definition listened (w w' : World) : Prop :=
  sameLink (tello w) (tello w') /\
  (exists ls, trace w' = trace w ++ map EvLog ls) /\
  match listener w with
  | None => listener w' = None
  | Some b =>
      listener w' = None \/
      exists b', listener w' = Some b' /\ List.length b' = List.length b
  end.

(** [w'] is [w] once the acknowledgment has been taken, [n] sleeps later. *)
Definition acknowledged (n : nat) (w w' : World) : Prop :=
  tello w' = set_ctrlConnected true (set_ctrlConnecting false (tello w)) /\
  writesOf (trace w') = writesOf (trace w) /\
  closesOf (trace w') = closesOf (trace w) /\
  goroutinesOf (trace w') = goroutinesOf (trace w) /\
  sleepsOf (trace w') = sleepsOf (trace w) ++ repeat 333 n /\
  exists buff, listener w' = Some buff.

(** [n] calls of [ControlDisconnect] in a row. *)
Fixpoint disconnects (n : nat) : M unit :=
  match n with
  | O => ret tt
  | S k => ControlDisconnect ;; disconnects k
  end.

(** The set-up of the socket fails with [e]; [dialled] when the failure is
    that of [DialUDP]. *)
Definition setupFailure `{Net} (udpAddr : string) (droneUDPPort localUDPPort : Z)
    (e : error) (dialled : bool) : Prop :=
  let droneName := (udpAddr ++ ":" ++ Itoa droneUDPPort)%string in
  let localName := (":" ++ Itoa localUDPPort)%string in
  match ResolveUDPAddr "udp" droneName with
  | inr e1 => e = e1 /\ dialled = false
  | inl droneAddr =>
      match ResolveUDPAddr "udp" localName with
      | inr e2 => e = e2 /\ dialled = false
      | inl localAddr => DialUDP "udp" localAddr droneAddr = inr e /\ dialled = true
      end
  end.

(** [t] after [Hover]: the five stick fields are zero, the rest is as it was. *)
Definition hovered (t : Tello) : Tello :=
  set_ctrlThrottle 0%float
    (set_ctrlRy 0%float (set_ctrlRx 0%float
       (set_ctrlLy 0%float (set_ctrlLx 0%float t)))).

(** [n] calls of [VideoDisconnect] in a row. *)
Fixpoint videoDisconnects (n : nat) : M unit :=
  match n with
  | O => ret tt
  | S k => VideoDisconnect ;; videoDisconnects k
  end.

(** A wifi-strength frame (strength 90, interference 7) in the layout of
    [exampleDecode]. *)
Definition wifiFrame : list Z := [0xcc; 104; 0; 0; 32; 0x1a; 0; 0; 0; 90; 7; 0; 0].


(** A handshaking link whose listener has read an 18-byte datagram before. *)
Definition staleWorld : World :=
  mkWorld (tello handshakingWorld) []
    (Some (bytesOf "unknown command: x" ++ repeat 0 4078)).

(** An established and a handshaking link with a stop signal pending. *)
Definition stoppingWorld : World :=
  mkWorld (set_ctrlStopChan (Some [true]) (tello connectedWorld)) []
    (Some (repeat 0 4096)).

Definition stoppingHandshake : World :=
  mkWorld (set_ctrlStopChan (Some [true]) (tello handshakingWorld)) []
    (Some (repeat 0 4096)).

(** A small throttle whose mapped value, 1039, ends in the same four bits as
    the saturated field 0x7ff. *)
Definition creeping : Tello := sticks 0.5 (-0.25) 1 (-1) 0.0234375.

(** An instance whose video channel is open, with one stop signal sent. *)
Definition videoWorld : World :=
  mkWorld (set_videoStopChan (Some [true]) (set_videoConn (Some exampleConn) zeroTello))
    [] None.

(** An instance that streams flight data. *)
Definition streamingWorld : World :=
  mkWorld (set_fdStreaming true zeroTello) [] None.

(* ================================================================== *)
(** * Properties *)

(** Unfolds the monad so that a method reads as a function of the world. *)
Ltac run := cbv [bind ret getTello modify emit setListener panic block logFatal
                 logPrint sleep go connWrite index].

(** ** Bits and bytes *)

Lemma wrap_range w x : 0 <= w -> 0 <= wrap w x < 2 ^ w.
Proof. intros Hw. unfold wrap. apply Z.mod_pos_bound. apply Z.pow_pos_nonneg; lia. Qed.

Lemma testbit_wrap w x i : 0 <= w ->
  Z.testbit (wrap w x) i = (i <? w) && Z.testbit x i.
Proof.
  intros Hw. unfold wrap.
  destruct (Z.ltb_spec i w) as [Hlt | Hge]; cbn [andb].
  - destruct (Z.neg_nonneg_cases i) as [Hn | Hp].
    + now rewrite !Z.testbit_neg_r.
    + apply Z.mod_pow2_bits_low; lia.
  - apply Z.mod_pow2_bits_high; lia.
Qed.

Lemma testbit_shl64 x k i : 0 <= k ->
  Z.testbit (shl64 x k) i = (i <? 64) && Z.testbit x (i - k).
Proof.
  intros Hk. unfold shl64, uint64_of. rewrite testbit_wrap by lia.
  destruct (Z.neg_nonneg_cases i) as [Hn | Hp].
  - rewrite (Z.testbit_neg_r x) by lia. rewrite Z.testbit_neg_r by lia.
    now rewrite andb_false_r.
  - now rewrite Z.shiftl_spec by lia.
Qed.

Lemma testbit_field pos width x i : 0 <= pos -> 0 <= width ->
  Z.testbit (field pos width x) i = (0 <=? i) && (i <? width) && Z.testbit x (i + pos).
Proof.
  intros Hp Hw. unfold field.
  destruct (Z.leb_spec 0 i) as [Hi | Hi]; cbn [andb].
  - rewrite Z.land_spec, Z.shiftr_spec by lia.
    rewrite Z.testbit_ones_nonneg by lia.
    rewrite andb_comm. reflexivity.
  - now rewrite Z.testbit_neg_r by lia.
Qed.

Lemma bits_beyond x n i : 0 <= x < 2 ^ n -> n <= i -> Z.testbit x i = false.
Proof.
  intros Hx Hi.
  destruct (Z.eq_dec x 0) as [-> | Hne]; [apply Z.bits_0 |].
  apply Z.bits_above_log2; [lia |].
  assert (Z.log2 x < n); [| lia].
  apply Z.log2_lt_pow2; lia.
Qed.

Lemma le_value_le_bytes n : forall x, le_value (le_bytes n x) = x mod 2 ^ (8 * Z.of_nat n).
Proof.
  induction n as [| n IH]; intros x.
  - cbn. now rewrite Z.mod_1_r.
  - cbn [le_bytes le_value]. rewrite IH.
    replace (8 * Z.of_nat (S n)) with (8 + 8 * Z.of_nat n) by lia.
    rewrite Z.pow_add_r by lia. change (2 ^ 8) with 256.
    rewrite Z.shiftr_div_pow2 by lia. change (2 ^ 8) with 256.
    unfold byte_of, wrap. change (2 ^ 8) with 256.
    symmetry. apply Z.rem_mul_r; [lia |].
    apply Z.pow_pos_nonneg; lia.
Qed.

(** ** Rounding of binary64 products and sums

    [jsFloatToTello] multiplies and adds in float64, so its range on
    [[-1, 1]] rests on how the two operations round.  The specification of
    the primitive operations ([mul_spec], [add_spec]) reduces both to
    [binary_round_aux]: shift the exact mantissa right until it has 53 bits,
    round to nearest even, renormalise.  [shifted] records what a right shift
    leaves behind; [within A B m e] says that [m * 2^e] lies between the
    integers [A] and [B].  A rounding step keeps a value within integer
    bounds that are themselves multiples of the new unit, which is the case
    for bounds below [2^11] ([shr_fexp_within]). *)

Lemma digits2_pos_bounds (m : positive) :
  2 ^ (Z.pos (digits2_pos m) - 1) <= Z.pos m < 2 ^ Z.pos (digits2_pos m).
Proof.
  induction m as [m IH | m IH |]; cbn [digits2_pos].
  - rewrite Pos2Z.inj_succ.
    replace (Z.succ (Z.pos (digits2_pos m)) - 1) with (Z.succ (Z.pos (digits2_pos m) - 1)) by lia.
    rewrite !Z.pow_succ_r by lia. lia.
  - rewrite Pos2Z.inj_succ.
    replace (Z.succ (Z.pos (digits2_pos m)) - 1) with (Z.succ (Z.pos (digits2_pos m) - 1)) by lia.
    rewrite !Z.pow_succ_r by lia. lia.
  - cbn. lia.
Qed.

Lemma shifted_shr_1 m0 n r : 0 <= n -> shifted m0 n r -> shifted m0 (n + 1) (shr_1 r).
Proof.
  intros Hn (Hm & rho & Hm0 & Hrho & Hpos & Hzero).
  destruct r as [m rb sb]. cbn [shr_m shr_r shr_s] in *.
  assert (Hp : 0 < 2 ^ n) by (apply Z.pow_pos_nonneg; lia).
  assert (Hp1 : 2 ^ (n + 1) = 2 * 2 ^ n) by (rewrite Z.pow_add_r, Z.pow_1_r by lia; lia).
  unfold shifted. rewrite Hp1.
  assert (Hcase : (rb || sb = true /\ 0 < rho) \/ (rb || sb = false /\ rho = 0)).
  { destruct (rb || sb); [left | right]; auto. }
  clear Hpos Hzero.
  destruct m as [| [p | p |] | p]; try lia; cbn [shr_1 shr_m shr_r shr_s].
  - split; [lia |]. exists rho.
    destruct Hcase as [[Hb Hr] | [Hb Hr]]; rewrite Hb; cbn [orb];
      repeat split; intros; try discriminate; lia.
  - split; [lia |]. exists (2 ^ n + rho). rewrite Pos2Z.inj_xI in Hm0.
    cbn [orb]. repeat split; intros; try discriminate; lia.
  - split; [lia |]. exists rho. rewrite Pos2Z.inj_xO in Hm0.
    destruct Hcase as [[Hb Hr] | [Hb Hr]]; rewrite Hb; cbn [orb];
      repeat split; intros; try discriminate; lia.
  - split; [lia |]. exists (2 ^ n + rho).
    cbn [orb]. repeat split; intros; try discriminate; lia.
Qed.

Lemma shifted_iter p : forall m0 n r,
  0 <= n -> shifted m0 n r -> shifted m0 (n + Z.pos p) (iter_pos shr_1 p r).
Proof.
  induction p as [p IH | p IH |]; intros m0 n r Hn Hs; cbn [iter_pos].
  - replace (n + Z.pos p~1) with (n + 1 + Z.pos p + Z.pos p) by lia.
    apply IH; [lia |]. apply IH; [lia |]. now apply shifted_shr_1.
  - replace (n + Z.pos p~0) with (n + Z.pos p + Z.pos p) by lia.
    apply IH; [lia |]. now apply IH.
  - now apply shifted_shr_1.
Qed.

Lemma shifted_start m : 0 <= m -> shifted m 0 (Build_shr_record m false false).
Proof.
  intros Hm. split; [exact Hm |]. exists 0. cbn. repeat split; intros; try discriminate; lia.
Qed.

Lemma pow2_pos n : 0 <= n -> 0 < 2 ^ n.
Proof. intros. apply Z.pow_pos_nonneg; lia. Qed.

Lemma pow2_split a b : 0 <= a -> 0 <= b -> 2 ^ (a + b) = 2 ^ a * 2 ^ b.
Proof. intros. apply Z.pow_add_r; lia. Qed.

Lemma digits_le_of_bound (m : positive) (B n : Z) :
  0 <= n -> Z.pos m <= B -> B < 2 ^ n -> Z.pos (digits2_pos m) <= n.
Proof.
  intros Hn Hm HB.
  destruct (digits2_pos_bounds m) as [Hlo _].
  destruct (Z.le_gt_cases (Z.pos (digits2_pos m)) n) as [Hle | Hgt]; [exact Hle |].
  assert (2 ^ n <= 2 ^ (Z.pos (digits2_pos m) - 1)) by (apply Z.pow_le_mono_r; lia).
  lia.
Qed.

(** The exponent chosen for a mantissa whose value is below [2^11]. *)
Lemma exponent_nonpos (m : positive) (B E : Z) :
  E <= 0 -> Z.pos m <= B * 2 ^ (- E) -> B < 2 ^ 11 ->
  fexp prec emax (Z.pos (digits2_pos m) + E) <= 0.
Proof.
  intros HE Hm HB.
  assert (Hd : Z.pos (digits2_pos m) <= 11 + - E).
  { apply digits_le_of_bound with (B := B * 2 ^ (- E)); [lia | exact Hm |].
    rewrite pow2_split by lia.
    apply Z.mul_lt_mono_pos_r; [apply pow2_pos; lia | exact HB]. }
  unfold fexp, SpecFloat.emin, prec, emax. lia.
Qed.

Lemma quotient_within (A B Q P M q rho : Z) :
  0 < P -> 0 < Q -> A * (Q * P) <= M <= B * (Q * P) ->
  M = q * P + rho -> 0 <= rho < P ->
  A * Q <= q /\ q <= B * Q /\ (0 < rho -> q + 1 <= B * Q).
Proof.
  intros HP HQ [Hlo Hhi] HM Hrho.
  assert (H1 : A * Q < q + 1).
  { apply Z.mul_lt_mono_pos_r with (p := P); [exact HP |]. nia. }
  assert (H2 : q <= B * Q).
  { apply Z.mul_le_mono_pos_r with (p := P); [exact HP |]. nia. }
  repeat split; try lia.
  intros Hr. assert (q < B * Q); [| lia].
  apply Z.mul_lt_mono_pos_r with (p := P); [exact HP |]. nia.
Qed.

(** One rounding step of [binary_round_aux]: the truncated mantissa stays
    above the lower bound, the rounded one below the upper bound. *)
Lemma shr_fexp_within (A B M E : Z) :
  0 <= A -> B < 2 ^ 11 -> 0 <= M -> within A B M E ->
  let '(mrs, e') := shr_fexp prec emax M E loc_Exact in
  let m1 := round_nearest_even (shr_m mrs) (loc_of_shr_record mrs) in
  within A B (shr_m mrs) e' /\ within A B m1 e' /\ shr_m mrs <= m1.
Proof.
  intros HA HB HM (HE & Hlo & Hhi).
  unfold shr_fexp. cbn [shr_record_of_loc].
  set (d := Zdigits2 M).
  assert (He' : fexp prec emax (d + E) <= 0).
  { destruct M as [| m | m]; [| | lia].
    - unfold d, fexp, SpecFloat.emin, prec, emax. cbn [Zdigits2]. lia.
    - unfold d. cbn [Zdigits2]. now apply exponent_nonpos with (B := B). }
  unfold shr.
  destruct (fexp prec emax (d + E) - E) as [| k | k] eqn:Hk.
  - cbn. unfold within. repeat split; lia.
  - assert (Hs : shifted M (Z.pos k) (iter_pos shr_1 k (Build_shr_record M false false))).
    { apply (shifted_iter k M 0); [lia |]. now apply shifted_start. }
    set (mrs := iter_pos shr_1 k (Build_shr_record M false false)) in *.
    destruct Hs as (Hq & rho & HMq & Hrho & Hpos & Hzero).
    set (e' := E + Z.pos k).
    assert (Ee' : e' = fexp prec emax (d + E)) by (unfold e'; lia).
    assert (Hpow : 2 ^ (- E) = 2 ^ (- e') * 2 ^ Z.pos k).
    { rewrite <- pow2_split by lia. f_equal. lia. }
    pose proof (pow2_pos (Z.pos k) ltac:(lia)) as Hk0.
    pose proof (pow2_pos (- e') ltac:(lia)) as He0.
    rewrite Hpow in Hlo, Hhi.
    set (q := shr_m mrs) in *. set (P := 2 ^ Z.pos k) in *. set (Q := 2 ^ (- e')) in *.
    destruct (quotient_within A B Q P M q rho Hk0 He0 (conj Hlo Hhi) HMq Hrho)
      as (Hqlo & Hqhi & Hup).
    assert (Hround : q <= round_nearest_even q (loc_of_shr_record mrs) <= B * Q).
    { unfold q in *. clearbody mrs.
      destruct mrs as [qm rb sb]. cbn [shr_m shr_r shr_s] in *.
      destruct rb, sb; cbn [loc_of_shr_record round_nearest_even];
        try specialize (Hup (Hpos eq_refl));
        try destruct (IntDef.Z.even qm); lia. }
    unfold within. fold e'. repeat split; lia.
  - cbn. unfold within. repeat split; lia.
Qed.

Lemma within_nonneg A B m e : 0 <= A -> within A B m e -> 0 <= m.
Proof.
  intros HA (He & Hlo & _).
  pose proof (pow2_pos (- e) ltac:(lia)). nia.
Qed.

Lemma within_pos A B m e : 0 < A -> within A B m e -> 0 < m.
Proof.
  intros HA (He & Hlo & _).
  pose proof (pow2_pos (- e) ltac:(lia)). nia.
Qed.

(** Rounding a positive mantissa whose value lies in [[A, B]] gives a float
    in [[A, B]] (or zero when [A = 0]). *)
Lemma binary_round_aux_within (A B : Z) (s : bool) (M E : Z) :
  0 <= A -> B < 2 ^ 11 -> 0 <= M -> within A B M E ->
  match binary_round_aux prec emax s M E loc_Exact with
  | S754_zero _ => A = 0
  | S754_finite s' m e => s' = s /\ within A B (Z.pos m) e
  | _ => False
  end.
Proof.
  intros HA HB HM Hb.
  unfold binary_round_aux.
  pose proof (shr_fexp_within A B M E HA HB HM Hb) as H1.
  destruct (shr_fexp prec emax M E loc_Exact) as [mrs' e'].
  cbv zeta in H1. destruct H1 as (Hb1 & Hb2 & Hle).
  set (m1 := round_nearest_even (shr_m mrs') (loc_of_shr_record mrs')) in *.
  assert (Hm1 : 0 <= m1) by exact (within_nonneg A B m1 e' HA Hb2).
  pose proof (shr_fexp_within A B m1 e' HA HB Hm1 Hb2) as H2.
  destruct (shr_fexp prec emax m1 e' loc_Exact) as [mrs'' e''].
  cbv zeta in H2. destruct H2 as (Hb3 & _ & _).
  destruct (shr_m mrs'') as [| m | m] eqn:Hm.
  - destruct Hb3 as (He & Hlo & _).
    pose proof (pow2_pos (- e'') ltac:(lia)). nia.
  - destruct Hb3 as (He & Hb3).
    assert (Hfit : (e'' <=? emax - prec) = true).
    { apply Z.leb_le. unfold emax, prec. lia. }
    rewrite Hfit. split; [reflexivity |]. split; assumption.
  - apply (within_nonneg A B _ _ HA) in Hb3. lia.
Qed.

Lemma iter_xO (m d : positive) : Z.pos (Pos.iter xO m d) = Z.pos m * 2 ^ Z.pos d.
Proof.
  induction d as [| d IH] using Pos.peano_ind.
  - cbn. lia.
  - rewrite Pos.iter_succ, Pos2Z.inj_xO, IH, Pos2Z.inj_succ, Z.pow_succ_r by lia. ring.
Qed.

(** [shl_align] keeps the value and never raises the exponent. *)
Lemma shl_align_spec (m : positive) (e e' : Z) :
  let '(m', e1) := shl_align m e e' in
  e1 <= e /\ Z.pos m' = Z.pos m * 2 ^ (e - e1) /\ (e' <= e -> e1 = e').
Proof.
  unfold shl_align.
  destruct (e' - e) as [| d | d] eqn:Hd.
  - replace (e - e) with 0 by lia. cbn. lia.
  - replace (e - e) with 0 by lia. cbn. lia.
  - rewrite iter_xO. replace (e - e') with (Z.pos d) by lia. lia.
Qed.

Lemma within_rescale A B m e e1 :
  e1 <= e -> within A B m e -> within A B (m * 2 ^ (e - e1)) e1.
Proof.
  intros Hle (He & Hlo & Hhi). unfold within.
  replace (- e1) with (- e + (e - e1)) by lia.
  rewrite pow2_split by lia.
  pose proof (pow2_pos (e - e1) ltac:(lia)).
  repeat split; [lia | nia | nia].
Qed.

Lemma binary_round_within (A B : Z) (s : bool) (m : positive) (e : Z) :
  0 <= A -> B < 2 ^ 11 -> within A B (Z.pos m) e ->
  match binary_round prec emax s m e with
  | S754_zero _ => A = 0
  | S754_finite s' m' e' => s' = s /\ within A B (Z.pos m') e'
  | _ => False
  end.
Proof.
  intros HA HB Hb. unfold binary_round.
  pose proof (shl_align_spec m e (fexp prec emax (Z.pos (digits2_pos m) + e))) as Hs.
  destruct (shl_align m e (fexp prec emax (Z.pos (digits2_pos m) + e))) as [mz ez].
  destruct Hs as (Hle & Hmz & _).
  apply binary_round_aux_within; [exact HA | exact HB | lia |].
  rewrite Hmz. now apply within_rescale.
Qed.

Lemma valid_digits s m e :
  valid_binary (S754_finite s m e) = true -> Z.pos (digits2_pos m) <= 53.
Proof.
  cbn. unfold bounded, canonical_mantissa. intros Hv.
  apply andb_prop in Hv as [Hc _]. apply Z.eqb_eq in Hc.
  unfold fexp, SpecFloat.emin, prec, emax in Hc. lia.
Qed.

(** An axis value in [[-1, 1]], as a float. *)

Lemma one_spec : Prim2SF 1 = S754_finite false 4503599627370496 (-52).
Proof. vm_compute. reflexivity. Qed.

Lemma minus_one_spec : Prim2SF (-1) = S754_finite true 4503599627370496 (-52).
Proof. vm_compute. reflexivity. Qed.

Lemma SFleb_pos_finite m1 e1 m2 e2 :
  SFleb (S754_finite false m1 e1) (S754_finite false m2 e2) = true ->
  e1 < e2 \/ (e1 = e2 /\ Z.pos m1 <= Z.pos m2).
Proof.
  unfold SFleb, SFcompare. intros Hle.
  destruct (Z.compare_spec e1 e2) as [He | He | He]; try discriminate Hle; [| lia].
  right. split; [exact He |].
  change (Pos.compare_cont Eq m1 m2) with (Pos.compare m1 m2) in Hle.
  destruct (Pos.compare_spec m1 m2) as [Hc | Hc | Hc]; try discriminate Hle; lia.
Qed.

Lemma SFleb_neg_finite m1 e1 m2 e2 :
  SFleb (S754_finite true m1 e1) (S754_finite true m2 e2) = true ->
  e2 < e1 \/ (e1 = e2 /\ Z.pos m2 <= Z.pos m1).
Proof.
  unfold SFleb, SFcompare. intros Hle.
  destruct (Z.compare_spec e1 e2) as [He | He | He]; try discriminate Hle; [| lia].
  right. split; [exact He |].
  change (Pos.compare_cont Eq m1 m2) with (Pos.compare m1 m2) in Hle.
  destruct (Pos.compare_spec m1 m2) as [Hc | Hc | Hc]; try discriminate Hle; lia.
Qed.

Lemma inUnit_spec v :
  inUnit v = true ->
  match Prim2SF v with
  | S754_zero _ => True
  | S754_finite _ m e => within 0 1 (Z.pos m) e
  | _ => False
  end.
Proof.
  unfold inUnit. intros Hu. apply andb_prop in Hu as [Hlo Hhi].
  rewrite leb_spec in Hlo, Hhi.
  pose proof (Prim2SF_valid v) as Hv.
  rewrite one_spec in Hhi. rewrite minus_one_spec in Hlo.
  destruct (Prim2SF v) as [s | s | | s m e].
  - exact I.
  - destruct s; [discriminate Hlo | discriminate Hhi].
  - discriminate Hhi.
  - apply valid_digits in Hv.
    destruct (digits2_pos_bounds m) as [_ Hm].
    assert (Hm53 : Z.pos m < 2 ^ 53).
    { eapply Z.lt_le_trans; [exact Hm |]. apply Z.pow_le_mono_r; lia. }
    assert (Hcase : e < -52 \/ (e = -52 /\ Z.pos m <= 4503599627370496)).
    { destruct s.
      - apply SFleb_neg_finite in Hlo. lia.
      - apply SFleb_pos_finite in Hhi. lia. }
    clear Hlo Hhi Hm Hv.
    unfold within. destruct Hcase as [He | [-> Hle]].
    + split; [lia |]. split; [lia |].
      assert (2 ^ 53 <= 2 ^ (- e)) by (apply Z.pow_le_mono_r; lia). lia.
    + split; [lia |]. change (2 ^ (- -52)) with 4503599627370496. lia.
Qed.

Lemma SFleb_not_SFltb x y : SFleb x y = true -> SFltb y x = false.
Proof.
  unfold SFleb, SFltb, SFcompare.
  destruct x as [sx | sx | | sx mx ex], y as [sy | sy | | sy my ey];
    try destruct sx; try destruct sy; try reflexivity; try discriminate.
  all: destruct (Z.compare_spec ex ey), (Z.compare_spec ey ex);
    try reflexivity; try discriminate; try lia.
  all: change (Pos.compare_cont Eq mx my) with (Pos.compare mx my);
    change (Pos.compare_cont Eq my mx) with (Pos.compare my mx);
    destruct (Pos.compare_spec mx my), (Pos.compare_spec my mx);
    try reflexivity; try discriminate; lia.
Qed.

Lemma leb_not_ltb (x y : float) : (x <=? y)%float = true -> (y <? x)%float = false.
Proof. rewrite leb_spec, ltb_spec. apply SFleb_not_SFltb. Qed.

Lemma c660_spec : Prim2SF 660 = S754_finite false 5805421394657280 (-43).
Proof. vm_compute. reflexivity. Qed.

Lemma c1024_spec : Prim2SF 1024 = S754_finite false 4503599627370496 (-42).
Proof. vm_compute. reflexivity. Qed.

(** [660 * v] for [v] in [[-1, 1]]: zero, or of magnitude at most 660. *)
Lemma product_within v :
  inUnit v = true ->
  match Prim2SF (660 * v)%float with
  | S754_zero _ => True
  | S754_finite _ m e => within 0 660 (Z.pos m) e
  | _ => False
  end.
Proof.
  intros Hu. apply inUnit_spec in Hu.
  rewrite mul_spec, c660_spec.
  destruct (Prim2SF v) as [s | s | | s m e]; try contradiction.
  - exact I.
  - unfold SF64mul, SFmul.
    destruct Hu as (He & _ & Hm).
    assert (Hw : within 0 660 (Z.pos (5805421394657280 * m)) (-43 + e)).
    { unfold within. rewrite Pos2Z.inj_mul.
      replace (- (-43 + e)) with (43 + - e) by lia.
      rewrite pow2_split by lia.
      change (2 ^ 43) with 8796093022208.
      change (Z.pos 5805421394657280) with (660 * 8796093022208).
      pose proof (pow2_pos (- e) ltac:(lia)) as HP.
      set (P := 2 ^ (- e)) in *. clearbody P. split; [lia | split; lia]. }
    pose proof (binary_round_aux_within 0 660 (xorb false s) _ _
                  ltac:(lia) ltac:(reflexivity) (Pos2Z.is_nonneg _) Hw) as Hr.
    destruct (binary_round_aux prec emax (xorb false s)
                (Z.pos (5805421394657280 * m)) (-43 + e) loc_Exact);
      try exact I; try contradiction. apply Hr.
Qed.

(** Adding 1024 to a value of magnitude at most 660. *)
Lemma sum_within (x : float) :
  match Prim2SF x with
  | S754_zero _ => True
  | S754_finite _ m e => within 0 660 (Z.pos m) e
  | _ => False
  end ->
  exists m e, Prim2SF (x + 1024)%float = S754_finite false m e /\
              within 364 1684 (Z.pos m) e.
Proof.
  intros Hx. rewrite add_spec, c1024_spec.
  destruct (Prim2SF x) as [s | s | | s m e]; try contradiction.
  - cbn [SF64add SFadd]. do 2 eexists. split; [reflexivity |].
    unfold within. change (2 ^ (- -42)) with 4398046511104. lia.
  - unfold SF64add, SFadd.
    destruct Hx as (He & _ & Hm).
    set (ez := Z.min e (-42)).
    pose proof (shl_align_spec m e ez) as Hsx.
    pose proof (shl_align_spec 4503599627370496 (-42) ez) as Hsy.
    destruct (shl_align m e ez) as [mx ex].
    destruct (shl_align 4503599627370496 (-42) ez) as [my ey].
    cbn [fst].
    destruct Hsx as (_ & Hmx & Hex). destruct Hsy as (_ & Hmy & Hey).
    specialize (Hex ltac:(unfold ez; lia)). specialize (Hey ltac:(unfold ez; lia)).
    subst ex ey.
    assert (Hez : ez <= -42) by (unfold ez; lia).
    assert (Hle : ez <= e) by (unfold ez; lia).
    clearbody ez.
    pose proof (pow2_pos (- ez) ltac:(lia)) as HP.
    assert (Hx' : Z.pos mx <= 660 * 2 ^ (- ez)).
    { rewrite Hmx. replace (- ez) with (- e + (e - ez)) by lia.
      rewrite pow2_split by lia.
      pose proof (pow2_pos (e - ez) ltac:(lia)).
      set (P1 := 2 ^ (- e)) in *. set (P2 := 2 ^ (e - ez)) in *. clearbody P1 P2. nia. }
    assert (Hy' : Z.pos my = 1024 * 2 ^ (- ez)).
    { rewrite Hmy. replace (- ez) with (42 + (-42 - ez)) by lia.
      rewrite pow2_split by lia.
      change (2 ^ 42) with 4398046511104.
      change (Z.pos 4503599627370496) with (1024 * 4398046511104). ring. }
    set (S := cond_Zopp s (Z.pos mx) + cond_Zopp false (Z.pos my)).
    assert (Hw : within 364 1684 S ez).
    { unfold within. split; [lia |].
      set (P := 2 ^ (- ez)) in *. clearbody P.
      unfold S, cond_Zopp. destruct s; lia. }
    assert (HS : 0 < S) by exact (within_pos 364 1684 S ez ltac:(lia) Hw).
    clearbody S.
    destruct S as [| pS | pS]; try lia.
    cbn [binary_normalize].
    pose proof (binary_round_within 364 1684 false pS ez
                  ltac:(lia) ltac:(reflexivity) Hw) as Hr.
    destruct (binary_round prec emax false pS ez) as [s' | s' | | s' m' e'];
      try contradiction; [discriminate Hr |].
    destruct Hr as [-> Hr]. eauto.
Qed.

Lemma truncMag_div m e : e <= 0 -> truncMag m e = Z.pos m / 2 ^ (- e).
Proof.
  intros He. unfold truncMag.
  destruct (Z.leb_spec 0 e) as [H0 | H0].
  - replace e with 0 by lia. cbn. now rewrite Z.div_1_r.
  - apply Z.shiftr_div_pow2. lia.
Qed.

Section AxisRange.
Context `{Platform}.

(** The mapping on the documented range of an axis. *)
Lemma jsFloatToTello_inUnit v :
  inUnit v = true ->
  exists m e,
    Prim2SF (660 * v + 1024)%float = S754_finite false m e /\ e <= 0 /\
    jsFloatToTello v = Z.pos m / 2 ^ (- e) /\
    364 <= jsFloatToTello v <= 1684.
Proof.
  intros Hu.
  destruct (sum_within _ (product_within v Hu)) as (m & e & Hsum & He & Hlo & Hhi).
  exists m, e. split; [exact Hsum |]. split; [exact He |].
  pose proof (pow2_pos (- e) ltac:(lia)) as HP.
  assert (Hdiv : 364 <= Z.pos m / 2 ^ (- e) <= 1684).
  { split.
    - apply Z.div_le_lower_bound; lia.
    - apply Z.div_le_upper_bound; lia. }
  assert (Hjs : jsFloatToTello v = Z.pos m / 2 ^ (- e)).
  { unfold jsFloatToTello, uint64_of_float. rewrite Hsum. cbv zeta.
    rewrite truncMag_div by exact He.
    destruct (Z.ltb_spec (Z.pos m / 2 ^ (- e)) (2 ^ 64)) as [Hlt | Hge]; [reflexivity |].
    assert (1684 < 2 ^ 64) by reflexivity. lia. }
  rewrite Hjs. auto.
Qed.
End AxisRange.

(** ** The stick encoder *)

Section EncoderFacts.
Context `{Platform}.

Lemma truncMag_nonneg m e : 0 <= truncMag m e.
Proof.
  unfold truncMag. destruct (0 <=? e).
  - apply Z.shiftl_nonneg. lia.
  - apply Z.shiftr_nonneg. lia.
Qed.

Lemma uint64_of_float_range f : 0 <= uint64_of_float f < 2 ^ 64.
Proof.
  unfold uint64_of_float.
  pose proof (fun x => wrap_range 64 x ltac:(lia)) as Hw.
  destruct (Prim2SF f) as [s | s | | s m e]; try apply Hw; try lia.
  cbv zeta. pose proof (truncMag_nonneg m e).
  destruct s.
  - destruct (truncMag m e =? 0); [lia | apply Hw].
  - destruct (Z.ltb_spec (truncMag m e) (2 ^ 64)); [lia | apply Hw].
Qed.

Lemma jsFloatToTello_range fv : 0 <= jsFloatToTello fv < 2 ^ 64.
Proof. apply uint64_of_float_range. Qed.

(** The field written at bit 44. *)
Lemma packedAxes_bits t i :
  Z.testbit (packedAxes t) i =
    Z.testbit (jsFloatToTello (ctrlRx t)) i
    || (i <? 64) &&
       (Z.testbit (jsFloatToTello (ctrlRy t)) (i - 11)
        || Z.testbit (jsFloatToTello (ctrlLy t)) (i - 22)
        || Z.testbit (jsFloatToTello (ctrlLx t)) (i - 33)
        || Z.testbit (if (throttleDeadband <? ctrlThrottle t)%float
                      then 0x7ff else jsFloatToTello (ctrlThrottle t)) (i - 44)).
Proof.
  unfold packedAxes. cbv zeta.
  destruct (throttleDeadband <? ctrlThrottle t)%float;
    rewrite !Z.lor_spec, !testbit_shl64 by lia;
    destruct (i <? 64); cbn [andb orb]; rewrite ?orb_false_r; 
    rewrite ?orb_assoc; reflexivity.
Qed.

Lemma packedAxes_range t : 0 <= packedAxes t < 2 ^ 64.
Proof.
  assert (Hb : forall i, 64 <= i -> Z.testbit (packedAxes t) i = false).
  { intros i Hi. rewrite packedAxes_bits.
    rewrite (bits_beyond _ 64 i (jsFloatToTello_range _) Hi).
    destruct (Z.ltb_spec i 64); [lia | reflexivity]. }
  assert (Hnn : 0 <= packedAxes t).
  { unfold packedAxes. cbv zeta.
    pose proof (jsFloatToTello_range (ctrlRx t)).
    assert (forall x k, 0 <= shl64 x k) by (intros; apply wrap_range; lia).
    destruct (throttleDeadband <? ctrlThrottle t)%float;
      repeat (apply Z.lor_nonneg; split); auto; lia. }
  split; [exact Hnn |].
  destruct (Z.eq_dec (packedAxes t) 0) as [-> | Hne]; [lia |].
  apply Z.log2_lt_pow2; [lia |].
  destruct (Z.lt_ge_cases (Z.log2 (packedAxes t)) 64) as [Hl | Hl]; [exact Hl |].
  specialize (Hb _ Hl). rewrite Z.bit_log2 in Hb by lia. discriminate.
Qed.
End EncoderFacts.

(** Rewrites away the bits that lie outside an 11-bit value. *)
Ltac drop_bits :=
  repeat match goal with
    | |- context [Z.testbit ?x ?j] =>
        progress (first [ rewrite (Z.testbit_neg_r x j) by lia
                        | rewrite (bits_beyond x 11 j) by (try assumption; lia) ])
    end.

Section EncoderTheorems.
Context `{Platform}.

(** With the four axes below [2^11], each reads back from its field. *)
Lemma axis_fields_of_packedAxes t :
  0 <= jsFloatToTello (ctrlRx t) < 2 ^ 11 ->
  0 <= jsFloatToTello (ctrlRy t) < 2 ^ 11 ->
  0 <= jsFloatToTello (ctrlLy t) < 2 ^ 11 ->
  0 <= jsFloatToTello (ctrlLx t) < 2 ^ 11 ->
  field 0 11 (packedAxes t) = jsFloatToTello (ctrlRx t) /\
  field 11 11 (packedAxes t) = jsFloatToTello (ctrlRy t) /\
  field 22 11 (packedAxes t) = jsFloatToTello (ctrlLy t) /\
  field 33 11 (packedAxes t) = jsFloatToTello (ctrlLx t).
Proof.
  intros Hrx Hry Hly Hlx.
  pose proof (packedAxes_bits t) as Hbits.
  set (p := packedAxes t) in *. clearbody p.
  set (a := jsFloatToTello (ctrlRx t)) in *.
  set (b := jsFloatToTello (ctrlRy t)) in *.
  set (c := jsFloatToTello (ctrlLy t)) in *.
  set (d := jsFloatToTello (ctrlLx t)) in *.
  set (e := if (throttleDeadband <? ctrlThrottle t)%float
            then 2047 else jsFloatToTello (ctrlThrottle t)) in *.
  clearbody a b c d e.
  repeat split; apply Z.bits_inj'; intros i Hi;
    rewrite testbit_field, Hbits by lia;
    (destruct (Z.leb_spec 0 i); [| lia]);
    (destruct (Z.ltb_spec i 11) as [Hi11 | Hi11]; cbn [andb]);
    try (destruct (Z.ltb_spec (i + 0) 64); [| lia]);
    try (destruct (Z.ltb_spec (i + 11) 64); [| lia]);
    try (destruct (Z.ltb_spec (i + 22) 64); [| lia]);
    try (destruct (Z.ltb_spec (i + 33) 64); [| lia]);
    cbn [andb orb].
  all: try (symmetry; apply (bits_beyond _ 11); [assumption | lia]).
  all: rewrite ?Z.add_0_r; replace (i + 11 - 11) with i by lia;
    replace (i + 22 - 22) with i by lia; replace (i + 33 - 33) with i by lia;
    drop_bits; cbn [orb]; rewrite ?orb_false_r; reflexivity.
Qed.

(** With all five values below [2^11], the throttle value reads back from
    bits 44-54. *)
Lemma throttle_field_of_packedAxes t :
  0 <= jsFloatToTello (ctrlRx t) < 2 ^ 11 ->
  0 <= jsFloatToTello (ctrlRy t) < 2 ^ 11 ->
  0 <= jsFloatToTello (ctrlLy t) < 2 ^ 11 ->
  0 <= jsFloatToTello (ctrlLx t) < 2 ^ 11 ->
  0 <= throttleBits t < 2 ^ 11 ->
  field 44 11 (packedAxes t) = throttleBits t.
Proof.
  intros Hrx Hry Hly Hlx Hth.
  unfold throttleBits in *.
  pose proof (packedAxes_bits t) as Hbits.
  set (p := packedAxes t) in *. clearbody p.
  set (a := jsFloatToTello (ctrlRx t)) in *.
  set (b := jsFloatToTello (ctrlRy t)) in *.
  set (c := jsFloatToTello (ctrlLy t)) in *.
  set (d := jsFloatToTello (ctrlLx t)) in *.
  set (e := if (throttleDeadband <? ctrlThrottle t)%float
            then 2047 else jsFloatToTello (ctrlThrottle t)) in *.
  clearbody a b c d e.
  apply Z.bits_inj'. intros i Hi.
  rewrite testbit_field, Hbits by lia.
  destruct (Z.leb_spec 0 i); [| lia].
  destruct (Z.ltb_spec i 11) as [Hi11 | Hi11]; cbn [andb].
  - destruct (Z.ltb_spec (i + 44) 64); [| lia].
    replace (i + 44 - 44) with i by lia.
    drop_bits. reflexivity.
  - symmetry. apply (bits_beyond _ 11); [assumption | lia].
Qed.
End EncoderTheorems.

Section EncoderClaims.
Context `{Platform}.

Lemma axesInRange_fits t :
  axesInRange t = true ->
  364 <= jsFloatToTello (ctrlRx t) <= 1684 /\
  364 <= jsFloatToTello (ctrlRy t) <= 1684 /\
  364 <= jsFloatToTello (ctrlLx t) <= 1684 /\
  364 <= jsFloatToTello (ctrlLy t) <= 1684.
Proof.
  unfold axesInRange. intros Hr.
  do 3 (apply andb_prop in Hr as [Hr ?]).
  repeat split;
    match goal with |- context [jsFloatToTello ?v] =>
      destruct (jsFloatToTello_inUnit v) as (? & ? & _ & _ & _ & ?); [assumption | lia]
    end.
Qed.

Lemma inRange_fits t :
  inRange t = true ->
  364 <= jsFloatToTello (ctrlRx t) <= 1684 /\
  364 <= jsFloatToTello (ctrlRy t) <= 1684 /\
  364 <= jsFloatToTello (ctrlLx t) <= 1684 /\
  364 <= jsFloatToTello (ctrlLy t) <= 1684 /\
  364 <= jsFloatToTello (ctrlThrottle t) <= 1684.
Proof.
  unfold inRange, axesInRange. intros Hr.
  do 4 (apply andb_prop in Hr as [Hr ?]).
  repeat split;
    match goal with |- context [jsFloatToTello ?v] =>
      destruct (jsFloatToTello_inUnit v) as (? & ? & _ & _ & _ & ?); [assumption | lia]
    end.
Qed.

Lemma throttleBits_range t :
  0 <= jsFloatToTello (ctrlThrottle t) < 2 ^ 11 -> 0 <= throttleBits t < 2 ^ 11.
Proof.
  unfold throttleBits. destruct (throttleDeadband <? ctrlThrottle t)%float; [| auto].
  intros _. split; [lia | reflexivity].
Qed.

Lemma exactValue_nonneg_finite f m e :
  Prim2SF f = S754_finite false m e -> e <= 0 ->
  exactValue f = Some (Z.pos m, - e).
Proof.
  intros Hf He. unfold exactValue. rewrite Hf.
  destruct (Z.leb_spec 0 e) as [H0 | H0]; [| reflexivity].
  replace e with 0 by lia. reflexivity.
Qed.

Lemma jsFloatToTello_zero : jsFloatToTello 0 = 1024.
Proof. reflexivity. Qed.

(** C5 (amended).  For every axis value in [-1.0, 1.0] the encoder yields the
    integer part (the fraction is discarded, not rounded) of the float64
    value of 660 * value + 1024, which lies in [364, 1684] and so fits 11
    bits.  The value 0 maps to 1024; with all sticks centred each of the five
    fields holds 1024; and the packed word and payload bytes 0-5 depend on
    the stick state only, so repeated encodings of a state are identical. *)
Theorem axis_mapping_truncates :
  (forall v, inUnit v = true ->
     exists num den,
       exactValue (660 * v + 1024)%float = Some (num, den) /\
       jsFloatToTello v = num / 2 ^ den /\
       364 <= jsFloatToTello v <= 1684 /\ jsFloatToTello v < 2 ^ 11) /\
  jsFloatToTello 0 = 1024 /\
  (forall t, sameSticks t centred ->
     field 0 11 (packedAxes t) = 1024 /\ field 11 11 (packedAxes t) = 1024 /\
     field 22 11 (packedAxes t) = 1024 /\ field 33 11 (packedAxes t) = 1024 /\
     field 44 11 (packedAxes t) = 1024) /\
  (forall t1 t2 now1 now2, sameSticks t1 t2 ->
     packedAxes t1 = packedAxes t2 /\
     firstn 6 (stickPayload t1 now1) = firstn 6 (stickPayload t2 now2)).
Proof.
  split; [| split; [| split]].
  - intros v Hu.
    destruct (jsFloatToTello_inUnit v Hu) as (m & e & Hsum & He & Hjs & Hr).
    exists (Z.pos m), (- e).
    split; [now apply exactValue_nonneg_finite |].
    split; [exact Hjs |]. split; [exact Hr |].
    assert (1684 < 2 ^ 11) by reflexivity. lia.
  - apply jsFloatToTello_zero.
  - intros t (Hrx & Hry & Hlx & Hly & Hth).
    cbn in Hrx, Hry, Hlx, Hly, Hth.
    assert (Hp : packedAxes t = packedAxes centred).
    { unfold packedAxes. rewrite Hrx, Hry, Hlx, Hly, Hth. reflexivity. }
    rewrite Hp. repeat split; reflexivity.
  - intros t1 t2 now1 now2 (Hrx & Hry & Hlx & Hly & Hth).
    assert (Hp : packedAxes t1 = packedAxes t2).
    { unfold packedAxes. rewrite Hrx, Hry, Hlx, Hly, Hth. reflexivity. }
    split; [exact Hp |]. unfold stickPayload. cbn [firstn]. now rewrite Hp.
Qed.

Lemma payload_low_bytes t now : firstn 6 (stickPayload t now) = le_bytes 6 (packedAxes t).
Proof.
  unfold stickPayload. cbn [firstn le_bytes].
  rewrite !Z.shiftr_shiftr by lia. reflexivity.
Qed.

Lemma field_narrow pos w1 w2 x :
  0 <= pos -> 0 <= w1 <= w2 -> field pos w1 x = wrap w1 (field pos w2 x).
Proof.
  intros Hp Hw. apply Z.bits_inj'. intros i Hi.
  rewrite testbit_wrap, !testbit_field by lia.
  destruct (Z.leb_spec 0 i); [| lia].
  destruct (Z.ltb_spec i w1); destruct (Z.ltb_spec i w2); cbn [andb];
    try reflexivity; lia.
Qed.

Lemma le_value_app bs1 bs2 :
  le_value (bs1 ++ bs2) =
    le_value bs1 + 2 ^ (8 * Z.of_nat (List.length bs1)) * le_value bs2.
Proof.
  induction bs1 as [| b bs1 IH].
  - cbn [app le_value List.length]. change (2 ^ (8 * Z.of_nat 0)) with 1. lia.
  - cbn [app le_value List.length]. rewrite IH.
    replace (8 * Z.of_nat (S (List.length bs1)))
      with (8 + 8 * Z.of_nat (List.length bs1)) by lia.
    rewrite Z.pow_add_r by lia. change (2 ^ 8) with 256. ring.
Qed.

(** The payload as one little-endian number: the low 48 bits of the packed
    word, and the time bytes above them. *)
Lemma payload_value t now :
  le_value (stickPayload t now) =
    packedAxes t mod 2 ^ 48 + le_value (skipn 6 (stickPayload t now)) * 2 ^ 48.
Proof.
  rewrite <- (firstn_skipn 6 (stickPayload t now)) at 1.
  rewrite le_value_app.
  change (List.length (firstn 6 (stickPayload t now))) with 6%nat.
  rewrite payload_low_bytes, le_value_le_bytes.
  change (8 * Z.of_nat 6) with 48. ring.
Qed.

Lemma payload_low_bits t now j :
  0 <= j < 48 ->
  Z.testbit (le_value (stickPayload t now)) j = Z.testbit (packedAxes t) j.
Proof.
  intros Hj.
  rewrite <- (Z.mod_pow2_bits_low (le_value (stickPayload t now)) 48 j) by lia.
  rewrite payload_value, Z.mod_add, Z.mod_mod by (apply Z.pow_nonzero; lia).
  apply Z.mod_pow2_bits_low. lia.
Qed.

Lemma payload_hour_bits t now k :
  0 <= k < 8 ->
  Z.testbit (le_value (stickPayload t now)) (k + 48) = Z.testbit (byte_of (Hour now)) k.
Proof.
  intros Hk.
  rewrite <- Z.div_pow2_bits by lia.
  rewrite payload_value, Z.div_add by (apply Z.pow_nonzero; lia).
  rewrite Z.div_small by (apply Z.mod_pos_bound; reflexivity).
  cbn [stickPayload skipn le_value Z.add].
  set (h := byte_of (Hour now)).
  match goal with |- Z.testbit (h + 256 * ?r) k = _ => set (R := r) end.
  rewrite <- (Z.mod_pow2_bits_low (h + 256 * R) 8 k) by lia.
  change (2 ^ 8) with 256. rewrite (Z.mul_comm 256 R), Z.mod_add by lia.
  rewrite Z.mod_small by (apply (wrap_range 8); lia). reflexivity.
Qed.

(** C4 (amended).  For every stick state whose throttle exceeds 0.1, bits
    44-54 of the packed word are 0x7FF, whatever the other axes hold; for
    every state with throttle <= 0.1 whose four axes and throttle lie in
    [-1.0, 1.0], they are the value the axis mapping gives for the throttle.
    The payload holds bits 0-47 of the packed word only: read as one
    little-endian number, its bits 44-47 are the four low bits of that field
    (0xF above the deadband, the mapped throttle modulo 16 below it) and its
    bits 48-54 are the seven low bits of the hour byte. *)
Theorem throttle_field_value (t : Tello) (now : Clock) :
  ((throttleDeadband <? ctrlThrottle t)%float = true ->
   field 44 11 (packedAxes t) = 0x7ff /\
   field 44 4 (le_value (stickPayload t now)) = 0xf) /\
  ((ctrlThrottle t <=? throttleDeadband)%float = true -> inRange t = true ->
   field 44 11 (packedAxes t) = jsFloatToTello (ctrlThrottle t) /\
   field 44 4 (le_value (stickPayload t now)) = jsFloatToTello (ctrlThrottle t) mod 2 ^ 4) /\
  field 44 4 (le_value (stickPayload t now)) = field 44 11 (packedAxes t) mod 2 ^ 4 /\
  field 48 7 (le_value (stickPayload t now)) = byte_of (Hour now) mod 2 ^ 7.
Proof.
  assert (Hcut : field 44 4 (le_value (stickPayload t now))
                 = field 44 11 (packedAxes t) mod 2 ^ 4).
  { change (field 44 11 (packedAxes t) mod 2 ^ 4)
      with (wrap 4 (field 44 11 (packedAxes t))).
    rewrite <- (field_narrow 44 4 11) by lia.
    apply Z.bits_inj'. intros i Hi. rewrite !testbit_field by lia.
    destruct (Z.ltb_spec i 4); [| now rewrite !andb_false_r].
    rewrite payload_low_bits by lia. reflexivity. }
  assert (Hsat : (throttleDeadband <? ctrlThrottle t)%float = true ->
                 field 44 11 (packedAxes t) = 0x7ff).
  { intros Hgt. apply Z.bits_inj'. intros i Hi.
    rewrite testbit_field, packedAxes_bits by lia. rewrite Hgt.
    change 2047 with (Z.ones 11).
    replace (i + 44 - 44) with i by lia.
    rewrite !Z.testbit_ones_nonneg by lia.
    destruct (Z.leb_spec 0 i); [| lia].
    destruct (Z.ltb_spec i 11); cbn [andb]; [| reflexivity].
    destruct (Z.ltb_spec (i + 44) 64); [| lia].
    cbn [andb]. now rewrite !orb_true_r. }
  assert (Hmap : (ctrlThrottle t <=? throttleDeadband)%float = true -> inRange t = true ->
                 field 44 11 (packedAxes t) = jsFloatToTello (ctrlThrottle t)).
  { intros Hle Hr.
    destruct (inRange_fits t Hr) as (Hrx & Hry & Hlx & Hly & Hth).
    assert (H11 : 1684 < 2 ^ 11) by reflexivity.
    rewrite throttle_field_of_packedAxes; try lia.
    2: { apply throttleBits_range. lia. }
    unfold throttleBits. now rewrite (leb_not_ltb _ _ Hle). }
  split; [| split; [| split]].
  - intros Hgt. split; [now apply Hsat |]. rewrite Hcut, (Hsat Hgt). reflexivity.
  - intros Hle Hr. split; [now apply Hmap |]. rewrite Hcut, (Hmap Hle Hr). reflexivity.
  - exact Hcut.
  - change (byte_of (Hour now) mod 2 ^ 7) with (wrap 7 (byte_of (Hour now))).
    apply Z.bits_inj'. intros i Hi. rewrite testbit_field, testbit_wrap by lia.
    destruct (Z.leb_spec 0 i); [| lia]. cbn [andb].
    destruct (Z.ltb_spec i 7); cbn [andb]; [| reflexivity].
    apply payload_hour_bits. lia.
Qed.

(** C6.  For every stick state the packed word is the bitwise OR of the
    mapped Rx at bit 0, Ry at bit 11, Ly at bit 22, Lx at bit 33 and the
    throttle value at bit 44; for sticks in [-1.0, 1.0] the four 11-bit
    fields read back the mapped axes.  The payload has 11 bytes, of which
    bytes 0-5 are the low 48 bits of the packed word, least significant byte
    first. *)
Theorem stick_packing_layout (t : Tello) (now : Clock) :
  (forall i,
     Z.testbit (packedAxes t) i =
       Z.testbit (jsFloatToTello (ctrlRx t)) i
       || (i <? 64) &&
          (Z.testbit (jsFloatToTello (ctrlRy t)) (i - 11)
           || Z.testbit (jsFloatToTello (ctrlLy t)) (i - 22)
           || Z.testbit (jsFloatToTello (ctrlLx t)) (i - 33)
           || Z.testbit (throttleBits t) (i - 44))) /\
  (axesInRange t = true ->
     field 0 11 (packedAxes t) = jsFloatToTello (ctrlRx t) /\
     field 11 11 (packedAxes t) = jsFloatToTello (ctrlRy t) /\
     field 22 11 (packedAxes t) = jsFloatToTello (ctrlLy t) /\
     field 33 11 (packedAxes t) = jsFloatToTello (ctrlLx t)) /\
  List.length (stickPayload t now) = 11%nat /\
  firstn 6 (stickPayload t now) = le_bytes 6 (packedAxes t) /\
  le_value (firstn 6 (stickPayload t now)) = packedAxes t mod 2 ^ 48.
Proof.
  split; [apply packedAxes_bits |].
  split.
  - intros Hr.
    destruct (axesInRange_fits t Hr) as (Hrx & Hry & Hlx & Hly).
    assert (H11 : 1684 < 2 ^ 11) by reflexivity.
    apply axis_fields_of_packedAxes; lia.
  - split; [reflexivity |]. split; [apply payload_low_bytes |].
    rewrite payload_low_bytes. exact (le_value_le_bytes 6 (packedAxes t)).
Qed.
End EncoderClaims.

(** C4 on two stick positions: a throttle of 0.75 saturates the field of the
    packed word and puts 0xF in bits 44-47 of the payload; a throttle of
    0.0625 is mapped like an axis, to 1065, of which 9 reaches the payload. *)
Lemma throttle_field_value_witness :
  (field 44 11 (@packedAxes examplePlatform climbing) = 0x7ff /\
   field 44 4 (le_value (@stickPayload examplePlatform climbing exampleClock)) = 0xf) /\
  (field 44 11 (@packedAxes examplePlatform cruising)
     = @jsFloatToTello examplePlatform (ctrlThrottle cruising) /\
   field 44 4 (le_value (@stickPayload examplePlatform cruising exampleClock))
     = @jsFloatToTello examplePlatform (ctrlThrottle cruising) mod 2 ^ 4).
Proof.
  split.
  - apply (proj1 (@throttle_field_value examplePlatform climbing exampleClock)).
    reflexivity.
  - apply (proj1 (proj2 (@throttle_field_value examplePlatform cruising exampleClock)));
      reflexivity.
Defined.

(** The claim of C4 as stated, on sticks within [-1.0, 1.0] with a throttle
    of 0.75 at 12:34:56: the field of the packed word is 0x7FF, but bits
    44-54 decoded from the payload read 207 (0xF from the throttle, 12 from
    the hour byte), and 15 when only payload bytes 0-5 are decoded. *)
Lemma throttle_field_cut_in_payload :
  inRange climbing = true /\
  (throttleDeadband <? ctrlThrottle climbing)%float = true /\
  (forall P : Platform,
     field 44 11 (@packedAxes P climbing) = 0x7ff /\
     field 44 11 (le_value (@stickPayload P climbing exampleClock)) = 207 /\
     field 44 11 (le_value (firstn 6 (@stickPayload P climbing exampleClock))) = 15).
Proof.
  split; [reflexivity |]. split; [reflexivity |].
  intros P. repeat split; vm_compute; reflexivity.
Defined.

(** Outside the documented range the fields overlap: with the left stick at
    Lx = 2.0 and the throttle at 0, bit 11 of the mapped Lx (2344) lands on
    bit 44, and the throttle field of the packed word reads 1025 where the
    mapping of the throttle is 1024. *)
Lemma throttle_field_overdriven :
  (ctrlThrottle overdriven <=? throttleDeadband)%float = true /\
  inUnit (ctrlLx overdriven) = false /\
  (forall P : Platform,
     @jsFloatToTello P (ctrlLx overdriven) = 2344 /\
     @jsFloatToTello P (ctrlThrottle overdriven) = 1024 /\
     field 44 11 (@packedAxes P overdriven) = 1025).
Proof.
  split; [reflexivity |]. split; [reflexivity |].
  intros P. repeat split; vm_compute; reflexivity.
Defined.

(** C5 at the axis value 0.4375: 660 * 0.4375 + 1024 = 1312.75 maps to 1312. *)
Lemma axis_mapping_truncates_witness :
  exists num den,
    exactValue (660 * 0.4375 + 1024)%float = Some (num, den) /\
    @jsFloatToTello examplePlatform 0.4375 = num / 2 ^ den /\
    364 <= @jsFloatToTello examplePlatform 0.4375 <= 1684 /\
    @jsFloatToTello examplePlatform 0.4375 < 2 ^ 11.
Proof.
  apply (proj1 (@axis_mapping_truncates examplePlatform)). reflexivity.
Defined.

(** The claim of C5 as stated: rounding 1312.75 gives 1313, the code yields
    1312. *)
Lemma axis_mapping_not_rounded :
  inUnit 0.4375 = true /\
  specAxisMap 0.4375 = Some 1313 /\
  (forall P : Platform, @jsFloatToTello P 0.4375 = 1312).
Proof.
  split; [reflexivity |]. split; [vm_compute; reflexivity |].
  intros P. vm_compute. reflexivity.
Defined.

(** C6 on the sticks (Rx, Ry, Lx, Ly) = (0.5, -0.25, 1, -1). *)
Lemma stick_packing_layout_witness :
  field 0 11 (@packedAxes examplePlatform cruising) = 1354 /\
  field 11 11 (@packedAxes examplePlatform cruising) = 859 /\
  field 22 11 (@packedAxes examplePlatform cruising) = 364 /\
  field 33 11 (@packedAxes examplePlatform cruising) = 1684 /\
  le_value (firstn 6 (@stickPayload examplePlatform cruising exampleClock))
    = @packedAxes examplePlatform cruising mod 2 ^ 48.
Proof.
  destruct (@stick_packing_layout examplePlatform cruising exampleClock)
    as (_ & Hfields & _ & _ & Hle).
  destruct (Hfields eq_refl) as (Hrx & Hry & Hly & Hlx).
  rewrite Hrx, Hry, Hly, Hlx.
  do 4 (split; [reflexivity |]). exact Hle.
Defined.

(** ** Traces, byte strings and reads *)

Lemma writesOf_app tr1 tr2 : writesOf (tr1 ++ tr2) = writesOf tr1 ++ writesOf tr2.
Proof.
  induction tr1 as [| e tr1 IH]; [reflexivity |].
  destruct e; cbn; rewrite ?IH; reflexivity.
Qed.

Lemma writesOf_log tr l : writesOf (tr ++ [EvLog l]) = writesOf tr.
Proof. rewrite writesOf_app. cbn. apply app_nil_r. Qed.

Lemma HasPrefix_head b c s : HasPrefix b (c :: s) = true -> exists b', b = c :: b'.
Proof.
  destruct b as [| x b']; cbn; [discriminate |].
  intros Hp. apply andb_prop in Hp as [Hx _]. apply Z.eqb_eq in Hx. subst. eauto.
Qed.

Lemma Contains_In b c s : Contains b (c :: s) = true -> In c b.
Proof.
  induction b as [| x b IH]; intros Hc.
  - cbn in Hc. discriminate.
  - change (HasPrefix (x :: b) (c :: s) || Contains b (c :: s) = true) in Hc.
    apply orb_prop in Hc as [Hp | Hr].
    + apply HasPrefix_head in Hp as [b' E]. injection E as -> _. now left.
    + right. auto.
Qed.

Lemma ContainsAny_In b chars c :
  In c b -> In c (bytesOf chars) -> ContainsAny b chars = true.
Proof.
  intros Hb Hc. unfold ContainsAny. apply existsb_exists. exists c. split; [exact Hb |].
  apply existsb_exists. exists c. split; [exact Hc | apply Z.eqb_refl].
Qed.

Lemma Contains_marker_ContainsAny d rest :
  Contains d (bytesOf connAckChars) = true ->
  ContainsAny (d ++ rest) connAckChars = true.
Proof.
  intros Hc. apply Contains_In in Hc.
  apply ContainsAny_In with (c := 99); [apply in_or_app; now left | now left].
Qed.

Lemma readInto_fits buff d :
  (List.length d <= List.length buff)%nat ->
  readInto buff d = (Z.of_nat (List.length d), d ++ skipn (List.length d) buff).
Proof.
  intros Hl. unfold readInto. now rewrite firstn_all2 by exact Hl.
Qed.

Lemma readInto_length buff d :
  fst (readInto buff d) = Z.of_nat (Nat.min (List.length buff) (List.length d)).
Proof. unfold readInto. cbn. now rewrite length_firstn. Qed.

Lemma sleepsOf_app tr1 tr2 : sleepsOf (tr1 ++ tr2) = sleepsOf tr1 ++ sleepsOf tr2.
Proof.
  induction tr1 as [| e tr1 IH]; [reflexivity |].
  destruct e; cbn; rewrite ?IH; reflexivity.
Qed.

Lemma closesOf_app tr1 tr2 : closesOf (tr1 ++ tr2) = closesOf tr1 ++ closesOf tr2.
Proof.
  induction tr1 as [| e tr1 IH]; [reflexivity |].
  destruct e; cbn; rewrite ?IH; reflexivity.
Qed.

(** ** The response listener *)

(** ** Traces that grow by log lines only *)

Lemma writesOf_logs tr ls : writesOf (tr ++ map EvLog ls) = writesOf tr.
Proof.
  rewrite writesOf_app. induction ls as [| l ls IH]; cbn; [apply app_nil_r | exact IH].
Qed.

Lemma closesOf_logs tr ls : closesOf (tr ++ map EvLog ls) = closesOf tr.
Proof.
  rewrite closesOf_app. induction ls as [| l ls IH]; cbn; [apply app_nil_r | exact IH].
Qed.

Lemma sleepsOf_logs tr ls : sleepsOf (tr ++ map EvLog ls) = sleepsOf tr.
Proof.
  rewrite sleepsOf_app. induction ls as [| l ls IH]; cbn; [apply app_nil_r | exact IH].
Qed.

Lemma goroutinesOf_app tr1 tr2 :
  goroutinesOf (tr1 ++ tr2) = goroutinesOf tr1 ++ goroutinesOf tr2.
Proof.
  induction tr1 as [| e tr1 IH]; [reflexivity |].
  destruct e; cbn; rewrite ?IH; reflexivity.
Qed.

Lemma goroutinesOf_logs tr ls : goroutinesOf (tr ++ map EvLog ls) = goroutinesOf tr.
Proof.
  rewrite goroutinesOf_app. induction ls as [| l ls IH]; cbn; [apply app_nil_r | exact IH].
Qed.

Lemma logsOf_app tr1 tr2 : logsOf (tr1 ++ tr2) = logsOf tr1 ++ logsOf tr2.
Proof.
  induction tr1 as [| e tr1 IH]; [reflexivity |].
  destruct e; cbn; rewrite ?IH; reflexivity.
Qed.

Section DispatchProperties.
Context `{Protocol}.

Lemma switch_cases :
  switchCasesDistinct ->
  msgLightStrength <> msgFlightStatus /\
  msgLogHeader <> msgFlightStatus /\ msgLogHeader <> msgLightStrength /\
  msgWifiStrength <> msgFlightStatus /\ msgWifiStrength <> msgLightStrength /\
  msgWifiStrength <> msgLogHeader.
Proof.
  unfold switchCasesDistinct. intros Hd.
  inversion Hd as [| a l Ha Hd1]; subst.
  inversion Hd1 as [| b l' Hb Hd2]; subst.
  inversion Hd2 as [| c l'' Hc Hd3]; subst.
  cbn in Ha, Hb, Hc.
  repeat split; intros E; rewrite E in *; tauto.
Qed.

(** C8.  Dispatch of a decoded packet touches the telemetry fields of its
    message ID only: a wifi-strength packet sets WifiStrength and
    WifiInterference from payload bytes 0 and 1 and keeps LightStrength; a
    light-strength packet sets LightStrength from payload byte 0 and keeps
    the wifi fields; a flight-status packet changes nothing at all; every
    other packet (log header, unknown ID) leaves the whole struct as it was. *)
Theorem dispatch_touches_own_fields (pkt : packet) (w : World) :
  switchCasesDistinct ->
  (forall p0 p1 rest,
      messageID pkt = msgWifiStrength -> payload pkt = p0 :: p1 :: rest ->
      dispatch pkt w =
        Ret tt (mkWorld
                  (set_fd (mkFlightData (LightStrength (fd (tello w))) p0 p1) (tello w))
                  (trace w ++ [EvLog (LogParsedWifi p0 p1)])
                  (listener w))) /\
  (forall p0 rest,
      messageID pkt = msgLightStrength -> payload pkt = p0 :: rest ->
      dispatch pkt w =
        Ret tt (mkWorld
                  (set_fd (mkFlightData p0 (WifiStrength (fd (tello w)))
                             (WifiInterference (fd (tello w)))) (tello w))
                  (trace w) (listener w))) /\
  (messageID pkt = msgFlightStatus -> dispatch pkt w = Ret tt w) /\
  (messageID pkt <> msgWifiStrength -> messageID pkt <> msgLightStrength ->
   exists w', dispatch pkt w = Ret tt w' /\
              tello w' = tello w /\ listener w' = listener w).
Proof.
  intros Hd. destruct (switch_cases Hd) as (H1 & H2 & H3 & H4 & H5 & H6).
  unfold dispatch.
  repeat split.
  - intros p0 p1 rest Hid Hp. rewrite Hid, Hp.
    rewrite (proj2 (Z.eqb_neq _ _) H4), (proj2 (Z.eqb_neq _ _) H5),
      (proj2 (Z.eqb_neq _ _) H6), Z.eqb_refl.
    run. cbn. destruct w as [t tr l]. cbn. reflexivity.
  - intros p0 rest Hid Hp. rewrite Hid, Hp.
    rewrite (proj2 (Z.eqb_neq _ _) H1), Z.eqb_refl.
    run. cbn. destruct w as [t tr l]. cbn. reflexivity.
  - intros Hid. rewrite Hid, Z.eqb_refl. reflexivity.
  - intros Hw Hl.
    destruct (messageID pkt =? msgFlightStatus).
    { exists w. repeat split. }
    rewrite (proj2 (Z.eqb_neq _ _) Hl), (proj2 (Z.eqb_neq _ _) Hw).
    destruct (messageID pkt =? msgLogHeader); run; eexists; repeat split.
Qed.
End DispatchProperties.

Lemma exampleProtocol_switch : @switchCasesDistinct exampleProtocol.
Proof.
  unfold switchCasesDistinct. cbn.
  repeat constructor; cbn; intros Hin; repeat destruct Hin as [Hin | Hin];
    try discriminate Hin; exact Hin.
Qed.

(** C8 on a wifi-strength packet with payload (90, 7). *)
Lemma dispatch_touches_own_fields_witness :
  @dispatch exampleProtocol (mkPacket 0xcc false 4 0x1a 0 13 [90; 7]) connectedWorld
    = Ret tt (mkWorld (set_fd (mkFlightData 0 90 7) (tello connectedWorld))
                [EvLog (LogParsedWifi 90 7)] (listener connectedWorld)).
Proof.
  apply (proj1 (@dispatch_touches_own_fields exampleProtocol
                  (mkPacket 0xcc false 4 0x1a 0 13 [90; 7]) connectedWorld
                  exampleProtocol_switch) 90 7 []); reflexivity.
Defined.

Section ListenerProperties.
Context `{Protocol}.

Lemma dispatch_frame pkt w :
  let w' := finalWorld (dispatch pkt w) in
  (exists d, tello w' = set_fd d (tello w)) /\
  writesOf (trace w') = writesOf (trace w) /\
  listener w' = listener w.
Proof.
  destruct w as [t tr l]. unfold dispatch.
  assert (Hid : exists d, t = set_fd d t) by (exists (fd t); now destruct t).
  assert (Hset : forall d1, exists d, set_fd d1 t = set_fd d t) by eauto.
  assert (Hset2 : forall d1 d2, exists d, set_fd d2 (set_fd d1 t) = set_fd d t)
    by (intros; eexists; reflexivity).
  destruct (messageID pkt =? msgFlightStatus); [cbn; auto |].
  destruct (messageID pkt =? msgLightStrength).
  { destruct (payload pkt) as [| p0 rest]; run; cbn; auto. }
  destruct (messageID pkt =? msgLogHeader).
  { run; cbn. rewrite writesOf_log. auto. }
  destruct (messageID pkt =? msgWifiStrength).
  { destruct (payload pkt) as [| p0 [| p1 rest]]; run; cbn;
      rewrite ?writesOf_log; auto. }
  run; cbn. rewrite writesOf_log. auto.
Qed.

(** Outside the handshake branch the loop body leaves the phase flags and
    the socket alone. *)
Lemma listenerBody_ordinary n err buff w :
  ctrlConnecting (tello w) && (n =? 11) = false ->
  let w' := finalWorld (listenerBody n err buff w) in
  ctrlConnecting (tello w') = ctrlConnecting (tello w) /\
  ctrlConnected (tello w') = ctrlConnected (tello w) /\
  writesOf (trace w') = writesOf (trace w).
Proof.
  intros Hb. unfold listenerBody. run. rewrite Hb.
  destruct (ctrlStopChan (tello w)) as [[| s rest] |] eqn:Hs.
  2:{ cbn. rewrite writesOf_log. auto. }
  all: destruct err as [e |]; [cbn; rewrite writesOf_log; auto |].
  all: destruct (negb (nth 0 buff 0 =? msgHdr)); [cbn; rewrite writesOf_log; auto |].
  all: destruct (dispatch_frame (bufferToPacket buff) w) as ((d & Ht) & Hw & _);
    cbv zeta in *; rewrite Ht; auto.
Qed.

(** The message switch prints none of the log lines of the handshake branch. *)
Lemma dispatch_logs_ordinary pkt w :
  exists ls,
    trace (finalWorld (dispatch pkt w)) = trace w ++ map EvLog ls /\
    forallb (fun l => negb (isHandshakeLog l)) ls = true.
Proof.
  assert (Hnil : exists ls, trace w = trace w ++ map EvLog ls /\
                            forallb (fun l => negb (isHandshakeLog l)) ls = true).
  { exists []. split; [now rewrite app_nil_r | reflexivity]. }
  unfold dispatch.
  destruct (messageID pkt =? msgFlightStatus); [exact Hnil |].
  destruct (messageID pkt =? msgLightStrength).
  { destruct (payload pkt) as [| p0 rest]; run; cbn; exact Hnil. }
  destruct (messageID pkt =? msgLogHeader).
  { run; cbn. eexists [_]. split; reflexivity. }
  destruct (messageID pkt =? msgWifiStrength).
  { destruct (payload pkt) as [| p0 [| p1 rest]]; run; cbn; try exact Hnil.
    eexists [_]. split; reflexivity. }
  run; cbn. eexists [_]. split; reflexivity.
Qed.

(** Neither does the rest of the loop body outside the handshake branch. *)
Lemma listenerBody_logs_ordinary n err buff w :
  ctrlConnecting (tello w) && (n =? 11) = false ->
  exists ls,
    trace (finalWorld (listenerBody n err buff w)) = trace w ++ map EvLog ls /\
    forallb (fun l => negb (isHandshakeLog l)) ls = true.
Proof.
  intros Hb. unfold listenerBody. run. rewrite Hb.
  destruct (ctrlStopChan (tello w)) as [[| s rest] |] eqn:Hs.
  2:{ cbn. eexists [_]. split; reflexivity. }
  all: destruct err as [e |]; [cbn; eexists [_]; split; reflexivity |].
  all: destruct (negb (nth 0 buff 0 =? msgHdr)); [cbn; eexists [_]; split; reflexivity |].
  all: apply dispatch_logs_ordinary.
Qed.

(** C1 (amended).  While the link is handshaking: an 11-byte datagram whose
    content contains the marker text moves the phase to connected; an 11-byte
    datagram read into a buffer that holds none of the marker's characters is
    logged as an unexpected response and the phase stays handshaking; a
    datagram of any other length, or a failed read, is not treated as a
    handshake response (neither of the two log lines of the handshake branch
    is printed for it) but takes the ordinary path of the loop, which leaves
    the phase handshaking.  In no case is anything written to the socket: the
    connect request is never sent again. *)
Theorem handshake_recognition (w : World) (buff0 : list Z) :
  phase (tello w) = Handshaking ->
  listener w = Some buff0 ->
  List.length buff0 = 4096%nat ->
  (forall d, List.length d = 11%nat ->
     Contains d (bytesOf connAckChars) = true ->
     exists w',
       listenerIter (Received d) w = Ret tt w' /\
       phase (tello w') = Connected /\
       ctrlConnecting (tello w') = false /\ ctrlConnected (tello w') = true /\
       writesOf (trace w') = writesOf (trace w)) /\
  (forall d, List.length d = 11%nat ->
     ContainsAny (d ++ skipn 11 buff0) connAckChars = false ->
     listenerIter (Received d) w =
       Ret tt (mkWorld (tello w)
                 (trace w ++ [EvLog (LogUnexpectedResponse (d ++ skipn 11 buff0))])
                 (Some (d ++ skipn 11 buff0)))) /\
  (forall r,
     match r with Received d => List.length d <> 11%nat | ReadFailed _ => True end ->
     let w' := finalWorld (listenerIter r w) in
     phase (tello w') = Handshaking /\
     writesOf (trace w') = writesOf (trace w) /\
     exists ls, trace w' = trace w ++ map EvLog ls /\
                forallb (fun l => negb (isHandshakeLog l)) ls = true).
Proof.
  intros Hph Hl Hlen.
  assert (Hflags : ctrlConnecting (tello w) = true /\ ctrlConnected (tello w) = false).
  { unfold phase in Hph.
    destruct (ctrlConnected (tello w)), (ctrlConnecting (tello w)); try discriminate; auto. }
  destruct Hflags as [Hcing Hced].
  split; [| split].
  - intros d Hd Hc. unfold listenerIter. rewrite Hl.
    rewrite readInto_fits by lia. rewrite Hd.
    unfold listenerBody. run. cbn [tello]. rewrite Hcing. cbn [andb Z.of_nat Pos.of_succ_nat Pos.succ Z.eqb].
    rewrite (Contains_marker_ContainsAny _ _ Hc).
    eexists. split; [reflexivity |]. cbn. rewrite writesOf_log. auto.
  - intros d Hd Hc. unfold listenerIter. rewrite Hl.
    rewrite readInto_fits by lia. rewrite Hd.
    unfold listenerBody. run. cbn [tello]. rewrite Hcing. cbn [andb Z.of_nat Pos.of_succ_nat Pos.succ Z.eqb].
    rewrite Hc. reflexivity.
  - destruct r as [d | e]; intros Hr; unfold listenerIter; rewrite Hl.
    + destruct (readInto buff0 d) as [n buff] eqn:Hri.
      assert (Hn : n <> 11).
      { pose proof (readInto_length buff0 d) as Hn. rewrite Hri in Hn. cbn in Hn. lia. }
      run.
      match goal with |- context [listenerBody n None buff ?w1] =>
        pose proof (listenerBody_ordinary n None buff w1) as Hb;
        pose proof (listenerBody_logs_ordinary n None buff w1) as Hlogs end.
      cbn [tello trace] in Hb, Hlogs.
      assert (Hbr : ctrlConnecting (tello w) && (n =? 11) = false).
      { rewrite (proj2 (Z.eqb_neq _ _) Hn). apply andb_false_r. }
      destruct (Hb Hbr) as (H1 & H2 & H3).
      cbv zeta. unfold phase. rewrite H1, H2, Hcing, Hced. auto.
    + pose proof (listenerBody_ordinary 0 (Some e) buff0 w) as Hb.
      pose proof (listenerBody_logs_ordinary 0 (Some e) buff0 w) as Hlogs.
      assert (Hbr : ctrlConnecting (tello w) && (0 =? 11) = false)
        by apply andb_false_r.
      destruct (Hb Hbr) as (H1 & H2 & H3).
      cbv zeta. unfold phase. rewrite H1, H2, Hcing, Hced. auto.
Qed.
End ListenerProperties.

Section HandshakeByDesign.
Context `{Protocol}.

(** While handshaking, a datagram of another length is an ordinary packet:
    a flight-status frame is consumed without a log line. *)
Lemma handshake_other_length_silent (w : World) (buff0 d : list Z) :
  phase (tello w) = Handshaking ->
  listener w = Some buff0 ->
  ctrlStopChan (tello w) = Some [] ->
  (List.length d <= List.length buff0)%nat -> List.length d <> 11%nat ->
  nth 0 (d ++ skipn (List.length d) buff0) 0 = msgHdr ->
  messageID (bufferToPacket (d ++ skipn (List.length d) buff0)) = msgFlightStatus ->
  listenerIter (Received d) w =
    Ret tt (mkWorld (tello w) (trace w) (Some (d ++ skipn (List.length d) buff0))).
Proof.
  intros Hph Hl Hstop Hfit Hlen Hhdr Hid.
  unfold listenerIter. rewrite Hl, readInto_fits by exact Hfit.
  unfold listenerBody.
  cbv [bind ret getTello modify emit setListener logPrint]. cbn [tello].
  assert (Hn : (Z.of_nat (List.length d) =? 11) = false) by (apply Z.eqb_neq; lia).
  rewrite Hn, andb_false_r, Hstop, Hhdr, Z.eqb_refl. cbn [negb].
  unfold dispatch. rewrite Hid, Z.eqb_refl. reflexivity.
Qed.

(** The message switch prints no line that calls its input unexpected. *)
Lemma dispatch_never_unexpected pkt w :
  existsb isUnexpectedLog (trace (finalWorld (dispatch pkt w)))
    = existsb isUnexpectedLog (trace w).
Proof.
  unfold dispatch.
  destruct (messageID pkt =? msgFlightStatus); [reflexivity |].
  destruct (messageID pkt =? msgLightStrength).
  { destruct (payload pkt) as [| p0 rest]; reflexivity. }
  destruct (messageID pkt =? msgLogHeader).
  { run; cbn. rewrite existsb_app. cbn. now rewrite orb_false_r. }
  destruct (messageID pkt =? msgWifiStrength).
  { destruct (payload pkt) as [| p0 [| p1 rest]]; run; cbn; try reflexivity.
    rewrite existsb_app. cbn. now rewrite orb_false_r. }
  run; cbn. rewrite existsb_app. cbn. now rewrite orb_false_r.
Qed.

(** While handshaking, a datagram of another length that starts with the
    header marker goes to the message switch, whatever the protocol: no line
    is logged that calls it unexpected. *)
Lemma handshake_other_length_not_unexpected (w : World) (buff0 rest : list Z) :
  phase (tello w) = Handshaking ->
  listener w = Some buff0 ->
  ctrlStopChan (tello w) = Some [] ->
  (S (List.length rest) <= List.length buff0)%nat -> S (List.length rest) <> 11%nat ->
  existsb isUnexpectedLog
    (trace (finalWorld (listenerIter (Received (msgHdr :: rest)) w)))
    = existsb isUnexpectedLog (trace w).
Proof.
  intros Hph Hl Hstop Hfit Hlen.
  unfold listenerIter. rewrite Hl, readInto_fits by exact Hfit.
  unfold listenerBody.
  cbv [bind ret getTello modify emit setListener logPrint]. cbn [tello].
  assert (Hn : (Z.of_nat (List.length (msgHdr :: rest)) =? 11) = false)
    by (apply Z.eqb_neq; cbn [List.length]; lia).
  rewrite Hn, andb_false_r, Hstop. cbn [app nth]. rewrite Z.eqb_refl. cbn [negb].
  rewrite dispatch_never_unexpected. reflexivity.
Qed.
End HandshakeByDesign.

(** C1 on a handshaking link with a fresh buffer: an acknowledgment, eleven
    bytes without any marker character, a 13-byte flight-status frame and a
    failed read. *)
Lemma handshake_recognition_witness :
  (exists w',
     @listenerIter exampleProtocol (Received (bytesOf "conn_ack:" ++ [150; 23]))
       handshakingWorld = Ret tt w' /\
     phase (tello w') = Connected /\
     ctrlConnecting (tello w') = false /\ ctrlConnected (tello w') = true /\
     writesOf (trace w') = writesOf (trace handshakingWorld)) /\
  @listenerIter exampleProtocol (Received (bytesOf "HELLO WORLD")) handshakingWorld
    = Ret tt (mkWorld (tello handshakingWorld)
                (trace handshakingWorld ++
                   [EvLog (LogUnexpectedResponse
                             (bytesOf "HELLO WORLD" ++ skipn 11 (repeat 0 4096)))])
                (Some (bytesOf "HELLO WORLD" ++ skipn 11 (repeat 0 4096)))) /\
  (let w' := finalWorld (@listenerIter exampleProtocol (Received statusFrame)
                           handshakingWorld) in
   phase (tello w') = Handshaking /\
   writesOf (trace w') = writesOf (trace handshakingWorld)) /\
  (let w' := finalWorld (@listenerIter exampleProtocol (ReadFailed "i/o timeout"%string)
                           handshakingWorld) in
   phase (tello w') = Handshaking /\
   writesOf (trace w') = writesOf (trace handshakingWorld)).
Proof.
  destruct (@handshake_recognition exampleProtocol handshakingWorld (repeat 0 4096)
              eq_refl eq_refl (repeat_length 0 4096)) as (Hack & Hodd & Hother).
  split; [apply Hack; reflexivity |].
  split; [apply Hodd; [reflexivity | vm_compute; reflexivity] |].
  split.
  - destruct (Hother (Received statusFrame)) as (Hph & Hwr & _);
      [cbn; discriminate | split; [exact Hph | exact Hwr]].
  - destruct (Hother (ReadFailed "i/o timeout"%string) I) as (Hph & Hwr & _).
    split; [exact Hph | exact Hwr].
Defined.

(** The claim of C1 as stated, on a datagram of another length: the 13-byte
    flight-status frame is neither an acknowledgment nor logged as
    unexpected; it is consumed as an ordinary packet and nothing is logged.
    For every protocol, a datagram of two bytes that starts with the header
    marker goes to the message switch and no line calls it unexpected. *)
Lemma handshake_ignores_other_lengths :
  phase (tello handshakingWorld) = Handshaking /\
  List.length statusFrame = 13%nat /\
  trace handshakingWorld = [] /\
  @listenerIter exampleProtocol (Received statusFrame) handshakingWorld
    = Ret tt (mkWorld (tello handshakingWorld) []
                (Some (statusFrame ++ skipn 13 (repeat 0 4096)))) /\
  (forall P : Protocol,
     existsb isUnexpectedLog
       (trace (finalWorld (@listenerIter P (Received [@msgHdr P; 0]) handshakingWorld)))
     = false).
Proof.
  split; [reflexivity |]. split; [reflexivity |]. split; [reflexivity |].
  split.
  - apply (@handshake_other_length_silent exampleProtocol handshakingWorld
             (repeat 0 4096) statusFrame); try reflexivity.
    + apply Nat.leb_le. reflexivity.
    + discriminate.
  - intros P.
    apply (@handshake_other_length_not_unexpected P handshakingWorld (repeat 0 4096) [0]);
      try reflexivity.
    + apply Nat.leb_le. reflexivity.
    + discriminate.
Defined.

(** Left out of the amended claim, the test made on the eleven bytes: the
    bytes "hello world" do not contain the marker text, yet the link becomes
    connected and nothing is logged as unexpected (the letter o is one of
    the marker's characters). *)
Lemma handshake_accepts_any_marker_character :
  List.length (bytesOf "hello world") = 11%nat /\
  Contains (bytesOf "hello world") (bytesOf connAckChars) = false /\
  phase (tello handshakingWorld) = Handshaking /\
  (forall P : Protocol,
     exists w',
       @listenerIter P (Received (bytesOf "hello world")) handshakingWorld = Ret tt w' /\
       phase (tello w') = Connected /\
       existsb isUnexpectedLog (trace w') = false).
Proof.
  split; [reflexivity |]. split; [reflexivity |]. split; [reflexivity |].
  intros P. eexists. split; [vm_compute; reflexivity |]. split; reflexivity.
Defined.

(** ** Connecting *)

Lemma ContainsAny_app b1 b2 chars :
  ContainsAny (b1 ++ b2) chars = ContainsAny b1 chars || ContainsAny b2 chars.
Proof. unfold ContainsAny. apply existsb_app. Qed.

Lemma ContainsAny_skipn n b chars :
  ContainsAny b chars = false -> ContainsAny (skipn n b) chars = false.
Proof.
  intros Hb. rewrite <- (firstn_skipn n b), ContainsAny_app in Hb.
  now apply orb_false_elim in Hb.
Qed.

Lemma ContainsAny_zeros n chars :
  existsb (Z.eqb 0) (bytesOf chars) = false -> ContainsAny (repeat 0 n) chars = false.
Proof.
  intros Hz. induction n as [| n IH]; [reflexivity |].
  cbn [repeat]. unfold ContainsAny in *. cbn [existsb]. now rewrite Hz, IH.
Qed.

Lemma idled_refl w : idled 0 w w.
Proof. unfold idled. cbn. rewrite app_nil_r. auto. Qed.

Lemma idled_trans n m w1 w2 w3 : idled n w1 w2 -> idled m w2 w3 -> idled (n + m) w1 w3.
Proof.
  unfold idled. intros (A1 & A2 & A3 & A4) (B1 & B2 & B3 & B4).
  repeat split; try congruence.
  rewrite B4, A4, <- app_assoc, repeat_app. reflexivity.
Qed.

Section TimeoutProperties.
Context `{Protocol} `{Net}.

Lemma listenerIter_quiet c r w :
  waiting c w -> quiet r ->
  exists w', listenerIter r w = Ret tt w' /\ waiting c w' /\ idled 0 w w'.
Proof.
  intros (Hcing & Hced & Hstop & Hconn & buff & Hl & Hlen & Hno) Hq.
  unfold listenerIter. rewrite Hl.
  destruct r as [d | e].
  - destruct Hq as [Hd Hdno].
    rewrite readInto_fits by lia. rewrite Hd.
    unfold listenerBody. run. cbn [tello]. rewrite Hcing.
    cbn [andb Z.of_nat Pos.of_succ_nat Pos.succ Z.eqb].
    assert (Hno' : ContainsAny (d ++ skipn 11 buff) connAckChars = false).
    { rewrite ContainsAny_app, Hdno. now apply ContainsAny_skipn. }
    assert (Hlen' : List.length (d ++ skipn 11 buff) = 4096%nat).
    { rewrite length_app, length_skipn, Hd, Hlen. reflexivity. }
    rewrite Hno'. eexists. split; [reflexivity |].
    split.
    + unfold waiting. cbn [tello listener]. repeat split; auto.
      eexists. split; [reflexivity |]. split; [exact Hlen' | exact Hno'].
    + unfold idled. cbn. rewrite writesOf_app, closesOf_app, sleepsOf_app. cbn.
      rewrite !app_nil_r. auto.
  - unfold listenerBody. run. rewrite Hcing, Hstop. cbn.
    eexists. split; [reflexivity |].
    split.
    + unfold waiting. cbn. repeat split; eauto.
    + unfold idled. cbn. rewrite writesOf_app, closesOf_app, sleepsOf_app. cbn.
      rewrite !app_nil_r. auto.
Qed.

Lemma controlResponseListener_quiet c rs : forall w,
  waiting c w -> Forall quiet rs ->
  exists w', controlResponseListener rs w = Ret tt w' /\ waiting c w' /\ idled 0 w w'.
Proof.
  induction rs as [| r rs IH]; intros w Hw Hq.
  - exists w. split; [reflexivity | split; [exact Hw | apply idled_refl]].
  - inversion Hq as [| ? ? Hr Hrs]; subst.
    destruct (listenerIter_quiet c r w Hw Hr) as (w1 & Hrun1 & Hw1 & Hi1).
    destruct (IH w1 Hw1 Hrs) as (w2 & Hrun2 & Hw2 & Hi2).
    exists w2. split; [cbn [controlResponseListener]; unfold bind; now rewrite Hrun1 |].
    split; [exact Hw2 |]. exact (idled_trans 0 0 _ _ _ Hi1 Hi2).
Qed.

Variable arrivals : nat -> list ReadResult.
Hypothesis arrivals_quiet : forall k, Forall quiet (arrivals k).

End TimeoutProperties.

Section TimeoutTheorem.
Context `{Protocol} `{Net}.


(** *** Reads that pass *)










(** *** The read that is recognized, or on which the listener panics *)








End TimeoutTheorem.

Section ConnectGuard.
Context `{Protocol} `{Net}.

(** C3.  Called while the phase is connected, ControlConnect returns the
    already-connected error; called while it is handshaking, the
    connect-in-progress error.  Either way the stick channel is nil and the
    world is returned as it was: nothing is resolved, no socket is dialled,
    no field changes. *)
Theorem ControlConnect_guard
    (arrivals : nat -> list ReadResult) (udpAddr : string)
    (droneUDPPort localUDPPort : Z) (w : World) :
  (phase (tello w) = Connected ->
   ControlConnect arrivals udpAddr droneUDPPort localUDPPort w
     = Ret (None, Some errAlreadyConnected) w) /\
  (phase (tello w) = Handshaking ->
   ControlConnect arrivals udpAddr droneUDPPort localUDPPort w
     = Ret (None, Some errConnectInProgress) w).
Proof.
  unfold phase, ControlConnect. run.
  destruct (ctrlConnected (tello w)), (ctrlConnecting (tello w));
    split; intros Hp; try discriminate Hp; reflexivity.
Qed.
End ConnectGuard.



(** C3 on an established link and on a handshaking one. *)
Lemma ControlConnect_guard_witness :
  @ControlConnectDefault exampleProtocol exampleNet silence connectedWorld
    = Ret (None, Some errAlreadyConnected) connectedWorld /\
  @ControlConnectDefault exampleProtocol exampleNet silence handshakingWorld
    = Ret (None, Some errConnectInProgress) handshakingWorld.
Proof.
  split.
  - apply (proj1 (@ControlConnect_guard exampleProtocol exampleNet silence
                    defaultTelloAddr defaultTelloControlPort defaultLocalControlPort
                    connectedWorld)). reflexivity.
  - apply (proj2 (@ControlConnect_guard exampleProtocol exampleNet silence
                    defaultTelloAddr defaultTelloControlPort defaultLocalControlPort
                    handshakingWorld)). reflexivity.
Defined.

(** ** Sequence numbers *)

Lemma sentSequences_app tr1 tr2 :
  sentSequences (tr1 ++ tr2) = sentSequences tr1 ++ sentSequences tr2.
Proof.
  induction tr1 as [| e tr1 IH]; [reflexivity |].
  destruct e as [ | | c [bs | p] | | | | ]; cbn; rewrite ?IH; reflexivity.
Qed.

Lemma uint16_of_idem_add x k : uint16_of (uint16_of x + k) = uint16_of (x + k).
Proof. unfold uint16_of, wrap. apply Zplus_mod_idemp_l. Qed.

Lemma commandCount_cons o os :
  commandCount (o :: os) = (if isCommand o then 1 else 0) + commandCount os.
Proof.
  unfold commandCount. cbn [filter]. destruct (isCommand o); cbn [List.length]; lia.
Qed.

Section SequenceProperties.
Context `{Platform} `{Protocol}.

(** What one operation does to the counter and to the socket. *)
Lemma runOp_spec o w c :
  ctrlConn (tello w) = Some c ->
  exists w' p,
    runOp o w = Ret tt w' /\
    ctrlConn (tello w') = Some c /\
    trace w' = trace w ++ [EvWrite c (Framed p)] /\
    ctrlSeq (tello w') =
      (if isCommand o then uint16_of (ctrlSeq (tello w) + 1) else ctrlSeq (tello w)) /\
    sequence p = (if isCommand o then uint16_of (ctrlSeq (tello w) + 1) else 0).
Proof.
  intros Hc. destruct w as [t tr l]. cbn in Hc.
  destruct o as [| | now]; cbn [runOp]; unfold TakeOff, Land, sendStickUpdate;
    run; cbn; rewrite Hc; do 2 eexists; (split; [reflexivity |]); cbn; auto.
Qed.

Lemma runOps_spec os : forall w c,
  ctrlConn (tello w) = Some c ->
  0 <= ctrlSeq (tello w) < 2 ^ 16 ->
  exists w' seqs,
    runOps os w = Ret tt w' /\
    ctrlConn (tello w') = Some c /\
    sentSequences (trace w') = sentSequences (trace w) ++ seqs /\
    List.length seqs = List.length os /\
    ctrlSeq (tello w') = uint16_of (ctrlSeq (tello w) + commandCount os) /\
    (forall i o, nth_error os i = Some o ->
       nth_error seqs i =
         Some (if isCommand o
               then uint16_of (ctrlSeq (tello w) + commandCount (firstn (S i) os))
               else 0)).
Proof.
  induction os as [| o os IH]; intros w c Hc Hs.
  - exists w, []. cbn. rewrite app_nil_r.
    repeat split; auto.
    + unfold commandCount, uint16_of, wrap. cbn. rewrite Z.add_0_r.
      symmetry. apply Z.mod_small. exact Hs.
    + intros [| i] o; discriminate.
  - destruct (runOp_spec o w c Hc) as (w1 & p & Hrun & Hc1 & Htr1 & Hs1 & Hp).
    assert (Hr1 : 0 <= ctrlSeq (tello w1) < 2 ^ 16).
    { rewrite Hs1. destruct (isCommand o); [apply Z.mod_pos_bound; lia | exact Hs]. }
    destruct (IH w1 c Hc1 Hr1) as (w' & seqs & Hrun' & Hc' & Htr' & Hlen & Hs' & Hnth).
    exists w', (sequence p :: seqs).
    split; [cbn [runOps]; unfold bind; now rewrite Hrun |].
    split; [exact Hc' |].
    split.
    { rewrite Htr', Htr1, sentSequences_app. cbn. now rewrite <- app_assoc. }
    split; [cbn; now rewrite Hlen |].
    split.
    { rewrite Hs', Hs1, commandCount_cons.
      destruct (isCommand o).
      - rewrite uint16_of_idem_add. f_equal. lia.
      - f_equal. }
    intros [| i] o' Hn.
    + cbn in Hn. injection Hn as <-. cbn [nth_error firstn]. rewrite Hp.
      rewrite commandCount_cons. unfold commandCount at 1. cbn.
      destruct (isCommand o); [do 2 f_equal; lia | reflexivity].
    + cbn [nth_error] in *. rewrite (Hnth i o' Hn).
      change (firstn (S (S i)) (o :: os)) with (o :: firstn (S i) os).
      rewrite commandCount_cons, Hs1.
      destruct (isCommand o'); [| reflexivity].
      destruct (isCommand o).
      * rewrite uint16_of_idem_add. do 2 f_equal. lia.
      * reflexivity.
Qed.
End SequenceProperties.

Lemma commandCount_nonneg os : 0 <= commandCount os.
Proof. unfold commandCount. lia. Qed.

Lemma strictlyIncreasing_cons x l :
  Forall (fun y => x < y) l -> strictlyIncreasing l = true ->
  strictlyIncreasing (x :: l) = true.
Proof.
  intros Hf Hl. destruct l as [| y l]; [reflexivity |].
  inversion Hf as [| ? ? Hxy _]; subst.
  change (strictlyIncreasing (x :: y :: l))
    with ((x <? y) && strictlyIncreasing (y :: l)).
  rewrite Hl, andb_true_r. now apply Z.ltb_lt.
Qed.

Lemma commandSequences_increasing os : forall seqs s0,
  List.length seqs = List.length os ->
  (forall i o, nth_error os i = Some o ->
     nth_error seqs i =
       Some (if isCommand o
             then uint16_of (s0 + commandCount (firstn (S i) os))
             else 0)) ->
  0 <= s0 -> s0 + commandCount os < 2 ^ 16 ->
  strictlyIncreasing (commandSequences os seqs) = true /\
  Forall (fun x => s0 < x) (commandSequences os seqs).
Proof.
  induction os as [| o os IH]; intros seqs s0 Hlen Hnth Hs0 Hmax.
  - cbn. auto.
  - destruct seqs as [| x seqs]; [discriminate Hlen |].
    cbn [List.length] in Hlen. injection Hlen as Hlen.
    rewrite commandCount_cons in Hmax.
    pose proof (commandCount_nonneg os) as Hcn.
    set (s1 := s0 + (if isCommand o then 1 else 0)).
    assert (Htail : strictlyIncreasing (commandSequences os seqs) = true /\
                    Forall (fun y => s1 < y) (commandSequences os seqs)).
    { apply IH; [exact Hlen | | unfold s1; destruct (isCommand o); lia
                | unfold s1; destruct (isCommand o); lia].
      intros i o' Hn. specialize (Hnth (S i) o' Hn). cbn [nth_error] in Hnth.
      rewrite Hnth.
      change (firstn (S (S i)) (o :: os)) with (o :: firstn (S i) os).
      rewrite commandCount_cons. unfold s1.
      destruct (isCommand o'); [do 2 f_equal; lia | reflexivity]. }
    destruct Htail as [Hinc Hgt].
    specialize (Hnth 0%nat o eq_refl). cbn [nth_error firstn] in Hnth.
    injection Hnth as Hx.
    unfold commandSequences. cbn [combine filter fst].
    destruct (isCommand o) eqn:Ho; fold (commandSequences os seqs).
    + cbn [map snd]. fold (commandSequences os seqs).
      assert (Hx1 : x = s0 + 1).
      { rewrite Hx, commandCount_cons. cbn [firstn]. rewrite Ho.
        unfold commandCount. cbn. unfold uint16_of, wrap.
        rewrite Z.mod_small; lia. }
      unfold s1 in Hgt. split.
      * apply strictlyIncreasing_cons; [| exact Hinc].
        eapply Forall_impl; [| exact Hgt]. cbn. intros; lia.
      * constructor; [lia |]. eapply Forall_impl; [| exact Hgt]. cbn. intros; lia.
    + unfold s1 in Hgt. split; [exact Hinc |].
      eapply Forall_impl; [| exact Hgt]. cbn. intros; lia.
Qed.

Section SequenceTheorem.
Context `{Platform} `{Protocol}.

(** C7 (amended).  For any interleaving of take-off, land and stick-update
    transmissions on an open connection, every operation writes one packet;
    a stick update carries sequence 0 and leaves the counter alone, a
    take-off or land request carries the counter after incrementing it
    modulo 2^16.  The sequence numbers of the take-off and land packets
    increase strictly as long as the counter does not wrap. *)
Theorem sequence_numbers (os : list Op) (w : World) (c : UDPConn) :
  ctrlConn (tello w) = Some c ->
  0 <= ctrlSeq (tello w) < 2 ^ 16 ->
  exists w' seqs,
    runOps os w = Ret tt w' /\
    sentSequences (trace w') = sentSequences (trace w) ++ seqs /\
    List.length seqs = List.length os /\
    (forall i o, nth_error os i = Some o ->
       nth_error seqs i =
         Some (if isCommand o
               then uint16_of (ctrlSeq (tello w) + commandCount (firstn (S i) os))
               else 0)) /\
    ctrlSeq (tello w') = uint16_of (ctrlSeq (tello w) + commandCount os) /\
    (ctrlSeq (tello w) + commandCount os < 2 ^ 16 ->
     strictlyIncreasing (commandSequences os seqs) = true).
Proof.
  intros Hc Hs.
  destruct (runOps_spec os w c Hc Hs) as (w' & seqs & Hrun & _ & Htr & Hlen & Hseq & Hnth).
  exists w', seqs. repeat (split; [assumption |]).
  intros Hmax.
  apply (commandSequences_increasing os seqs (ctrlSeq (tello w))); auto. lia.
Qed.
End SequenceTheorem.

(** C7 on take-off, one stick update, land. *)
Lemma sequence_numbers_witness :
  exists w' seqs,
    @runOps examplePlatform exampleProtocol
      [OpTakeOff; OpStickUpdate exampleClock; OpLand] connectedWorld = Ret tt w' /\
    sentSequences (trace w') = seqs /\
    nth_error seqs 0 = Some 1 /\ nth_error seqs 1 = Some 0 /\ nth_error seqs 2 = Some 2 /\
    ctrlSeq (tello w') = 2 /\
    strictlyIncreasing
      (commandSequences [OpTakeOff; OpStickUpdate exampleClock; OpLand] seqs) = true.
Proof.
  destruct (@sequence_numbers examplePlatform exampleProtocol
              [OpTakeOff; OpStickUpdate exampleClock; OpLand] connectedWorld
              exampleConn eq_refl (conj (Z.le_refl 0) eq_refl))
    as (w' & seqs & Hrun & Htr & _ & Hnth & Hseq & Hinc).
  exists w', seqs. split; [exact Hrun |]. split; [exact Htr |].
  split; [exact (Hnth 0%nat OpTakeOff eq_refl) |].
  split; [exact (Hnth 1%nat (OpStickUpdate exampleClock) eq_refl) |].
  split; [exact (Hnth 2%nat OpLand eq_refl) |].
  split; [exact Hseq | exact (Hinc eq_refl)].
Defined.

(** The claim of C7 as stated: a take-off followed by a stick update puts
    the sequence numbers 1 and then 0 on the wire. *)
Lemma stick_update_resets_sequence :
  exists w',
    @runOps examplePlatform exampleProtocol
      [OpTakeOff; OpStickUpdate exampleClock] connectedWorld = Ret tt w' /\
    sentSequences (trace w') = [1; 0] /\
    strictlyIncreasing (sentSequences (trace w')) = false.
Proof.
  eexists. split; [vm_compute; reflexivity |]. split; reflexivity.
Defined.

(** ** Hover and the flight-data stream *)


(** C9.  Hover sets the four axes and the throttle to 0, writes nothing to the
    socket (the trace of effects is unchanged), and leaves every other field
    of the link state and the listener as they were. *)
Theorem Hover_zeroes_axes_only (w : World) :
  exists t',
    Hover w = Ret tt (mkWorld t' (trace w) (listener w)) /\
    ctrlLx t' = 0%float /\ ctrlLy t' = 0%float /\
    ctrlRx t' = 0%float /\ ctrlRy t' = 0%float /\
    ctrlThrottle t' = 0%float /\
    ctrlConn t' = ctrlConn (tello w) /\
    videoConn t' = videoConn (tello w) /\
    ctrlStopChan t' = ctrlStopChan (tello w) /\
    videoStopChan t' = videoStopChan (tello w) /\
    ctrlConnecting t' = ctrlConnecting (tello w) /\
    ctrlConnected t' = ctrlConnected (tello w) /\
    ctrlSeq t' = ctrlSeq (tello w) /\
    stickChan t' = stickChan (tello w) /\
    fd t' = fd (tello w) /\
    fdStreaming t' = fdStreaming (tello w).
Proof.
  eexists. split; [reflexivity |]. cbn. repeat split.
Qed.

(** C10.  When no stream is active, StreamFlightData with asAvailable = true
    ends in log.Fatal for every period: the process exits, nothing is
    returned to the caller, and the streaming flag is still unset. *)
Theorem StreamFlightData_asAvailable_exits (periodMs : Z) (w : World) :
  fdStreaming (tello w) = false ->
  StreamFlightData true periodMs w = Fatal errNotImplemented w.
Proof.
  intros Hs. unfold StreamFlightData. run. now rewrite Hs.
Qed.

(** C10 on a fresh instance, with a period of 100 ms. *)
Lemma StreamFlightData_asAvailable_exits_witness :
  StreamFlightData true 100 (freshWorld zeroTello)
    = Fatal errNotImplemented (freshWorld zeroTello).
Proof.
  apply StreamFlightData_asAvailable_exits. reflexivity.
Defined.

(* ================================================================== *)
(** * Further properties of the code *)

(** ** What the listener leaves alone *)

Lemma sameLink_refl t : sameLink t t.
Proof. unfold sameLink, sameSticks. repeat split. Qed.

Lemma sameLink_trans t1 t2 t3 : sameLink t1 t2 -> sameLink t2 t3 -> sameLink t1 t3.
Proof.
  unfold sameLink, sameSticks.
  intros (A1 & A2 & A3 & A4 & (A5 & A6 & A7 & A8 & A9) & A10 & A11)
         (B1 & B2 & B3 & B4 & (B5 & B6 & B7 & B8 & B9) & B10 & B11).
  repeat split; congruence.
Qed.

Lemma listened_refl w : listened w w.
Proof.
  split; [apply sameLink_refl |]. split; [exists []; cbn; now rewrite app_nil_r |].
  destruct (listener w); eauto.
Qed.

Lemma listened_trans w1 w2 w3 : listened w1 w2 -> listened w2 w3 -> listened w1 w3.
Proof.
  intros (L1 & (ls1 & T1) & B1) (L2 & (ls2 & T2) & B2).
  split; [eapply sameLink_trans; eauto |].
  split; [exists (ls1 ++ ls2); rewrite T2, T1, map_app, app_assoc; reflexivity |].
  destruct (listener w1) as [b1 |].
  - destruct B1 as [B1 | (b2 & B1 & Hl1)].
    + rewrite B1 in B2. now left.
    + rewrite B1 in B2. destruct B2 as [B2 | (b3 & B2 & Hl2)]; [now left |].
      right. exists b3. split; [exact B2 | congruence].
  - rewrite B1 in B2. exact B2.
Qed.

Lemma readInto_keeps_length buff d : List.length (snd (readInto buff d)) = List.length buff.
Proof.
  unfold readInto. cbn [snd].
  rewrite length_app, length_skipn, length_firstn. lia.
Qed.

Section ListenerFrame.
Context `{Protocol}.

Lemma dispatch_logs pkt w :
  let w' := finalWorld (dispatch pkt w) in
  (exists d, tello w' = set_fd d (tello w)) /\
  (exists ls, trace w' = trace w ++ map EvLog ls) /\
  listener w' = listener w.
Proof.
  destruct w as [t tr l]. unfold dispatch.
  assert (Hid : exists d, t = set_fd d t) by (exists (fd t); now destruct t).
  assert (Hset : forall d1, exists d, set_fd d1 t = set_fd d t) by eauto.
  assert (Hset2 : forall d1 d2, exists d, set_fd d2 (set_fd d1 t) = set_fd d t)
    by (intros; eexists; reflexivity).
  assert (H0 : exists ls, tr = tr ++ map EvLog ls) by (exists []; cbn; now rewrite app_nil_r).
  assert (H1 : forall l0, exists ls, tr ++ [EvLog l0] = tr ++ map EvLog ls)
    by (intros l0; exists [l0]; reflexivity).
  destruct (messageID pkt =? msgFlightStatus); [cbn; auto |].
  destruct (messageID pkt =? msgLightStrength).
  { destruct (payload pkt) as [| p0 rest]; run; cbn; auto. }
  destruct (messageID pkt =? msgLogHeader).
  { run; cbn. auto. }
  destruct (messageID pkt =? msgWifiStrength).
  { destruct (payload pkt) as [| p0 [| p1 rest]]; run; cbn; auto. }
  run; cbn. auto.
Qed.

Lemma sameLink_set_fd t d : sameLink t (set_fd d t).
Proof. unfold sameLink, sameSticks. cbn. repeat split. Qed.

Lemma listenerBody_listened n err buff w :
  listener w = Some buff ->
  listened w (finalWorld (listenerBody n err buff w)).
Proof.
  intros Hl. unfold listenerBody. run.
  assert (Hkeep : forall t' tr', sameLink (tello w) t' ->
            (exists ls, tr' = trace w ++ map EvLog ls) ->
            listened w (mkWorld t' tr' (listener w))).
  { intros t' tr' Hs Ht. split; [exact Hs |]. split; [exact Ht |].
    rewrite Hl. cbn. right. eauto. }
  assert (Hstop : forall t' tr', sameLink (tello w) t' ->
            (exists ls, tr' = trace w ++ map EvLog ls) ->
            listened w (mkWorld t' tr' None)).
  { intros t' tr' Hs Ht. split; [exact Hs |]. split; [exact Ht |].
    rewrite Hl. cbn. now left. }
  assert (Hlog : forall l0, exists ls, trace w ++ [EvLog l0] = trace w ++ map EvLog ls)
    by (intros l0; exists [l0]; reflexivity).
  destruct (ctrlConnecting (tello w) && (n =? 11)).
  - destruct (ContainsAny buff connAckChars); cbn.
    + apply Hkeep; [| apply Hlog]. unfold sameLink, sameSticks. cbn. repeat split.
    + apply Hkeep; [apply sameLink_refl | apply Hlog].
  - destruct (ctrlStopChan (tello w)) as [[| s rest] |].
    2:{ cbn. apply Hstop; [| apply Hlog]. unfold sameLink, sameSticks. cbn. repeat split. }
    all: destruct err as [e |]; [cbn; apply Hkeep; [apply sameLink_refl | apply Hlog] |].
    all: destruct (negb (nth 0 buff 0 =? msgHdr));
      [cbn; apply Hkeep; [apply sameLink_refl | apply Hlog] |].
    all: destruct (dispatch_logs (bufferToPacket buff) w) as ((d & Ht) & Htr & Hli);
      cbv zeta in *;
      (split; [rewrite Ht; apply sameLink_set_fd |]);
      (split; [exact Htr |]);
      rewrite Hl, Hli, Hl; right; eauto.
Qed.

Lemma listenerIter_listened r w : listened w (finalWorld (listenerIter r w)).
Proof.
  unfold listenerIter.
  destruct (listener w) as [buff0 |] eqn:Hl; [| apply listened_refl].
  destruct r as [d | e].
  - pose proof (readInto_keeps_length buff0 d) as Hlen.
    destruct (readInto buff0 d) as [n buff]. cbn [snd] in Hlen.
    run.
    set (w1 := mkWorld (tello w) (trace w) (Some buff)).
    assert (H1 : listened w w1).
    { split; [apply sameLink_refl |].
      split; [exists []; cbn; now rewrite app_nil_r |].
      rewrite Hl. cbn. right. eauto. }
    eapply listened_trans; [exact H1 |].
    apply (listenerBody_listened n None buff w1). reflexivity.
  - apply listenerBody_listened. exact Hl.
Qed.

Lemma finalWorld_bind {A B} (m : M A) (k : A -> M B) w :
  finalWorld (bind m k w) =
    match m w with
    | Ret a w' => finalWorld (k a w')
    | o => finalWorld o
    end.
Proof. unfold bind. destruct (m w); reflexivity. Qed.

Lemma controlResponseListener_listened rs : forall w,
  listened w (finalWorld (controlResponseListener rs w)).
Proof.
  induction rs as [| r rs IH]; intros w; [apply listened_refl |].
  cbn [controlResponseListener]. rewrite finalWorld_bind.
  pose proof (listenerIter_listened r w) as H1.
  destruct (listenerIter r w) as [a w1 | w1 | w1 | msg w1]; cbn [finalWorld] in *;
    try exact H1.
  eapply listened_trans; [exact H1 | apply IH].
Qed.

(** X6.  Whatever the listener reads (any sequence of datagrams and read
    errors, from any state, also when a dispatch panics), it leaves the
    sockets, the video stop channel, the sequence counter, the stick fields,
    the stick channel and the streaming flag as they were, writes nothing to
    the socket, closes nothing, never sleeps and starts no goroutine; its
    buffer keeps its length for as long as it runs. *)
Theorem listener_frame (rs : list ReadResult) (w : World) :
  let w' := finalWorld (controlResponseListener rs w) in
  sameLink (tello w) (tello w') /\
  writesOf (trace w') = writesOf (trace w) /\
  closesOf (trace w') = closesOf (trace w) /\
  sleepsOf (trace w') = sleepsOf (trace w) /\
  goroutinesOf (trace w') = goroutinesOf (trace w) /\
  (forall b, listener w = Some b ->
     listener w' = None \/
     exists b', listener w' = Some b' /\ List.length b' = List.length b).
Proof.
  destruct (controlResponseListener_listened rs w) as (Hs & (ls & Ht) & Hb).
  cbv zeta. rewrite Ht.
  rewrite writesOf_logs, closesOf_logs, sleepsOf_logs, goroutinesOf_logs.
  repeat split; try exact Hs; try apply Hs.
  intros b Hl. rewrite Hl in Hb. exact Hb.
Qed.
End ListenerFrame.

(** The listener reads a wifi frame and a failed read on an established link. *)
Lemma listener_frame_witness :
  let w' := finalWorld (@controlResponseListener exampleProtocol
                          [Received wifiFrame; ReadFailed "i/o timeout"%string]
                          connectedWorld) in
  sameLink (tello connectedWorld) (tello w') /\
  writesOf (trace w') = [] /\ closesOf (trace w') = [] /\
  (listener w' = None \/
   exists b', listener w' = Some b' /\ List.length b' = 4096%nat).
Proof.
  destruct (@listener_frame exampleProtocol
              [Received wifiFrame; ReadFailed "i/o timeout"%string] connectedWorld)
    as (Hlink & Hwr & Hcl & _ & _ & Hbuf).
  split; [exact Hlink |]. split; [exact Hwr |]. split; [exact Hcl |].
  destruct (Hbuf (repeat 0 4096) eq_refl) as [Hn | (b' & Hb & Hlen)].
  - left. exact Hn.
  - right. exists b'. split; [exact Hb |]. rewrite Hlen. apply repeat_length.
Defined.

(** ** The listener and the phase *)

Section ListenerPhase.
Context `{Protocol}.

Lemma listenerBody_connected_stays n err buff w :
  ctrlConnected (tello w) = true ->
  ctrlConnected (tello (finalWorld (listenerBody n err buff w))) = true.
Proof.
  intros Hc.
  destruct (ctrlConnecting (tello w) && (n =? 11)) eqn:Hb.
  - unfold listenerBody. run. rewrite Hb.
    destruct (ContainsAny buff connAckChars); cbn; [reflexivity | exact Hc].
  - destruct (listenerBody_ordinary n err buff w Hb) as (_ & H2 & _).
    cbv zeta in H2. now rewrite H2.
Qed.

Lemma listenerIter_phase r w :
  let w' := finalWorld (listenerIter r w) in
  (ctrlConnecting (tello w) = false ->
   ctrlConnecting (tello w') = false /\
   ctrlConnected (tello w') = ctrlConnected (tello w)) /\
  (ctrlConnected (tello w) = true -> ctrlConnected (tello w') = true).
Proof.
  unfold listenerIter.
  destruct (listener w) as [buff0 |]; [| cbn; auto].
  destruct r as [d | e].
  - destruct (readInto buff0 d) as [n buff]. run.
    set (w1 := mkWorld (tello w) (trace w) (Some buff)).
    split.
    + intros Hc.
      destruct (listenerBody_ordinary n None buff w1) as (H1 & H2 & _).
      { cbn. now rewrite Hc. }
      cbv zeta in *. cbn [tello w1] in *. rewrite H1, H2. auto.
    + intros Hc. apply (listenerBody_connected_stays n None buff w1). exact Hc.
  - split.
    + intros Hc.
      destruct (listenerBody_ordinary 0 (Some e) buff0 w) as (H1 & H2 & _).
      { now rewrite Hc. }
      cbv zeta in *. rewrite H1, H2. auto.
    + apply listenerBody_connected_stays.
Qed.

(** X7.  The listener changes the phase only out of handshaking: from a state
    that is not handshaking the phase is the same after any sequence of reads,
    and a connected link stays connected. *)
Theorem listener_keeps_phase (rs : list ReadResult) (w : World) :
  let w' := finalWorld (controlResponseListener rs w) in
  (ctrlConnecting (tello w) = false -> phase (tello w') = phase (tello w)) /\
  (ctrlConnected (tello w) = true -> phase (tello w') = Connected).
Proof.
  revert w. induction rs as [| r rs IH]; intros w.
  - cbn. split; [reflexivity |]. intros Hc. unfold phase. now rewrite Hc.
  - cbn [controlResponseListener]. cbv zeta. rewrite finalWorld_bind.
    pose proof (listenerIter_phase r w) as (Hidle & Hconn). cbv zeta in Hidle, Hconn.
    assert (Hfinal :
      (ctrlConnecting (tello w) = false ->
       phase (tello (finalWorld (listenerIter r w))) = phase (tello w)) /\
      (ctrlConnected (tello w) = true ->
       phase (tello (finalWorld (listenerIter r w))) = Connected)).
    { split.
      - intros Hc. destruct (Hidle Hc) as [H1 H2]. unfold phase. now rewrite H1, H2, Hc.
      - intros Hc. unfold phase. now rewrite (Hconn Hc). }
    destruct (listenerIter r w) as [a w1 | w1 | w1 | msg w1]; cbn [finalWorld] in *;
      try exact Hfinal.
    destruct (IH w1) as (IH1 & IH2). cbv zeta in IH1, IH2.
    destruct Hfinal as (F1 & F2). split.
    + intros Hc. destruct (Hidle Hc) as [H1 _]. rewrite (IH1 H1). apply F1, Hc.
    + intros Hc. apply IH2. apply Hconn, Hc.
Qed.
End ListenerPhase.

(** A late acknowledgment and a wifi frame on an established link. *)
Lemma listener_keeps_phase_witness :
  phase (tello (finalWorld (@controlResponseListener exampleProtocol
                              [Received (bytesOf "conn_ack:" ++ [150; 23]);
                               Received wifiFrame] connectedWorld))) = Connected.
Proof.
  apply (proj2 (@listener_keeps_phase exampleProtocol
                  [Received (bytesOf "conn_ack:" ++ [150; 23]); Received wifiFrame]
                  connectedWorld)).
  reflexivity.
Defined.

(** ** Payload indexing and the handshake test *)

Section DispatchPanics.
Context `{Protocol}.

(** X9.  For distinct switch constants, the message switch of the listener
    panics exactly when a light-strength packet has an empty payload or a
    wifi-strength packet has fewer than two payload bytes, and returns
    otherwise; a wifi packet with one payload byte panics after it has stored
    the wifi strength. *)
Theorem dispatch_panics_on_short_payload (pkt : packet) (w : World) :
  switchCasesDistinct ->
  (isPanic (dispatch pkt w) = true <->
     (messageID pkt = msgLightStrength /\ payload pkt = []) \/
     (messageID pkt = msgWifiStrength /\ (List.length (payload pkt) < 2)%nat)) /\
  (isPanic (dispatch pkt w) = false -> exists w', dispatch pkt w = Ret tt w') /\
  (forall p0, messageID pkt = msgWifiStrength -> payload pkt = [p0] ->
     dispatch pkt w =
       Panic (mkWorld (set_fd (set_WifiStrength p0 (fd (tello w))) (tello w))
                (trace w) (listener w))).
Proof.
  intros Hd. destruct (switch_cases Hd) as (H1 & H2 & H3 & H4 & H5 & H6).
  unfold dispatch.
  destruct (Z.eqb_spec (messageID pkt) msgFlightStatus) as [E1 | N1].
  { split; [| split].
    - cbn. split; [discriminate |]. intros [[E _] | [E _]]; congruence.
    - eauto.
    - intros p0 E. congruence. }
  destruct (Z.eqb_spec (messageID pkt) msgLightStrength) as [E2 | N2].
  { split; [| split].
    - destruct (payload pkt) as [| p0 rest]; run; cbn.
      + split; [auto | reflexivity].
      + split; [discriminate |]. intros [[_ E] | [E _]]; [discriminate | congruence].
    - destruct (payload pkt) as [| p0 rest]; run; cbn; [discriminate | eauto].
    - intros p0 E. congruence. }
  destruct (Z.eqb_spec (messageID pkt) msgLogHeader) as [E3 | N3].
  { split; [| split].
    - run; cbn. split; [discriminate |]. intros [[E _] | [E _]]; congruence.
    - run. eauto.
    - intros p0 E. congruence. }
  destruct (Z.eqb_spec (messageID pkt) msgWifiStrength) as [E4 | N4].
  { split; [| split].
    - destruct (payload pkt) as [| p0 [| p1 rest]]; run; cbn.
      + split; [right; split; [exact E4 | lia] | reflexivity].
      + split; [right; split; [exact E4 | lia] | reflexivity].
      + split; [discriminate |]. intros [[E _] | [_ E]]; [congruence | lia].
    - destruct (payload pkt) as [| p0 [| p1 rest]]; run; cbn;
        try discriminate; eauto.
    - intros p0 _ E. rewrite E. run. cbn. destruct w; reflexivity. }
  split; [| split].
  - run; cbn. split; [discriminate |]. intros [[E _] | [E _]]; congruence.
  - run. eauto.
  - intros p0 E. congruence.
Qed.
End DispatchPanics.

Section HandshakeLoopholes.
Context `{Protocol}.

(** What makes the listener accept eleven bytes as the acknowledgment. *)
Lemma handshake_accepts (w : World) (buff0 d : list Z) :
  ctrlConnecting (tello w) = true ->
  listener w = Some buff0 ->
  List.length buff0 = 4096%nat ->
  List.length d = 11%nat ->
  ContainsAny (d ++ skipn 11 buff0) connAckChars = true ->
  listenerIter (Received d) w =
    Ret tt (mkWorld (set_ctrlConnected true (set_ctrlConnecting false (tello w)))
              (trace w ++ [EvLog (LogConnAck 11)])
              (Some (d ++ skipn 11 buff0))).
Proof.
  intros Hc Hl Hlen Hd Hany.
  unfold listenerIter. rewrite Hl, readInto_fits by lia. rewrite Hd.
  unfold listenerBody. run. cbn [tello]. rewrite Hc.
  cbn [andb Z.of_nat Pos.of_succ_nat Pos.succ Z.eqb]. rewrite Hany. reflexivity.
Qed.

(** X3.  While the link is handshaking, if the listener's buffer holds a
    character of the marker beyond its first 11 bytes (left there by an
    earlier, longer datagram), then every 11-byte datagram moves the link to
    connected and is logged as the acknowledgment. *)
Theorem stale_buffer_acknowledges (w : World) (buff0 d : list Z) :
  phase (tello w) = Handshaking ->
  listener w = Some buff0 ->
  List.length buff0 = 4096%nat ->
  ContainsAny (skipn 11 buff0) connAckChars = true ->
  List.length d = 11%nat ->
  exists w',
    listenerIter (Received d) w = Ret tt w' /\
    phase (tello w') = Connected /\
    logsOf (trace w') = logsOf (trace w) ++ [LogConnAck 11].
Proof.
  intros Hph Hl Hlen Hstale Hd.
  assert (Hc : ctrlConnecting (tello w) = true).
  { unfold phase in Hph.
    destruct (ctrlConnected (tello w)), (ctrlConnecting (tello w)); try discriminate; auto. }
  eexists. split.
  - apply handshake_accepts with (buff0 := buff0); auto.
    rewrite ContainsAny_app, Hstale. apply orb_true_r.
  - split; [reflexivity |]. cbn [trace]. rewrite logsOf_app. reflexivity.
Qed.

Lemma connectRequest_bytes port :
  connectRequest port =
    bytesOf "conn_req:" ++ [byte_of (Z.land port 255); byte_of (Z.shiftr port 8)].
Proof. reflexivity. Qed.

(** X2.  While the link is handshaking, the connect request itself, read back
    by the listener, moves the link to connected, although it does not
    contain the marker text conn_ack: (for every video port and every
    content of the 4096-byte buffer). *)
Theorem echoed_request_acknowledges (w : World) (buff0 : list Z) (port : Z) :
  phase (tello w) = Handshaking ->
  listener w = Some buff0 ->
  List.length buff0 = 4096%nat ->
  Contains (connectRequest port) (bytesOf connAckChars) = false /\
  exists w',
    listenerIter (Received (connectRequest port)) w = Ret tt w' /\
    phase (tello w') = Connected.
Proof.
  intros Hph Hl Hlen.
  assert (Hc : ctrlConnecting (tello w) = true).
  { unfold phase in Hph.
    destruct (ctrlConnected (tello w)), (ctrlConnecting (tello w)); try discriminate; auto. }
  split.
  - rewrite connectRequest_bytes.
    generalize (byte_of (Z.land port 255)), (byte_of (Z.shiftr port 8)).
    intros b9 b10. cbn. now rewrite !andb_false_r.
  - eexists. split.
    + apply handshake_accepts with (buff0 := buff0); auto.
    + reflexivity.
Qed.
End HandshakeLoopholes.

(** A wifi packet with a one-byte payload. *)
Lemma dispatch_panics_on_short_payload_witness :
  isPanic (@dispatch exampleProtocol (mkPacket 0xcc false 4 0x1a 0 12 [90]) connectedWorld)
    = true /\
  @dispatch exampleProtocol (mkPacket 0xcc false 4 0x1a 0 12 [90]) connectedWorld
    = Panic (mkWorld (set_fd (mkFlightData 0 90 0) (tello connectedWorld)) []
               (listener connectedWorld)).
Proof.
  destruct (@dispatch_panics_on_short_payload exampleProtocol
              (mkPacket 0xcc false 4 0x1a 0 12 [90]) connectedWorld
              exampleProtocol_switch) as (Hiff & _ & Hwifi).
  split.
  - apply (proj2 Hiff). right. split; [reflexivity | cbn; lia].
  - apply (Hwifi 90); reflexivity.
Defined.

(** Eleven bytes without a marker character, after an earlier 18-byte read. *)
Lemma stale_buffer_acknowledges_witness :
  ContainsAny (bytesOf "HELLO WORLD") connAckChars = false /\
  exists w',
    @listenerIter exampleProtocol (Received (bytesOf "HELLO WORLD")) staleWorld
      = Ret tt w' /\
    phase (tello w') = Connected /\
    logsOf (trace w') = logsOf (trace staleWorld) ++ [LogConnAck 11].
Proof.
  split; [reflexivity |].
  apply (@stale_buffer_acknowledges exampleProtocol staleWorld
           (bytesOf "unknown command: x" ++ repeat 0 4078) (bytesOf "HELLO WORLD"));
    reflexivity.
Defined.

(** The connect request for the default video port, echoed back. *)
Lemma echoed_request_acknowledges_witness :
  Contains (connectRequest defaultTelloVideoPort) (bytesOf connAckChars) = false /\
  exists w',
    @listenerIter exampleProtocol (Received (connectRequest defaultTelloVideoPort))
      handshakingWorld = Ret tt w' /\
    phase (tello w') = Connected.
Proof.
  apply (@echoed_request_acknowledges exampleProtocol handshakingWorld (repeat 0 4096)
           defaultTelloVideoPort); reflexivity.
Defined.

(** ** The connect request and the ordinary reads *)

(** X1.  The connect request written by [sendConnectRequest] has 11 bytes: the
    text conn_req: followed by the video port as a 16-bit little-endian number
    (the port modulo 2^16), every byte in 0..255. *)
Theorem connectRequest_layout (port : Z) :
  List.length (connectRequest port) = 11%nat /\
  firstn 9 (connectRequest port) = bytesOf "conn_req:" /\
  Forall (fun b => 0 <= b < 256) (connectRequest port) /\
  le_value (skipn 9 (connectRequest port)) = uint16_of port.
Proof.
  rewrite connectRequest_bytes.
  split; [reflexivity |]. split; [reflexivity |]. split.
  - assert (Hb : forall x, 0 <= byte_of x < 256) by (intros x; apply (wrap_range 8); lia).
    cbn. repeat constructor; try lia; apply Hb.
  - cbn [skipn bytesOf list_ascii_of_string map app le_value].
    change 255 with (Z.ones 8). rewrite Z.land_ones by lia.
    rewrite Z.shiftr_div_pow2 by lia.
    unfold byte_of, uint16_of, wrap. change (2 ^ 8) with 256. change (2 ^ 16) with (256 * 256).
    rewrite Z.mod_mod by lia. rewrite Z.rem_mul_r by lia. lia.
Qed.

Section ListenerPaths.
Context `{Protocol}.

Lemma handshakeRead_false_n t d :
  handshakeRead t (Received d) = false ->
  ctrlConnecting t && (Z.of_nat (List.length d) =? 11) = false.
Proof.
  cbn. intros Hh. destruct (ctrlConnecting t); [| reflexivity]. cbn in *.
  apply Nat.eqb_neq in Hh. apply Z.eqb_neq. lia.
Qed.

(** X8.  With no stop signal pending, a failed read is logged and changes
    nothing else; a datagram that is not taken by the handshake branch and
    whose first byte is not the header marker is logged as unexpected with
    that byte, and only the buffer changes. *)
Theorem listener_drops_bad_input (w : World) (buff0 : list Z) :
  listener w = Some buff0 ->
  stopPending (tello w) = false ->
  (forall e,
     listenerIter (ReadFailed e) w =
       Ret tt (mkWorld (tello w) (trace w ++ [EvLog (LogReadError e)]) (Some buff0))) /\
  (forall d,
     (List.length d <= List.length buff0)%nat ->
     handshakeRead (tello w) (Received d) = false ->
     nth 0 (d ++ skipn (List.length d) buff0) 0 <> msgHdr ->
     listenerIter (Received d) w =
       Ret tt (mkWorld (tello w)
                 (trace w ++ [EvLog (LogUnexpectedMessage
                                       (nth 0 (d ++ skipn (List.length d) buff0) 0))])
                 (Some (d ++ skipn (List.length d) buff0)))).
Proof.
  intros Hl Hstop. unfold stopPending in Hstop.
  split.
  - intros e. unfold listenerIter. rewrite Hl. unfold listenerBody. run.
    rewrite andb_false_r.
    destruct (ctrlStopChan (tello w)) as [[| s rest] |]; try discriminate;
      cbn; rewrite Hl; reflexivity.
  - intros d Hfit Hh Hhdr. unfold listenerIter.
    rewrite Hl, readInto_fits by exact Hfit.
    unfold listenerBody. run. cbn [tello].
    rewrite (handshakeRead_false_n _ _ Hh).
    apply Z.eqb_neq in Hhdr. rewrite Hhdr. cbn [negb].
    destruct (ctrlStopChan (tello w)) as [[| s rest] |]; try discriminate; reflexivity.
Qed.

Lemma dispatch_telemetry (pkt : packet) (w : World) :
  switchCasesDistinct ->
  (forall p0 p1 rest,
     messageID pkt = msgWifiStrength -> payload pkt = p0 :: p1 :: rest ->
     dispatch pkt w =
       Ret tt (mkWorld
                 (set_fd (mkFlightData (LightStrength (fd (tello w))) p0 p1) (tello w))
                 (trace w ++ [EvLog (LogParsedWifi p0 p1)]) (listener w))) /\
  (forall p0 rest,
     messageID pkt = msgLightStrength -> payload pkt = p0 :: rest ->
     dispatch pkt w =
       Ret tt (mkWorld
                 (set_fd (mkFlightData p0 (WifiStrength (fd (tello w)))
                            (WifiInterference (fd (tello w)))) (tello w))
                 (trace w) (listener w))).
Proof.
  intros Hd. destruct (switch_cases Hd) as (H1 & H2 & H3 & H4 & H5 & H6).
  unfold dispatch. split.
  - intros p0 p1 rest Hid Hp. rewrite Hid, Hp.
    rewrite (proj2 (Z.eqb_neq _ _) H4), (proj2 (Z.eqb_neq _ _) H5),
      (proj2 (Z.eqb_neq _ _) H6), Z.eqb_refl.
    run. cbn. destruct w as [t tr l]. reflexivity.
  - intros p0 rest Hid Hp. rewrite Hid, Hp.
    rewrite (proj2 (Z.eqb_neq _ _) H1), Z.eqb_refl.
    run. cbn. destruct w as [t tr l]. reflexivity.
Qed.

(** X10.  With no stop signal pending, after the listener has read a frame
    with the header marker that decodes to a wifi-strength packet (payload p0,
    p1, ...) or to a light-strength packet (payload p0, ...),
    [GetFlightData] returns the snapshot with those values and the other fields
    as before. *)
Theorem telemetry_reaches_GetFlightData (w : World) (buff0 d : list Z) :
  switchCasesDistinct ->
  listener w = Some buff0 ->
  stopPending (tello w) = false ->
  (List.length d <= List.length buff0)%nat ->
  handshakeRead (tello w) (Received d) = false ->
  nth 0 (d ++ skipn (List.length d) buff0) 0 = msgHdr ->
  let pkt := bufferToPacket (d ++ skipn (List.length d) buff0) in
  (forall p0 p1 rest,
     messageID pkt = msgWifiStrength -> payload pkt = p0 :: p1 :: rest ->
     exists w',
       (listenerIter (Received d) ;; GetFlightData) w =
         Ret (mkFlightData (LightStrength (fd (tello w))) p0 p1) w') /\
  (forall p0 rest,
     messageID pkt = msgLightStrength -> payload pkt = p0 :: rest ->
     exists w',
       (listenerIter (Received d) ;; GetFlightData) w =
         Ret (mkFlightData p0 (WifiStrength (fd (tello w)))
                (WifiInterference (fd (tello w)))) w').
Proof.
  intros Hd Hl Hstop Hfit Hh Hhdr pkt.
  assert (Hiter : listenerIter (Received d) w =
            dispatch pkt (mkWorld (tello w) (trace w)
                            (Some (d ++ skipn (List.length d) buff0)))).
  { unfold listenerIter. rewrite Hl, readInto_fits by exact Hfit.
    unfold listenerBody. run. cbn [tello].
    rewrite (handshakeRead_false_n _ _ Hh), Hhdr, Z.eqb_refl. cbn [negb].
    unfold stopPending in Hstop.
    destruct (ctrlStopChan (tello w)) as [[| s rest] |]; try discriminate; reflexivity. }
  set (w1 := mkWorld (tello w) (trace w) (Some (d ++ skipn (List.length d) buff0))) in *.
  destruct (dispatch_telemetry pkt w1 Hd) as (Hwifi & Hlight).
  split.
  - intros p0 p1 rest Hid Hp. unfold bind at 1. rewrite Hiter, (Hwifi p0 p1 rest Hid Hp).
    eexists. reflexivity.
  - intros p0 rest Hid Hp. unfold bind at 1. rewrite Hiter, (Hlight p0 rest Hid Hp).
    eexists. reflexivity.
Qed.
End ListenerPaths.

(** A failed read and five bytes of text on an established link. *)
Lemma listener_drops_bad_input_witness :
  @listenerIter exampleProtocol (ReadFailed "i/o timeout"%string) connectedWorld
    = Ret tt (mkWorld (tello connectedWorld)
                (trace connectedWorld ++ [EvLog (LogReadError "i/o timeout"%string)])
                (Some (repeat 0 4096))) /\
  @listenerIter exampleProtocol (Received (bytesOf "HELLO")) connectedWorld
    = Ret tt (mkWorld (tello connectedWorld)
                (trace connectedWorld ++ [EvLog (LogUnexpectedMessage 72)])
                (Some (bytesOf "HELLO" ++ skipn 5 (repeat 0 4096)))).
Proof.
  destruct (@listener_drops_bad_input exampleProtocol connectedWorld (repeat 0 4096)
              eq_refl eq_refl) as (Herr & Hbad).
  split; [exact (Herr "i/o timeout"%string) |].
  apply (Hbad (bytesOf "HELLO")).
  - apply Nat.leb_le. reflexivity.
  - reflexivity.
  - discriminate.
Defined.

(** A wifi frame, then a query. *)
Lemma telemetry_reaches_GetFlightData_witness :
  exists w',
    (@listenerIter exampleProtocol (Received wifiFrame) ;; GetFlightData) connectedWorld
      = Ret (mkFlightData 0 90 7) w'.
Proof.
  apply (proj1 (@telemetry_reaches_GetFlightData exampleProtocol connectedWorld
                  (repeat 0 4096) wifiFrame exampleProtocol_switch eq_refl eq_refl
                  (proj1 (Nat.leb_le 13 4096) eq_refl) eq_refl eq_refl) 90 7 []);
    reflexivity.
Defined.

(** ** Stopping the listener; a handshake that succeeds *)

Section ListenerStop.
Context `{Protocol}.

Lemma controlResponseListener_stopped rs : forall w,
  listener w = None -> controlResponseListener rs w = Ret tt w.
Proof.
  induction rs as [| r rs IH]; intros w Hl; [reflexivity |].
  cbn [controlResponseListener]. unfold bind, listenerIter. rewrite Hl. now apply IH.
Qed.

(** X11.  With a stop signal pending, a read that is not taken by the handshake
    branch makes the listener take one signal, log that it stopped and return
    without looking at what it read; later reads find no listener.  A read
    that is taken by the handshake branch is handled before the stop check:
    the listener keeps running and the signal stays in the channel. *)
Theorem listener_stops_on_signal (w : World) (buff0 : list Z) (s : bool)
    (rest : list bool) (r : ReadResult) :
  listener w = Some buff0 ->
  List.length buff0 = 4096%nat ->
  ctrlStopChan (tello w) = Some (s :: rest) ->
  (handshakeRead (tello w) r = false ->
   exists w',
     listenerIter r w = Ret tt w' /\
     listener w' = None /\
     tello w' = set_ctrlStopChan (Some rest) (tello w) /\
     logsOf (trace w') = logsOf (trace w) ++ [LogListenerStopped] /\
     forall rs, controlResponseListener rs w' = Ret tt w') /\
  (handshakeRead (tello w) r = true ->
   exists w' buff,
     listenerIter r w = Ret tt w' /\
     listener w' = Some buff /\
     ctrlStopChan (tello w') = Some (s :: rest)).
Proof.
  intros Hl Hlen Hstop. split.
  - intros Hh.
    assert (Hbody : forall n err buff w1,
              tello w1 = tello w -> trace w1 = trace w ->
              ctrlConnecting (tello w) && (n =? 11) = false ->
              listenerBody n err buff w1 =
                Ret tt (mkWorld (set_ctrlStopChan (Some rest) (tello w))
                          (trace w ++ [EvLog LogListenerStopped]) None)).
    { intros n err buff [t1 tr1 l1] Ht Htr Hb. cbn [tello trace] in Ht, Htr. subst t1 tr1.
      unfold listenerBody. run. cbn [tello trace listener].
      rewrite Hb, Hstop. reflexivity. }
    assert (Hres : listenerIter r w =
              Ret tt (mkWorld (set_ctrlStopChan (Some rest) (tello w))
                        (trace w ++ [EvLog LogListenerStopped]) None)).
    { unfold listenerIter. rewrite Hl. destruct r as [d | e].
      - destruct (readInto buff0 d) as [n buff] eqn:Hri. run.
        apply Hbody; try reflexivity.
        pose proof (readInto_length buff0 d) as Hn. rewrite Hri in Hn. cbn [fst] in Hn.
        cbn in Hh. destruct (ctrlConnecting (tello w)); [| reflexivity].
        cbn in *. apply Nat.eqb_neq in Hh. apply Z.eqb_neq. lia.
      - apply Hbody; try reflexivity. apply andb_false_r. }
    eexists. split; [exact Hres |]. split; [reflexivity |]. split; [reflexivity |].
    split; [cbn [trace]; rewrite logsOf_app; reflexivity |].
    intros rs. now apply controlResponseListener_stopped.
  - intros Hh. destruct r as [d | e]; [| discriminate Hh].
    cbn in Hh. apply andb_prop in Hh as [Hc Hd]. apply Nat.eqb_eq in Hd.
    unfold listenerIter. rewrite Hl, readInto_fits by lia. rewrite Hd.
    unfold listenerBody. run. cbn [tello]. rewrite Hc.
    cbn [andb Z.of_nat Pos.of_succ_nat Pos.succ Z.eqb].
    destruct (ContainsAny (d ++ skipn 11 buff0) connAckChars);
      do 2 eexists; (split; [reflexivity |]); split; try reflexivity; exact Hstop.
Qed.
End ListenerStop.

Section ConnectSuccess.
Context `{Protocol} `{Net}.

Lemma controlResponseListener_app rs1 rs2 w :
  controlResponseListener (rs1 ++ rs2) w =
    (controlResponseListener rs1 ;; controlResponseListener rs2) w.
Proof.
  revert w. induction rs1 as [| r rs1 IH]; intros w; [reflexivity |].
  cbn [app controlResponseListener]. unfold bind.
  destruct (listenerIter r w) as [a w1 | w1 | w1 | msg w1]; try reflexivity.
  rewrite IH. reflexivity.
Qed.

Lemma quiet_then_ack c pre d w :
  waiting c w -> Forall quiet pre -> acknowledging d ->
  exists w', controlResponseListener (pre ++ [Received d]) w = Ret tt w' /\
             acknowledged 0 w w'.
Proof.
  intros Hw Hq (Hd & Hany).
  destruct (controlResponseListener_quiet c pre w Hw Hq) as (w1 & Hrun & Hw1 & Hi).
  pose proof (controlResponseListener_listened pre w) as (_ & (ls & Htr) & _).
  rewrite Hrun in Htr. cbn [finalWorld] in Htr.
  destruct Hw1 as (Hcing & Hced & Hstop & Hconn & buff & Hl & Hlen & Hno).
  destruct Hi as (Ht & Hwr & Hcl & Hsl).
  rewrite controlResponseListener_app. unfold bind at 1. rewrite Hrun.
  cbn [controlResponseListener]. unfold bind at 1.
  rewrite (handshake_accepts w1 buff d Hcing Hl Hlen Hd).
  2:{ rewrite ContainsAny_app, Hany. reflexivity. }
  eexists. split; [reflexivity |].
  unfold acknowledged. cbn [tello trace listener].
  rewrite Ht, writesOf_app, closesOf_app, goroutinesOf_app, sleepsOf_app, Hwr, Hcl, Hsl.
  rewrite Htr, goroutinesOf_logs. cbn. rewrite !app_nil_r.
  repeat split; eauto.
Qed.

Lemma awaitConnected_done arrivals polls t w :
  ctrlConnected (tello w) = true -> awaitConnected arrivals polls t w = Ret tt w.
Proof.
  intros Hc. destruct polls; [reflexivity |].
  cbn [awaitConnected]. run. now rewrite Hc.
Qed.

Lemma acknowledged_connected n w w' : acknowledged n w w' -> ctrlConnected (tello w') = true.
Proof. intros (Ht & _). rewrite Ht. reflexivity. Qed.

Lemma idled_acknowledged n m w1 w2 w3 :
  idled n w1 w2 -> goroutinesOf (trace w2) = goroutinesOf (trace w1) ->
  acknowledged m w2 w3 -> acknowledged (n + m) w1 w3.
Proof.
  intros (A1 & A2 & A3 & A4) Ag (B1 & B2 & B3 & B4 & B5 & B6).
  unfold acknowledged. rewrite B1, B2, B3, B4, B5, A1, A2, A3, A4, Ag.
  rewrite <- app_assoc, repeat_app. repeat split; auto.
Qed.

Lemma awaitConnected_until arrivals c k pre d polls : forall t w,
  waiting c w ->
  (forall j, (t < j < k)%nat -> Forall quiet (arrivals j)) ->
  (t < k <= t + polls)%nat ->
  arrivals k = pre ++ [Received d] -> Forall quiet pre -> acknowledging d ->
  exists w', awaitConnected arrivals polls t w = Ret tt w' /\
             acknowledged (k - t) w w'.
Proof.
  induction polls as [| p IH]; intros t w Hw Hq Hk Hak Hpre Hd; [lia |].
  cbn [awaitConnected]. run.
  destruct Hw as (Hcing & Hced & Hrest). rewrite Hced.
  set (w1 := mkWorld (tello w) (trace w ++ [EvSleep 333]) (listener w)).
  assert (Hw1 : waiting c w1) by (unfold waiting, w1; cbn; auto).
  assert (Hi1 : idled 1 w w1).
  { unfold idled, w1. cbn. rewrite writesOf_app, closesOf_app, sleepsOf_app. cbn.
    rewrite !app_nil_r. auto. }
  assert (Hg1 : goroutinesOf (trace w1) = goroutinesOf (trace w)).
  { unfold w1. cbn. rewrite goroutinesOf_app. cbn. apply app_nil_r. }
  destruct (Nat.eq_dec (S t) k) as [E | N].
  - subst k. rewrite Hak.
    destruct (quiet_then_ack c pre d w1 Hw1 Hpre Hd) as (w2 & Hrun2 & Hack).
    rewrite Hrun2.
    rewrite (awaitConnected_done arrivals p (S t) w2 (acknowledged_connected _ _ _ Hack)).
    exists w2. split; [reflexivity |].
    replace (S t - t)%nat with (1 + 0)%nat by lia.
    exact (idled_acknowledged 1 0 w w1 w2 Hi1 Hg1 Hack).
  - destruct (controlResponseListener_quiet c (arrivals (S t)) w1 Hw1 (Hq (S t) ltac:(lia)))
      as (w2 & Hrun2 & Hw2 & Hi2).
    pose proof (controlResponseListener_listened (arrivals (S t)) w1) as (_ & (ls & Htr) & _).
    rewrite Hrun2 in Htr |- *. cbn [finalWorld] in Htr.
    assert (Hg2 : goroutinesOf (trace w2) = goroutinesOf (trace w)).
    { rewrite Htr, goroutinesOf_logs. exact Hg1. }
    destruct (IH (S t) w2 Hw2) as (w3 & Hrun3 & Hack); auto; try lia.
    { intros j Hj. apply Hq. lia. }
    rewrite Hrun3. exists w3. split; [reflexivity |].
    replace (k - t)%nat with (1 + 0 + (k - S t))%nat by lia.
    exact (idled_acknowledged _ _ w w2 w3 (idled_trans _ _ _ _ _ Hi1 Hi2) Hg2 Hack).
Qed.

(** X4.  On an idle link whose addresses resolve and whose dial succeeds, if
    the listener reads an acknowledgment (11 bytes holding a marker character)
    before the first poll or during the sleep after one of the first 10 polls
    (poll k, after reads that are errors or 11 bytes without marker
    characters), [ControlConnect] returns a stick channel and no error: the
    link is connected with an empty stop channel and an empty stick channel,
    it has slept k times 333 ms, written the connect request once, closed
    nothing, and started the listener, the keepalive and the stick listener in
    that order. *)
Theorem ControlConnect_success
    (arrivals : nat -> list ReadResult) (udpAddr : string)
    (droneUDPPort localUDPPort : Z) (w : World)
    (droneAddr localAddr : UDPAddr) (c : UDPConn)
    (k : nat) (pre : list ReadResult) (d : list Z) :
  phase (tello w) = Idle ->
  ResolveUDPAddr "udp" (udpAddr ++ ":" ++ Itoa droneUDPPort) = inl droneAddr ->
  ResolveUDPAddr "udp" (":" ++ Itoa localUDPPort) = inl localAddr ->
  DialUDP "udp" localAddr droneAddr = inl c ->
  (k <= 10)%nat ->
  (forall j, (j < k)%nat -> Forall quiet (arrivals j)) ->
  arrivals k = pre ++ [Received d] -> Forall quiet pre -> acknowledging d ->
  exists w',
    ControlConnect arrivals udpAddr droneUDPPort localUDPPort w
      = Ret (Some [], None) w' /\
    tello w' = set_stickChan (Some [])
                 (set_ctrlConnected true
                    (set_ctrlStopChan (Some []) (set_ctrlConn (Some c) (tello w)))) /\
    phase (tello w') = Connected /\
    sleepsOf (trace w') = sleepsOf (trace w) ++ repeat 333 k /\
    writesOf (trace w') =
      writesOf (trace w) ++ [Raw (connectRequest defaultTelloVideoPort)] /\
    goroutinesOf (trace w') =
      goroutinesOf (trace w) ++ [GoControlResponseListener; GoKeepAlive; GoStickListener] /\
    closesOf (trace w') = closesOf (trace w).
Proof.
  intros Hph Hr1 Hr2 Hdial Hk Hq Hak Hpre Hd.
  assert (Hflags : ctrlConnected (tello w) = false /\ ctrlConnecting (tello w) = false).
  { unfold phase in Hph.
    destruct (ctrlConnected (tello w)), (ctrlConnecting (tello w)); try discriminate; auto. }
  destruct Hflags as [Hced Hcing].
  unfold ControlConnect, startListener, sendConnectRequest. run.
  rewrite Hced, Hcing. cbn [tello trace listener].
  rewrite Hr1, Hr2, Hdial.
  cbn [tello trace listener ctrlConn set_ctrlConn set_ctrlStopChan set_ctrlConnecting].
  match goal with |- context [controlResponseListener _ ?w0] => set (w1 := w0) end.
  assert (Hw1 : waiting c w1).
  { unfold waiting, w1. cbn [tello listener].
    split; [reflexivity |]. split; [exact Hced |].
    split; [reflexivity |]. split; [reflexivity |].
    eexists. split; [reflexivity |]. split; [apply repeat_length |].
    apply ContainsAny_zeros. reflexivity. }
  assert (Hack : exists w3,
            (controlResponseListener (arrivals 0%nat) ;; awaitConnected arrivals 10 0) w1
              = Ret tt w3 /\ acknowledged k w1 w3).
  { destruct k as [| k'].
    - destruct (quiet_then_ack c pre d w1 Hw1 Hpre Hd) as (w2 & Hrun2 & Hack).
      unfold bind. rewrite Hak, Hrun2.
      rewrite (awaitConnected_done arrivals 10%nat 0%nat w2 (acknowledged_connected _ _ _ Hack)).
      eauto.
    - destruct (controlResponseListener_quiet c (arrivals 0%nat) w1 Hw1 (Hq 0%nat ltac:(lia)))
        as (w2 & Hrun2 & Hw2 & Hi2).
      pose proof (controlResponseListener_listened (arrivals 0%nat) w1) as (_ & (ls & Htr) & _).
      unfold bind. rewrite Hrun2 in Htr |- *. cbn [finalWorld] in Htr.
      destruct (awaitConnected_until arrivals c (S k') pre d 10%nat 0%nat w2 Hw2)
        as (w3 & Hrun3 & Hack); auto; try lia.
      { intros j Hj. apply Hq. lia. }
      rewrite Hrun3. exists w3. split; [reflexivity |].
      replace (S k') with (0 + (S k' - 0))%nat by lia.
      apply (idled_acknowledged _ _ w1 w2 w3 Hi2); [| exact Hack].
      rewrite Htr. apply goroutinesOf_logs. }
  destruct Hack as (w3 & Hrun & (Ht & Hwr & Hcl & Hgo & Hsl & Hbuf)).
  unfold bind in Hrun.
  destruct (controlResponseListener (arrivals 0%nat) w1) as [[] w2 | | |]; try discriminate Hrun.
  rewrite Hrun. rewrite Ht. cbn [ctrlConnected set_ctrlConnected negb tello trace listener].
  eexists. split; [reflexivity |]. cbn [tello trace].
  split.
  { rewrite Ht. unfold w1. cbn [tello]. clear -Hcing.
    destruct (tello w). cbn in Hcing |- *. subst. reflexivity. }
  split; [rewrite Ht; reflexivity |].
  rewrite !sleepsOf_app, !writesOf_app, !goroutinesOf_app, !closesOf_app, Hsl, Hwr, Hgo, Hcl.
  unfold w1. cbn [trace].
  rewrite !sleepsOf_app, !writesOf_app, !goroutinesOf_app, !closesOf_app. cbn.
  rewrite !app_nil_r, <- !app_assoc. repeat split; reflexivity.
Qed.
End ConnectSuccess.

(** A wifi frame on a link being disconnected; eleven bytes during a
    handshake being disconnected. *)
Lemma listener_stops_on_signal_witness :
  (exists w',
     @listenerIter exampleProtocol (Received wifiFrame) stoppingWorld = Ret tt w' /\
     listener w' = None /\
     fd (tello w') = fd (tello stoppingWorld)) /\
  (exists w' buff,
     @listenerIter exampleProtocol (Received (bytesOf "HELLO WORLD")) stoppingHandshake
       = Ret tt w' /\
     listener w' = Some buff /\
     ctrlStopChan (tello w') = Some [true]).
Proof.
  split.
  - destruct (proj1 (@listener_stops_on_signal exampleProtocol stoppingWorld
                       (repeat 0 4096) true [] (Received wifiFrame)
                       eq_refl (repeat_length 0 4096) eq_refl) eq_refl)
      as (w' & Hrun & Hl & Ht & _).
    exists w'. split; [exact Hrun |]. split; [exact Hl |]. rewrite Ht. reflexivity.
  - exact (proj2 (@listener_stops_on_signal exampleProtocol stoppingHandshake
                    (repeat 0 4096) true [] (Received (bytesOf "HELLO WORLD"))
                    eq_refl (repeat_length 0 4096) eq_refl) eq_refl).
Defined.

(** The acknowledgment arrives during the third sleep. *)
Lemma ControlConnect_success_witness :
  exists w',
    @ControlConnectDefault exampleProtocol exampleNet answerAfterThreePolls
      (freshWorld zeroTello) = Ret (Some [], None) w' /\
    phase (tello w') = Connected /\
    sleepsOf (trace w') = [333; 333; 333] /\
    goroutinesOf (trace w') = [GoControlResponseListener; GoKeepAlive; GoStickListener].
Proof.
  destruct (@ControlConnect_success exampleProtocol exampleNet answerAfterThreePolls
              defaultTelloAddr defaultTelloControlPort defaultLocalControlPort
              (freshWorld zeroTello) "192.168.10.1:8889"%string ":8800"%string
              exampleConn 3%nat [] (bytesOf "conn_ack:" ++ [150; 23])
              eq_refl eq_refl eq_refl eq_refl)
    as (w' & Hrun & _ & Hphase & Hsleeps & _ & Hgo & _).
  - lia.
  - intros j Hj. destruct j as [| [| [| j]]]; [constructor .. | lia].
  - reflexivity.
  - constructor.
  - split; reflexivity.
  - exists w'. split; [exact Hrun |]. split; [exact Hphase |].
    split; [exact Hsleeps | exact Hgo].
Defined.

(** ** Set-up failures and disconnecting *)

Section ConnectFailure.
Context `{Protocol} `{Net}.

(** X5.  On an idle link, when resolving the drone address, resolving the
    local address or dialling fails with [e], [ControlConnect] returns [e]
    and no channel; the link stays idle, no listener is started, nothing is
    written and nothing sleeps; the struct is unchanged, except that a failed
    dial sets [ctrlConn] to nil. *)
Theorem ControlConnect_setup_failure
    (arrivals : nat -> list ReadResult) (udpAddr : string)
    (droneUDPPort localUDPPort : Z) (w : World) (e : error) (dialled : bool) :
  phase (tello w) = Idle ->
  setupFailure udpAddr droneUDPPort localUDPPort e dialled ->
  exists w',
    ControlConnect arrivals udpAddr droneUDPPort localUDPPort w
      = Ret (None, Some e) w' /\
    tello w' = (if dialled then set_ctrlConn None (tello w) else tello w) /\
    phase (tello w') = Idle /\
    listener w' = listener w /\
    writesOf (trace w') = writesOf (trace w) /\
    goroutinesOf (trace w') = goroutinesOf (trace w) /\
    sleepsOf (trace w') = sleepsOf (trace w).
Proof.
  intros Hph Hf.
  assert (Hflags : ctrlConnected (tello w) = false /\ ctrlConnecting (tello w) = false).
  { unfold phase in Hph.
    destruct (ctrlConnected (tello w)), (ctrlConnecting (tello w)); try discriminate; auto. }
  destruct Hflags as [Hced Hcing].
  unfold setupFailure in Hf. unfold ControlConnect. run. rewrite Hced, Hcing.
  cbn [tello trace listener].
  destruct (ResolveUDPAddr "udp" (udpAddr ++ ":" ++ Itoa droneUDPPort)) as [droneAddr | e1].
  - destruct (ResolveUDPAddr "udp" (":" ++ Itoa localUDPPort)) as [localAddr | e2].
    + destruct Hf as [Hd ->]. rewrite Hd. cbn [tello trace listener].
      eexists. split; [reflexivity |]. cbn [tello trace listener].
      rewrite !writesOf_app, !goroutinesOf_app, !sleepsOf_app. cbn.
      rewrite !app_nil_r. repeat split; try reflexivity.
      unfold phase. cbn. now rewrite Hced, Hcing.
    + destruct Hf as [-> ->].
      eexists. split; [reflexivity |]. cbn [tello trace listener].
      rewrite !writesOf_app, !goroutinesOf_app, !sleepsOf_app. cbn.
      rewrite !app_nil_r. repeat split; try reflexivity. exact Hph.
  - destruct Hf as [-> ->].
    eexists. split; [reflexivity |]. cbn [tello trace listener].
    rewrite !writesOf_app, !goroutinesOf_app, !sleepsOf_app. cbn.
    rewrite !app_nil_r. repeat split; try reflexivity. exact Hph.
Qed.
End ConnectFailure.

Section Disconnect.
Context `{Protocol} `{Net}.

(** X12.  On a link that is not handshaking, with an empty stop channel, an
    open socket and a running listener, [ControlDisconnect] returns with the
    signal queued and the listener still running; the listener's next read,
    whatever it is, stops it.  Then the struct differs from the initial one
    only by [ctrlConnected] being unset, the phase is idle, the socket was
    closed once and nothing was written. *)
Theorem disconnect_stops_listener (w : World) (c : UDPConn) (buff0 : list Z)
    (r : ReadResult) :
  ctrlConnecting (tello w) = false ->
  ctrlStopChan (tello w) = Some [] ->
  ctrlConn (tello w) = Some c ->
  listener w = Some buff0 ->
  exists w1 w2,
    ControlDisconnect w = Ret tt w1 /\
    listener w1 = Some buff0 /\
    stopPending (tello w1) = true /\
    listenerIter r w1 = Ret tt w2 /\
    listener w2 = None /\
    tello w2 = set_ctrlConnected false (tello w) /\
    phase (tello w2) = Idle /\
    closesOf (trace w2) = closesOf (trace w) ++ [c] /\
    writesOf (trace w2) = writesOf (trace w) /\
    logsOf (trace w2) = logsOf (trace w) ++ [LogListenerStopped].
Proof.
  intros Hcing Hstop Hconn Hl.
  unfold ControlDisconnect. run. rewrite Hstop, Hconn. cbn [List.length Nat.leb app].
  do 2 eexists. split; [reflexivity |].
  split; [exact Hl |]. split; [reflexivity |].
  unfold listenerIter. cbn [listener]. rewrite Hl.
  assert (Hbody : forall n err buff l,
    listenerBody n err buff
      (mkWorld (set_ctrlConnected false (set_ctrlStopChan (Some [true]) (tello w)))
               (trace w ++ [EvClose c]) l)
    = Ret tt (mkWorld (set_ctrlConnected false (tello w))
                ((trace w ++ [EvClose c]) ++ [EvLog LogListenerStopped]) None)).
  { intros n err buff l. unfold listenerBody. run. cbn [tello trace listener].
    cbn [ctrlConnecting set_ctrlConnected set_ctrlStopChan ctrlStopChan].
    rewrite Hcing. cbn [andb]. f_equal. f_equal.
    destruct (tello w). cbn in Hstop |- *. subst. reflexivity. }
  split.
  { destruct r as [d | e].
    - destruct (readInto buff0 d) as [n buff]. run. apply Hbody.
    - apply Hbody. }
  cbn [tello trace listener].
  rewrite !closesOf_app, !writesOf_app, !logsOf_app. cbn. rewrite !app_nil_r.
  repeat split; try reflexivity.
  unfold phase. cbn. now rewrite Hcing.
Qed.

(** X13.  [ControlDisconnect] does not end a handshake: called while the link
    waits for the acknowledgment it closes the socket and leaves the phase
    handshaking, so [ControlConnect] is still refused as a connection attempt
    in progress.  The read that then fails on the closed socket makes the
    listener take the stop signal and return: the struct is as it was before
    the disconnect, the phase is still handshaking, no listener is left to
    end the handshake, and [ControlConnect] stays refused. *)
Theorem disconnect_while_handshaking (w : World) (c : UDPConn) :
  waiting c w ->
  exists w1,
    ControlDisconnect w = Ret tt w1 /\
    phase (tello w1) = Handshaking /\
    closesOf (trace w1) = closesOf (trace w) ++ [c] /\
    (forall arrivals udpAddr droneUDPPort localUDPPort,
       ControlConnect arrivals udpAddr droneUDPPort localUDPPort w1
         = Ret (None, Some errConnectInProgress) w1) /\
    (forall e,
       exists w2, listenerIter (ReadFailed e) w1 = Ret tt w2 /\
                  listener w2 = None /\
                  tello w2 = tello w /\
                  phase (tello w2) = Handshaking /\
                  closesOf (trace w2) = closesOf (trace w) ++ [c] /\
                  logsOf (trace w2) = logsOf (trace w) ++ [LogListenerStopped] /\
                  (forall rs, controlResponseListener rs w2 = Ret tt w2) /\
                  (forall arrivals udpAddr droneUDPPort localUDPPort,
                     ControlConnect arrivals udpAddr droneUDPPort localUDPPort w2
                       = Ret (None, Some errConnectInProgress) w2)).
Proof.
  intros (Hcing & Hced & Hstop & Hconn & buff & Hl & Hlen & Hno).
  unfold ControlDisconnect. run. rewrite Hstop, Hconn. cbn [List.length Nat.leb app].
  eexists. split; [reflexivity |]. cbn [tello trace listener].
  split; [unfold phase; cbn; now rewrite Hcing |].
  split; [rewrite closesOf_app; reflexivity |].
  split.
  - intros arrivals udpAddr p1 p2. unfold ControlConnect. run. cbn [tello].
    cbn [ctrlConnected ctrlConnecting set_ctrlConnected set_ctrlStopChan].
    rewrite Hcing. reflexivity.
  - intros e. unfold listenerIter. cbn [listener]. rewrite Hl.
    unfold listenerBody. run. cbn [tello trace listener].
    cbn [ctrlConnecting ctrlStopChan set_ctrlConnected set_ctrlStopChan].
    rewrite Hcing. cbn [andb Z.eqb].
    assert (Ht : set_ctrlStopChan (Some [])
                   (set_ctrlConnected false (set_ctrlStopChan (Some [true]) (tello w)))
                 = tello w).
    { clear - Hced Hstop. destruct (tello w). cbn in Hced, Hstop |- *. now subst. }
    eexists. split; [reflexivity |]. cbn [tello trace listener]. rewrite Ht.
    split; [reflexivity |]. split; [reflexivity |].
    split; [unfold phase; now rewrite Hced, Hcing |].
    split; [rewrite !closesOf_app; cbn; rewrite ?app_nil_r; reflexivity |].
    split; [rewrite !logsOf_app; cbn; rewrite ?app_nil_r; reflexivity |].
    split.
    + intros rs. now apply controlResponseListener_stopped.
    + intros arrivals udpAddr p1 p2. unfold ControlConnect. run. cbn [tello].
      rewrite Hced, Hcing. reflexivity.
Qed.

Lemma ControlDisconnect_full (w : World) :
  match ctrlStopChan (tello w) with
  | None => True
  | Some q => (2 <= List.length q)%nat
  end ->
  ControlDisconnect w = Blocked w.
Proof.
  intros Hq. unfold ControlDisconnect. run.
  destruct (ctrlStopChan (tello w)) as [q |]; [| reflexivity].
  apply Nat.leb_le in Hq. now rewrite Hq.
Qed.

Lemma disconnects_S (k : nat) (w : World) :
  disconnects (S k) w = (ControlDisconnect ;; disconnects k) w.
Proof. reflexivity. Qed.

(** X14.  [ControlDisconnect] blocks on its channel send, before it closes
    anything, when the stop channel is nil (the instance never dialled); and
    when the listener takes no signal, the calls that find room in the channel
    (capacity 2) each close the socket again and the next call blocks. *)
Theorem ControlDisconnect_blocks (w : World) :
  (ctrlStopChan (tello w) = None -> ControlDisconnect w = Blocked w) /\
  (forall q c,
     ctrlStopChan (tello w) = Some q -> (List.length q <= 2)%nat ->
     ctrlConn (tello w) = Some c ->
     let n := (2 - List.length q)%nat in
     exists w',
       disconnects (S n) w = Blocked w' /\
       ctrlStopChan (tello w') = Some (q ++ repeat true n) /\
       closesOf (trace w') = closesOf (trace w) ++ repeat c n /\
       writesOf (trace w') = writesOf (trace w) /\
       (n <> 0%nat -> ctrlConnected (tello w') = false)).
Proof.
  split.
  - intros Hn. apply ControlDisconnect_full. now rewrite Hn.
  - intros q c Hq Hlen Hc n. subst n.
    remember (2 - List.length q)%nat as n eqn:En.
    revert w q Hq Hlen Hc En.
    induction n as [| n IH]; intros w q Hq Hlen Hc En.
    + cbn [disconnects]. unfold bind.
      rewrite ControlDisconnect_full by (rewrite Hq; lia).
      exists w. cbn. rewrite !app_nil_r. repeat split; auto. congruence.
    + rewrite disconnects_S.
      unfold ControlDisconnect at 1. run. rewrite Hq, Hc.
      assert (Hlt : (2 <=? List.length q)%nat = false) by (apply Nat.leb_gt; lia).
      rewrite Hlt. cbv beta iota. cbn [tello trace listener].
      match goal with |- context [disconnects _ ?w0] => set (w1 := w0) end.
      destruct (IH w1 (q ++ [true])) as (w' & Hrun & Hs & Hcl & Hwr & Hced).
      * reflexivity.
      * rewrite length_app; cbn [List.length]; lia.
      * exact Hc.
      * rewrite length_app; cbn [List.length]; lia.
      * exists w'. split; [exact Hrun |].
        rewrite Hs, Hcl, Hwr. unfold w1. cbn [trace].
        rewrite closesOf_app, writesOf_app, <- !app_assoc. cbn. rewrite app_nil_r.
        repeat split; try reflexivity.
        intros _. destruct n as [| n'].
        -- cbn [disconnects] in Hrun. unfold bind in Hrun.
           rewrite ControlDisconnect_full in Hrun
             by (cbn [tello w1 ctrlStopChan set_ctrlConnected set_ctrlStopChan];
                 rewrite length_app; cbn; lia).
           injection Hrun as <-. reflexivity.
        -- apply Hced. discriminate.
Qed.
End Disconnect.

(** No name resolves. *)
Lemma ControlConnect_setup_failure_witness :
  exists w',
    @ControlConnectDefault exampleProtocol deadNet silence (freshWorld zeroTello)
      = Ret (None, Some "no such host"%string) w' /\
    tello w' = zeroTello /\ listener w' = None /\ writesOf (trace w') = [].
Proof.
  destruct (@ControlConnect_setup_failure exampleProtocol deadNet silence
              defaultTelloAddr defaultTelloControlPort defaultLocalControlPort
              (freshWorld zeroTello) "no such host"%string false
              eq_refl (conj eq_refl eq_refl))
    as (w' & Hrun & Ht & _ & Hl & Hwr & _).
  exists w'. split; [exact Hrun |]. split; [exact Ht |].
  split; [exact Hl | exact Hwr].
Defined.

(** Disconnect, then a wifi frame arrives. *)
Lemma disconnect_stops_listener_witness :
  exists w1 w2,
    ControlDisconnect connectedWorld = Ret tt w1 /\
    @listenerIter exampleProtocol (Received wifiFrame) w1 = Ret tt w2 /\
    listener w2 = None /\ phase (tello w2) = Idle /\
    closesOf (trace w2) = [exampleConn].
Proof.
  destruct (@disconnect_stops_listener exampleProtocol connectedWorld exampleConn
              (repeat 0 4096) (Received wifiFrame) eq_refl eq_refl eq_refl eq_refl)
    as (w1 & w2 & Hd & _ & _ & Hrun & Hl & _ & Hph & Hcl & _).
  exists w1, w2. repeat (split; [assumption |]). exact Hcl.
Defined.

(** Disconnect while the answer is awaited, then the read on the closed
    socket fails. *)
Lemma disconnect_while_handshaking_witness :
  exists w1,
    ControlDisconnect handshakingWorld = Ret tt w1 /\
    phase (tello w1) = Handshaking /\
    @ControlConnectDefault exampleProtocol exampleNet silence w1
      = Ret (None, Some errConnectInProgress) w1 /\
    exists w2,
      @listenerIter exampleProtocol
        (ReadFailed "use of closed network connection"%string) w1 = Ret tt w2 /\
      listener w2 = None /\
      phase (tello w2) = Handshaking /\
      closesOf (trace w2) = [exampleConn] /\
      @ControlConnectDefault exampleProtocol exampleNet silence w2
        = Ret (None, Some errConnectInProgress) w2.
Proof.
  destruct (@disconnect_while_handshaking exampleProtocol exampleNet
              handshakingWorld exampleConn)
    as (w1 & Hd & Hph & _ & Hguard & Hlate).
  - split; [reflexivity |]. split; [reflexivity |]. split; [reflexivity |].
    split; [reflexivity |]. exists (repeat 0 4096).
    split; [reflexivity |]. split; reflexivity.
  - exists w1. split; [exact Hd |]. split; [exact Hph |].
    split; [apply Hguard |].
    destruct (Hlate "use of closed network connection"%string)
      as (w2 & Hrun & Hl2 & _ & Hph2 & Hcl & _ & _ & Hguard2).
    exists w2. split; [exact Hrun |]. split; [exact Hl2 |].
    split; [exact Hph2 |]. split; [exact Hcl | apply Hguard2].
Defined.

(** Never connected; and three calls in a row on an established link. *)
Lemma ControlDisconnect_blocks_witness :
  ControlDisconnect (freshWorld zeroTello) = Blocked (freshWorld zeroTello) /\
  exists w',
    disconnects 3 connectedWorld = Blocked w' /\
    ctrlStopChan (tello w') = Some [true; true] /\
    closesOf (trace w') = [exampleConn; exampleConn].
Proof.
  split.
  - apply (proj1 (ControlDisconnect_blocks (freshWorld zeroTello))). reflexivity.
  - destruct (proj2 (ControlDisconnect_blocks connectedWorld) [] exampleConn
                eq_refl (proj1 (Nat.leb_le 0 2) eq_refl) eq_refl)
      as (w' & Hrun & Hs & Hcl & _).
    exists w'. split; [exact Hrun |]. split; [exact Hs | exact Hcl].
Defined.

(** ** Stick payload, stick listener and keepalive *)

Lemma le_bytes_ext n : forall x y,
  (forall i, 0 <= i < 8 * Z.of_nat n -> Z.testbit x i = Z.testbit y i) ->
  le_bytes n x = le_bytes n y.
Proof.
  induction n as [| n IH]; intros x y Hb; [reflexivity |].
  cbn [le_bytes]. f_equal.
  - unfold byte_of, wrap. apply Z.bits_inj'. intros i Hi.
    destruct (Z.ltb_spec i 8).
    + rewrite !Z.mod_pow2_bits_low by lia. apply Hb. lia.
    + rewrite !Z.mod_pow2_bits_high by lia. reflexivity.
  - apply IH. intros i Hi. rewrite !Z.shiftr_spec by lia. apply Hb. lia.
Qed.

Section Sticks.
Context `{Platform} `{Protocol}.

(** X15.  The payload of a stick update has 11 bytes, each in 0..255; bytes 0-5
    are the packed word modulo 2^48 and bytes 9-10 are the Unix time in
    milliseconds modulo 2^16, both least significant byte first. *)
Theorem stickPayload_layout (t : Tello) (now : Clock) :
  List.length (stickPayload t now) = 11%nat /\
  Forall (fun b => 0 <= b < 256) (stickPayload t now) /\
  le_value (firstn 6 (stickPayload t now)) = packedAxes t mod 2 ^ 48 /\
  le_value (skipn 9 (stickPayload t now)) =
    Z.quot (UnixNano now) 1000000 mod 2 ^ 16.
Proof.
  split; [reflexivity |]. split; [| split].
  - unfold stickPayload. repeat constructor; apply (wrap_range 8); lia.
  - rewrite payload_low_bytes, le_value_le_bytes. reflexivity.
  - unfold stickPayload. cbn [skipn le_value].
    set (ms := Z.quot (UnixNano now) 1000000).
    unfold byte_of, wrap.
    change 0xff with (Z.ones 8). rewrite Z.land_ones, Z.shiftr_div_pow2 by lia.
    rewrite Z.mod_mod by lia.
    change (2 ^ 16) with (2 ^ 8 * 2 ^ 8).
    rewrite Z.rem_mul_r by lia. change (2 ^ 8) with 256. lia.
Qed.

(** X16.  Of the throttle value placed at bit 44 only the four low bits reach
    the payload: two stick states with the same four axes whose throttle
    values agree modulo 16 give the same payload bytes 0-5. *)
Theorem throttle_low_bits_sent (t t' : Tello) (now : Clock) :
  ctrlRx t = ctrlRx t' -> ctrlRy t = ctrlRy t' ->
  ctrlLx t = ctrlLx t' -> ctrlLy t = ctrlLy t' ->
  throttleBits t mod 16 = throttleBits t' mod 16 ->
  firstn 6 (stickPayload t now) = firstn 6 (stickPayload t' now).
Proof.
  intros Hrx Hry Hlx Hly Hth.
  rewrite !payload_low_bytes. apply le_bytes_ext. intros i Hi.
  rewrite !packedAxes_bits. rewrite Hrx, Hry, Hlx, Hly.
  fold (throttleBits t). fold (throttleBits t').
  f_equal. f_equal. f_equal.
  destruct (Z.ltb_spec (i - 44) 0) as [Hneg | Hpos].
  - rewrite !Z.testbit_neg_r by lia. reflexivity.
  - rewrite <- (Z.mod_pow2_bits_low (throttleBits t) 4) by lia.
    rewrite <- (Z.mod_pow2_bits_low (throttleBits t') 4) by lia.
    change (2 ^ 4) with 16. now rewrite Hth.
Qed.

Lemma stickListenerIter_spec sm w :
  stickListenerIter sm w = Ret tt (mkWorld (sticksOf sm (tello w)) (trace w) (listener w)).
Proof. reflexivity. Qed.

(** X17.  After the stick listener has taken any number of messages from the
    channel, the five stick fields are those of the last message, stored as
    received; nothing else of the state changes and nothing is sent. *)
Theorem stickListener_last_wins (sms : list StickMessage) (sm : StickMessage) (w : World) :
  stickListener (sms ++ [sm]) w =
    Ret tt (mkWorld (sticksOf sm (tello w)) (trace w) (listener w)).
Proof.
  revert w. induction sms as [| sm0 sms IH]; intros w; [reflexivity |].
  cbn [app stickListener]. unfold bind. rewrite stickListenerIter_spec, IH.
  reflexivity.
Qed.

(** X18.  Whatever the sticks were, the stick update that follows [Hover] on an
    open socket carries the centre position: all five 11-bit fields of the
    packed word are 1024 and payload bytes 0-5 are 00 04 20 00 01 08. *)
Theorem Hover_then_update_sends_centre (w : World) (c : UDPConn) (now : Clock) :
  ctrlConn (tello w) = Some c ->
  exists p,
    (Hover ;; sendStickUpdate now) w =
      Ret tt (mkWorld (hovered (tello w)) (trace w ++ [EvWrite c (Framed p)]) (listener w)) /\
    firstn 6 (payload p) = [0; 4; 32; 0; 1; 8] /\
    field 0 11 (packedAxes (hovered (tello w))) = 1024 /\
    field 11 11 (packedAxes (hovered (tello w))) = 1024 /\
    field 22 11 (packedAxes (hovered (tello w))) = 1024 /\
    field 33 11 (packedAxes (hovered (tello w))) = 1024 /\
    field 44 11 (packedAxes (hovered (tello w))) = 1024.
Proof.
  intros Hc.
  assert (Hp : packedAxes (hovered (tello w)) = 18023198899569664).
  { unfold packedAxes, hovered. cbn [ctrlRx ctrlRy ctrlLx ctrlLy ctrlThrottle
      set_ctrlRx set_ctrlRy set_ctrlLx set_ctrlLy set_ctrlThrottle].
    rewrite jsFloatToTello_zero.
    replace (throttleDeadband <? 0)%float with false by reflexivity.
    reflexivity. }
  exists (stickPacket (hovered (tello w)) now). split.
  - unfold Hover, sendStickUpdate. run. cbn [tello trace listener].
    cbn [ctrlConn set_ctrlLx set_ctrlLy set_ctrlRx set_ctrlRy set_ctrlThrottle].
    rewrite Hc. reflexivity.
  - unfold stickPacket. cbn [payload]. rewrite payload_low_bytes, Hp.
    repeat split; reflexivity.
Qed.

(** X19.  On an open socket, while [ctrlConnected] is set each turn of the
    keepalive loop writes one stick packet built from the current sticks and
    the clock, with sequence 0, then sleeps 50 ms, and changes no field; when
    [ctrlConnected] is unset the loop returns at its first turn without any
    effect. *)
Theorem keepAlive_sends_each_turn (nows : list Clock) (w : World) (c : UDPConn) :
  ctrlConn (tello w) = Some c ->
  (ctrlConnected (tello w) = true ->
   exists w',
     keepAlive nows w = Ret true w' /\
     tello w' = tello w /\
     listener w' = listener w /\
     writesOf (trace w') =
       writesOf (trace w) ++ map (fun now => Framed (stickPacket (tello w) now)) nows /\
     sleepsOf (trace w') =
       sleepsOf (trace w) ++ repeat keepAlivePeriodMs (List.length nows) /\
     sentSequences (trace w') =
       sentSequences (trace w) ++ repeat 0 (List.length nows)) /\
  (ctrlConnected (tello w) = false ->
   forall now, keepAlive (now :: nows) w = Ret false w).
Proof.
  intros Hc. split.
  - intros Hced. revert w Hc Hced.
    induction nows as [| now nows IH]; intros w Hc Hced.
    + exists w. cbn. rewrite !app_nil_r. repeat split; reflexivity.
    + cbn [keepAlive]. unfold bind at 1. unfold keepAliveIter, sendStickUpdate. run.
      rewrite Hced, Hc. cbv beta iota.
      match goal with |- context [keepAlive _ ?w0] => set (w1 := w0) end.
      destruct (IH w1 Hc Hced) as (w' & Hrun & Ht & Hl & Hwr & Hsl & Hsq).
      exists w'. split; [exact Hrun |]. rewrite Ht, Hl, Hwr, Hsl, Hsq.
      unfold w1. cbn [tello trace listener].
      rewrite !writesOf_app, !sleepsOf_app, !sentSequences_app. cbn.
      rewrite !app_nil_r, <- !app_assoc. repeat split; reflexivity.
  - intros Hced now. cbn [keepAlive]. unfold bind, keepAliveIter. run.
    rewrite Hced. reflexivity.
Qed.
End Sticks.

(** Throttle 0.75 and throttle 0.0234375 with the same axes. *)
Lemma throttle_low_bits_sent_witness :
  @throttleBits examplePlatform climbing = 2047 /\
  @throttleBits examplePlatform creeping = 1039 /\
  firstn 6 (@stickPayload examplePlatform climbing exampleClock)
    = firstn 6 (@stickPayload examplePlatform creeping exampleClock).
Proof.
  split; [reflexivity |]. split; [reflexivity |].
  apply (@throttle_low_bits_sent examplePlatform climbing creeping exampleClock);
    reflexivity.
Defined.

(** Hover on a link that was climbing. *)
Lemma Hover_then_update_sends_centre_witness :
  exists p w',
    (Hover ;; @sendStickUpdate examplePlatform exampleProtocol exampleClock)
      (mkWorld (set_ctrlConn (Some exampleConn) climbing) [] None) = Ret tt w' /\
    writesOf (trace w') = [Framed p] /\
    firstn 6 (payload p) = [0; 4; 32; 0; 1; 8].
Proof.
  destruct (@Hover_then_update_sends_centre examplePlatform exampleProtocol
              (mkWorld (set_ctrlConn (Some exampleConn) climbing) [] None)
              exampleConn exampleClock eq_refl)
    as (p & Hrun & Hbytes & _).
  exists p. eexists. split; [exact Hrun |]. split; [reflexivity | exact Hbytes].
Defined.

(** Two turns on an established link; one turn on a link that is not. *)
Lemma keepAlive_sends_each_turn_witness :
  (exists w',
     @keepAlive examplePlatform exampleProtocol [exampleClock; exampleClock]
       connectedWorld = Ret true w' /\
     sentSequences (trace w') = [0; 0] /\
     sleepsOf (trace w') = [50; 50]) /\
  @keepAlive examplePlatform exampleProtocol [exampleClock; exampleClock]
    handshakingWorld = Ret false handshakingWorld.
Proof.
  split.
  - destruct (proj1 (@keepAlive_sends_each_turn examplePlatform exampleProtocol
                       [exampleClock; exampleClock] connectedWorld exampleConn eq_refl)
                eq_refl)
      as (w' & Hrun & _ & _ & _ & Hsl & Hsq).
    exists w'. split; [exact Hrun |]. split; [exact Hsq | exact Hsl].
  - apply (proj2 (@keepAlive_sends_each_turn examplePlatform exampleProtocol
                    [exampleClock] handshakingWorld exampleConn eq_refl)).
    reflexivity.
Defined.

(** ** Flight-data stream and video channel *)

(** X20.  A Tello streams flight data at most once: when [fdStreaming] is set,
    [StreamFlightData] returns the already-streaming error and changes
    nothing, whatever its arguments (the check precedes the unimplemented
    as-available branch); when it is unset, a periodic request starts one
    goroutine, sets the flag and returns an empty channel, after which every
    further request is refused. *)
Theorem StreamFlightData_once (w : World) :
  (fdStreaming (tello w) = true ->
   forall asAvailable periodMs,
     StreamFlightData asAvailable periodMs w = Ret (None, Some errAlreadyStreaming) w) /\
  (fdStreaming (tello w) = false ->
   forall periodMs,
   exists w1,
     StreamFlightData false periodMs w = Ret (Some [], None) w1 /\
     tello w1 = set_fdStreaming true (tello w) /\
     goroutinesOf (trace w1) = goroutinesOf (trace w) ++ [GoFlightDataStreamer periodMs] /\
     forall asAvailable periodMs',
       StreamFlightData asAvailable periodMs' w1 = Ret (None, Some errAlreadyStreaming) w1).
Proof.
  split.
  - intros Hs a p. unfold StreamFlightData. run. now rewrite Hs.
  - intros Hs p. unfold StreamFlightData. run. rewrite Hs. cbv beta iota.
    eexists. split; [reflexivity |]. cbn [tello trace].
    split; [reflexivity |].
    split; [rewrite goroutinesOf_app; reflexivity |].
    intros a p'. reflexivity.
Qed.





Section VideoLink.
Context `{Net} `{VideoNet}.

(** X22.  [VideoConnect] has no connection guard and does not use its local
    port: from any state, when the drone address resolves and listening
    succeeds it stores the new socket and a fresh empty stop channel
    (dropping a pending signal), closes no earlier socket, starts nothing that
    reads, and gives the same result for every local port. *)
Theorem VideoConnect_unguarded (udpAddr : string) (droneUDPPort localUDPPort : Z)
    (w : World) (droneAddr : UDPAddr) (c : UDPConn) :
  ResolveUDPAddr "udp" (udpAddr ++ ":" ++ Itoa droneUDPPort) = inl droneAddr ->
  ListenUDP "udp" droneAddr = inl c ->
  exists w',
    VideoConnect udpAddr droneUDPPort localUDPPort w = Ret None w' /\
    tello w' = set_videoStopChan (Some []) (set_videoConn (Some c) (tello w)) /\
    closesOf (trace w') = closesOf (trace w) /\
    listener w' = listener w /\
    forall localUDPPort',
      VideoConnect udpAddr droneUDPPort localUDPPort' w = Ret None w'.
Proof.
  intros Hr Hlisten. unfold VideoConnect, videoResponseListener. run.
  rewrite Hr, Hlisten. cbn [tello trace listener].
  eexists. split; [reflexivity |]. cbn [tello trace listener].
  rewrite closesOf_app. cbn. rewrite !app_nil_r.
  repeat split; reflexivity.
Qed.
End VideoLink.

Lemma VideoDisconnect_full (w : World) :
  match videoStopChan (tello w) with
  | None => True
  | Some q => (2 <= List.length q)%nat
  end ->
  VideoDisconnect w = Blocked w.
Proof.
  intros Hq. unfold VideoDisconnect. run.
  destruct (videoStopChan (tello w)) as [q |]; [| reflexivity].
  apply Nat.leb_le in Hq. now rewrite Hq.
Qed.

Lemma videoDisconnects_S (k : nat) (w : World) :
  videoDisconnects (S k) w = (VideoDisconnect ;; videoDisconnects k) w.
Proof. reflexivity. Qed.

(** X23.  Nothing ever receives from the video stop channel
    ([videoResponseListener] is empty): [VideoDisconnect] blocks when the
    channel is nil; otherwise the calls that find room in the channel
    (capacity 2) each close the video socket and leave their signal queued,
    and the next call blocks.  No other field changes. *)
Theorem VideoDisconnect_blocks (w : World) :
  (videoStopChan (tello w) = None -> VideoDisconnect w = Blocked w) /\
  (forall q c,
     videoStopChan (tello w) = Some q -> (List.length q <= 2)%nat ->
     videoConn (tello w) = Some c ->
     let n := (2 - List.length q)%nat in
     exists w',
       videoDisconnects (S n) w = Blocked w' /\
       tello w' = set_videoStopChan (Some (q ++ repeat true n)) (tello w) /\
       closesOf (trace w') = closesOf (trace w) ++ repeat c n /\
       listener w' = listener w).
Proof.
  split.
  - intros Hn. apply VideoDisconnect_full. now rewrite Hn.
  - intros q c Hq Hlen Hc n. subst n.
    remember (2 - List.length q)%nat as n eqn:En.
    revert w q Hq Hlen Hc En.
    induction n as [| n IH]; intros w q Hq Hlen Hc En.
    + cbn [videoDisconnects]. unfold bind.
      rewrite VideoDisconnect_full by (rewrite Hq; lia).
      exists w. cbn. rewrite !app_nil_r. repeat split; auto.
      destruct (tello w). cbn in Hq |- *. now subst.
    + rewrite videoDisconnects_S.
      unfold VideoDisconnect at 1. run. rewrite Hq, Hc.
      assert (Hlt : (2 <=? List.length q)%nat = false) by (apply Nat.leb_gt; lia).
      rewrite Hlt. cbv beta iota. cbn [tello trace listener].
      match goal with |- context [videoDisconnects _ ?w0] => set (w1 := w0) end.
      destruct (IH w1 (q ++ [true])) as (w' & Hrun & Hs & Hcl & Hlis).
      * reflexivity.
      * rewrite length_app; cbn [List.length]; lia.
      * exact Hc.
      * rewrite length_app; cbn [List.length]; lia.
      * exists w'. split; [exact Hrun |].
        rewrite Hs, Hcl, Hlis. unfold w1. cbn [tello trace listener].
        rewrite closesOf_app, <- !app_assoc. cbn. rewrite ?app_nil_r.
        repeat split; reflexivity.
Qed.

(** A second stream is refused, also when updates as available are asked for. *)
Lemma StreamFlightData_once_witness :
  StreamFlightData true 100 streamingWorld
    = Ret (None, Some errAlreadyStreaming) streamingWorld /\
  exists w1,
    StreamFlightData false 100 (freshWorld zeroTello) = Ret (Some [], None) w1 /\
    goroutinesOf (trace w1) = [GoFlightDataStreamer 100] /\
    StreamFlightData false 100 w1 = Ret (None, Some errAlreadyStreaming) w1.
Proof.
  split.
  - apply (proj1 (StreamFlightData_once streamingWorld)). reflexivity.
  - destruct (proj2 (StreamFlightData_once (freshWorld zeroTello)) eq_refl 100)
      as (w1 & Hrun & _ & Hgo & Hagain).
    exists w1. split; [exact Hrun |]. split; [exact Hgo | apply Hagain].
Defined.


(** A second VideoConnect on an open video channel. *)
Lemma VideoConnect_unguarded_witness :
  exists w',
    @VideoConnectDefault exampleNet exampleVideoNet videoWorld = Ret None w' /\
    videoStopChan (tello w') = Some [] /\
    closesOf (trace w') = [] /\
    @VideoConnect exampleNet exampleVideoNet defaultTelloAddr defaultTelloVideoPort 0
      videoWorld = Ret None w'.
Proof.
  destruct (@VideoConnect_unguarded exampleNet exampleVideoNet
              defaultTelloAddr defaultTelloVideoPort defaultLocalVideoPort videoWorld
              "192.168.10.1:6038"%string (mkUDPConn "192.168.10.1:6038"%string EmptyString)
              eq_refl eq_refl)
    as (w' & Hrun & Ht & Hcl & _ & Hport).
  exists w'. split; [exact Hrun |]. split; [rewrite Ht; reflexivity |].
  split; [exact Hcl | apply Hport].
Defined.

(** Never connected; and a second and third call on an open video channel. *)
Lemma VideoDisconnect_blocks_witness :
  VideoDisconnect (freshWorld zeroTello) = Blocked (freshWorld zeroTello) /\
  exists w',
    videoDisconnects 2 videoWorld = Blocked w' /\
    videoStopChan (tello w') = Some [true; true] /\
    closesOf (trace w') = [exampleConn].
Proof.
  split.
  - apply (proj1 (VideoDisconnect_blocks (freshWorld zeroTello))). reflexivity.
  - destruct (proj2 (VideoDisconnect_blocks videoWorld) [true] exampleConn
                eq_refl (proj1 (Nat.leb_le 1 2) eq_refl) eq_refl)
      as (w' & Hrun & Ht & Hcl & _).
    exists w'. split; [exact Hrun |]. split; [rewrite Ht; reflexivity | exact Hcl].
Defined.
